(** * hytale-auth-server: the token service of [src/services/auth.js]

    A shallow embedding of the authentication service: issuer resolution,
    scope normalisation, the four token builders, the unverified token
    reader, the bearer audience extractor and the key store start-up,
    with the properties the specification states about them.

    The service is JavaScript on Node.js.  The embedding has these layers:

    - [JS]: JavaScript values, exceptions, and the string and array
      primitives the service calls ([split], [includes], [replace], [join]);
    - [Base64url], [JSON]: the two codecs of the Node runtime the service
      relies on ([Buffer.from(x,'base64url')], [toString('base64url')],
      [JSON.stringify], [JSON.parse]), as executable functions;
    - [Auth]: the functions of [auth.js] that build and read tokens,
      translated statement by statement;
    - [KeyStore]: [loadOrGenerateKeys] over a model of the file system;
    - [JSONValue], [Spec]: the vocabulary of the statements;
    - [Jwks], [Telemetry]: [getPublicKeyJwk], and [handleTelemetry] of
      [src/routes/telemetry.js], which reads the player of a request with
      [parseToken]; [Behaviour]: the vocabulary of the statements about
      them;
    - the proofs: the two codecs invert each other, the statements of
      the specification about the service, and further properties of the
      code: the key store across restarts, the tokens from the builders to
      the readers, and the telemetry handler.

    Modelling conventions.

    - A JavaScript string is a [string] of bytes (its UTF-8 encoding), so
      [Buffer.from(s)] and [buf.toString()] are the identity.  An escape
      [\uXXXX] of [JSON.parse] gives the UTF-8 bytes of that one code
      unit; surrogate pairs are not joined.
    - A JavaScript number is an integer [Z] when it is integral, printed
      in decimal.  A JSON literal with a fraction or an exponent is kept
      as its text ([VDec]); its floating-point value is not modelled.
    - An object is the list of its properties in insertion order; the
      order JavaScript gives to integer-like keys is not modelled.
    - An exception is an explicit [Throw] result, [try]/[catch] is
      [try_catch], and a function that reads the clock, draws a UUID,
      signs or touches the disk receives those surroundings as arguments.
    - [require('../config')] is not among the sources: the configuration
      is a parameter. *)

From Stdlib Require Import ZArith String Ascii List Bool Lia.
From Stdlib Require Import DecimalString DecimalFacts DecimalPos DecimalN DecimalZ.
From stdpp Require Import base strings gmap.
Import ListNotations.

Local Open Scope string_scope.
Local Open Scope Z_scope.

#[local] Arguments String.append !_ _ / : simpl nomatch.

(** ** JavaScript values and exceptions *)

Module JS.

#[local] Unset Elimination Schemes.

Inductive value : Type :=
| VUndefined
| VNull
| VBool (b : bool)
| VNum (z : Z)
| VDec (lit : string)
| VStr (s : string)
| VArr (items : list value)
| VObj (fields : list (string * value))
| VFun (name : string).

#[local] Set Elimination Schemes.

Inductive error : Type :=
| TypeError
| SyntaxError
| SystemError (code : string).

Inductive result (A : Type) : Type :=
| Ok (a : A)
| Throw (e : error).

Arguments Ok {A} a.
Arguments Throw {A} e.

Definition bind {A B : Type} (r : result A) (k : A -> result B) : result B :=
  match r with
  | Ok a => k a
  | Throw e => Throw e
  end.

Notation "'let!' x ':=' r 'in' k" := (bind r (fun x => k))
  (at level 10, x name, r at level 100, k at level 200).

(** [try { body } catch (e) { handler }] *)
Definition try_catch {A : Type} (body : result A) (handler : error -> result A)
  : result A :=
  match body with
  | Ok a => Ok a
  | Throw e => handler e
  end.

(** A nested induction principle: the items of an array and the field
    values of an object are covered by the induction hypothesis. *)
Section value_induction.
Variable P : value -> Prop.
Hypothesis Hundef : P VUndefined.
Hypothesis Hnull : P VNull.
Hypothesis Hbool : forall b, P (VBool b).
Hypothesis Hnum : forall z, P (VNum z).
Hypothesis Hdec : forall lit, P (VDec lit).
Hypothesis Hstr : forall s, P (VStr s).
Hypothesis Harr : forall items, Forall P items -> P (VArr items).
Hypothesis Hobj : forall fields, Forall (fun kv => P (snd kv)) fields -> P (VObj fields).
Hypothesis Hfun : forall name, P (VFun name).

Fixpoint value_nested_ind (v : value) : P v :=
  match v with
  | VUndefined => Hundef
  | VNull => Hnull
  | VBool b => Hbool b
  | VNum z => Hnum z
  | VDec lit => Hdec lit
  | VStr s => Hstr s
  | VArr items =>
      Harr items
        ((fix go (l : list value) : Forall P l :=
            match l with
            | [] => @List.Forall_nil _ P
            | x :: l' => @List.Forall_cons _ P x l' (value_nested_ind x) (go l')
            end) items)
  | VObj fields =>
      Hobj fields
        ((fix go (l : list (string * value)) : Forall (fun kv => P (snd kv)) l :=
            match l with
            | [] => @List.Forall_nil _ _
            | kv :: l' => @List.Forall_cons _ _ kv l' (value_nested_ind (snd kv)) (go l')
            end) fields)
  | VFun name => Hfun name
  end.
End value_induction.

(** *** Strings *)

Definition is_digit (c : ascii) : bool :=
  (48 <=? Z.of_nat (nat_of_ascii c)) && (Z.of_nat (nat_of_ascii c) <=? 57).

Fixpoint all_chars (p : ascii -> bool) (s : string) : bool :=
  match s with
  | EmptyString => true
  | String c s' => p c && all_chars p s'
  end.

Fixpoint drop_chars (n : nat) (s : string) : string :=
  match n, s with
  | O, _ => s
  | S n', String _ s' => drop_chars n' s'
  | S _, EmptyString => EmptyString
  end.

(** [s.startsWith(p)] *)
Fixpoint starts_with (p s : string) : bool :=
  match p, s with
  | EmptyString, _ => true
  | String a p', String b s' => Ascii.eqb a b && starts_with p' s'
  | String _ _, EmptyString => false
  end.

(** [s.split(sep)] for a separator of one character, which is how the
    service calls it (['.'] and [':']).  The result is never empty. *)
Fixpoint split (sep : ascii) (s : string) : list string :=
  match s with
  | EmptyString => [EmptyString]
  | String c s' =>
      if Ascii.eqb c sep then EmptyString :: split sep s'
      else match split sep s' with
           | p :: ps => String c p :: ps
           | [] => [String c EmptyString]
           end
  end.

(** [s.includes(sub)] *)
Fixpoint includes (s sub : string) : bool :=
  if starts_with sub s then true
  else match s with
       | EmptyString => false
       | String _ s' => includes s' sub
       end.

(** [s.replace(pat, repl)] with a string pattern: the first occurrence
    only. *)
Fixpoint replace (s pat repl : string) : string :=
  if starts_with pat s then repl ++ drop_chars (String.length pat) s
  else match s with
       | EmptyString => EmptyString
       | String c s' => String c (replace s' pat repl)
       end.

(** Joining strings with a separator. *)
Fixpoint join_strings (sep : string) (l : list string) : string :=
  match l with
  | [] => EmptyString
  | [x] => x
  | x :: l' => x ++ sep ++ join_strings sep l'
  end.

(** Decimal text of an integer, as [Number.prototype.toString] prints an
    integral number (below 1e21). *)
Definition string_of_Z (z : Z) : string :=
  NilZero.string_of_int (Z.to_int z).

(** *** Conversions *)

(** [ToBoolean]: what [if (v)], [!v] and [||] test. *)
Fixpoint mantissa_nonzero (s : string) : bool :=
  match s with
  | EmptyString => false
  | String c s' =>
      if Ascii.eqb c "e" || Ascii.eqb c "E" then false
      else (is_digit c && negb (Ascii.eqb c "0")) || mantissa_nonzero s'
  end.

Definition truthy (v : value) : bool :=
  match v with
  | VUndefined | VNull => false
  | VBool b => b
  | VNum z => negb (z =? 0)
  | VDec lit => mantissa_nonzero lit
  | VStr s => negb (String.eqb s EmptyString)
  | VArr _ | VObj _ | VFun _ => true
  end.

(** [ToString], as [Array.prototype.join] applies it to each item. *)
Fixpoint to_string (v : value) : string :=
  match v with
  | VUndefined => "undefined"
  | VNull => "null"
  | VBool true => "true"
  | VBool false => "false"
  | VNum z => string_of_Z z
  | VDec lit => lit
  | VStr s => s
  | VArr items =>
      join_strings ","
        ((fix go (l : list value) : list string :=
            match l with
            | [] => []
            | x :: l' =>
                match x with
                | VUndefined | VNull => EmptyString
                | _ => to_string x
                end :: go l'
            end) items)
  | VObj _ => "[object Object]"
  | VFun name => "function " ++ name ++ "() { [native code] }"
  end.

(** [arr.join(sep)]: [undefined] and [null] items print as the empty
    string. *)
Definition join_item (v : value) : string :=
  match v with
  | VUndefined | VNull => EmptyString
  | _ => to_string v
  end.

Definition array_join (sep : string) (items : list value) : string :=
  join_strings sep (map join_item items).

(** *** Property access *)

Fixpoint assoc (k : string) (fields : list (string * value)) : option value :=
  match fields with
  | [] => None
  | (k', v) :: rest => if String.eqb k k' then Some v else assoc k rest
  end.

(** [obj[k] = v] on own properties: an existing key keeps its place. *)
Fixpoint obj_set (fields : list (string * value)) (k : string) (v : value)
  : list (string * value) :=
  match fields with
  | [] => [(k, v)]
  | (k', v') :: rest =>
      if String.eqb k k' then (k', v) :: rest else (k', v') :: obj_set rest k v
  end.

(** The members of the built-in prototypes, by name. *)
Definition object_prototype : list string :=
  ["constructor"; "hasOwnProperty"; "isPrototypeOf"; "propertyIsEnumerable";
   "toLocaleString"; "toString"; "valueOf"; "__defineGetter__";
   "__defineSetter__"; "__lookupGetter__"; "__lookupSetter__"; "__proto__"].

Definition string_prototype : list string :=
  ["anchor"; "at"; "big"; "blink"; "bold"; "charAt"; "charCodeAt";
   "codePointAt"; "concat"; "endsWith"; "fixed"; "fontcolor"; "fontsize";
   "includes"; "indexOf"; "isWellFormed"; "italics"; "lastIndexOf"; "link";
   "localeCompare"; "match"; "matchAll"; "normalize"; "padEnd"; "padStart";
   "repeat"; "replace"; "replaceAll"; "search"; "slice"; "small"; "split";
   "startsWith"; "strike"; "sub"; "substr"; "substring"; "sup";
   "toLocaleLowerCase"; "toLocaleUpperCase"; "toLowerCase"; "toUpperCase";
   "toWellFormed"; "trim"; "trimEnd"; "trimLeft"; "trimRight"; "trimStart"].

Definition array_prototype : list string :=
  ["at"; "concat"; "copyWithin"; "entries"; "every"; "fill"; "filter";
   "find"; "findIndex"; "findLast"; "findLastIndex"; "flat"; "flatMap";
   "forEach"; "includes"; "indexOf"; "join"; "keys"; "lastIndexOf"; "map";
   "pop"; "push"; "reduce"; "reduceRight"; "reverse"; "shift"; "slice";
   "some"; "sort"; "splice"; "toReversed"; "toSorted"; "toSpliced";
   "unshift"; "values"; "with"].

Definition number_prototype : list string :=
  ["toExponential"; "toFixed"; "toPrecision"].

Definition function_prototype : list string :=
  ["apply"; "bind"; "call"; "arguments"; "caller"].

Definition mem (k : string) (l : list string) : bool :=
  existsb (String.eqb k) l.

Definition proto_lookup (own : list string) (k : string) : value :=
  if mem k own || mem k object_prototype then VFun k else VUndefined.

(** The index a canonical numeric key denotes (["0"], ["17"]; not ["01"]). *)
Definition index_of_key (k : string) : option nat :=
  match NilEmpty.uint_of_string k with
  | Some d =>
      if String.eqb (NilEmpty.string_of_uint (Decimal.unorm d)) k
      then Some (Nat.of_uint d) else None
  | None => None
  end.

Fixpoint nth_char (n : nat) (s : string) : option ascii :=
  match s, n with
  | EmptyString, _ => None
  | String c _, O => Some c
  | String _ s', S n' => nth_char n' s'
  end.

(** [v.k] and [v[k]].  Reading a property of [undefined] or [null] throws a
    TypeError; a primitive reads through its prototype; a missing property
    reads as [undefined]. *)
Definition get (v : value) (k : string) : result value :=
  match v with
  | VUndefined | VNull => Throw TypeError
  | VObj fields =>
      Ok (match assoc k fields with
          | Some x => x
          | None => proto_lookup [] k
          end)
  | VStr s =>
      Ok (if String.eqb k "length" then VNum (Z.of_nat (String.length s))
          else match index_of_key k with
               | Some i =>
                   match nth_char i s with
                   | Some c => VStr (String c EmptyString)
                   | None => proto_lookup string_prototype k
                   end
               | None => proto_lookup string_prototype k
               end)
  | VArr items =>
      Ok (if String.eqb k "length" then VNum (Z.of_nat (length items))
          else match index_of_key k with
               | Some i =>
                   match nth_error items i with
                   | Some x => x
                   | None => proto_lookup array_prototype k
                   end
               | None => proto_lookup array_prototype k
               end)
  | VNum _ | VDec _ => Ok (proto_lookup number_prototype k)
  | VBool _ => Ok (proto_lookup [] k)
  | VFun name =>
      Ok (if String.eqb k "name" then VStr name
          else proto_lookup function_prototype k)
  end.

(** [v.split(sep)]: only a string has the method; on anything else the
    call throws a TypeError ([undefined] is not a function, or the property
    of [undefined] cannot be read). *)
Definition call_split (v : value) (sep : ascii) : result (list string) :=
  match v with
  | VStr s => Ok (split sep s)
  | _ => Throw TypeError
  end.

(** [v.replace(pat, repl)] with string arguments. *)
Definition call_replace (v : value) (pat repl : string) : result string :=
  match v with
  | VStr s => Ok (replace s pat repl)
  | _ => Throw TypeError
  end.

(** [a === b] when [b] is a string literal. *)
Definition strict_eq_str (a : value) (s : string) : bool :=
  match a with
  | VStr x => String.eqb x s
  | _ => false
  end.

End JS.

(** ** Base64url, as Node's [Buffer] encodes and decodes it *)

Module Base64url.

(** Six bits, most significant first. *)
Definition sextet : Type := (bool * bool * bool * bool * bool * bool)%type.

Definition alphabet : string :=
  "ABCDEFGHIJKLMNOPQRSTUVWXYZabcdefghijklmnopqrstuvwxyz0123456789-_".

Definition bit (b : bool) (w : nat) : nat := if b then w else O.

Definition sextet_index (x : sextet) : nat :=
  let '(b5, b4, b3, b2, b1, b0) := x in
  (bit b5 32 + bit b4 16 + bit b3 8 + bit b2 4 + bit b1 2 + bit b0 1)%nat.

Definition sextet_of_index (n : nat) : sextet :=
  (Nat.testbit n 5, Nat.testbit n 4, Nat.testbit n 3,
   Nat.testbit n 2, Nat.testbit n 1, Nat.testbit n 0).

Definition enc_char (x : sextet) : ascii :=
  match JS.nth_char (sextet_index x) alphabet with
  | Some c => c
  | None => "A"%char
  end.

Fixpoint index_in (c : ascii) (s : string) : option nat :=
  match s with
  | EmptyString => None
  | String d s' =>
      if Ascii.eqb c d then Some O
      else match index_in c s' with
           | Some n => Some (S n)
           | None => None
           end
  end.

(** The decoder reads the URL-safe alphabet and the standard one ([+] and
    [/]) alike. *)
Definition dec_char (c : ascii) : option sextet :=
  if Ascii.eqb c "+" then Some (sextet_of_index 62)
  else if Ascii.eqb c "/" then Some (sextet_of_index 63)
  else match index_in c alphabet with
       | Some n => Some (sextet_of_index n)
       | None => None
       end.

Definition byte3 (a b c : ascii) : list sextet :=
  let '(Ascii a0 a1 a2 a3 a4 a5 a6 a7) := a in
  let '(Ascii b0 b1 b2 b3 b4 b5 b6 b7) := b in
  let '(Ascii c0 c1 c2 c3 c4 c5 c6 c7) := c in
  [(a7, a6, a5, a4, a3, a2); (a1, a0, b7, b6, b5, b4);
   (b3, b2, b1, b0, c7, c6); (c5, c4, c3, c2, c1, c0)].

Definition byte2 (a b : ascii) : list sextet :=
  let '(Ascii a0 a1 a2 a3 a4 a5 a6 a7) := a in
  let '(Ascii b0 b1 b2 b3 b4 b5 b6 b7) := b in
  [(a7, a6, a5, a4, a3, a2); (a1, a0, b7, b6, b5, b4);
   (b3, b2, b1, b0, false, false)].

Definition byte1 (a : ascii) : list sextet :=
  let '(Ascii a0 a1 a2 a3 a4 a5 a6 a7) := a in
  [(a7, a6, a5, a4, a3, a2); (a1, a0, false, false, false, false)].

(** The sextets of a byte string, three bytes to four sextets; a tail of
    one or two bytes gives two or three sextets (no padding). *)
Fixpoint sextets_of_bytes (s : string) : list sextet :=
  match s with
  | EmptyString => []
  | String a EmptyString => byte1 a
  | String a (String b EmptyString) => byte2 a b
  | String a (String b (String c rest)) => (byte3 a b c ++ sextets_of_bytes rest)%list
  end.

Fixpoint string_of_chars (l : list ascii) : string :=
  match l with
  | [] => EmptyString
  | c :: l' => String c (string_of_chars l')
  end.

(** [Buffer.from(s).toString('base64url')] *)
Definition encode (s : string) : string :=
  string_of_chars (map enc_char (sextets_of_bytes s)).

(** The sextets read from a text: decoding stops at the first [=], and a
    character outside the alphabets is skipped. *)
Fixpoint sextets_of_text (s : string) : list sextet :=
  match s with
  | EmptyString => []
  | String c s' =>
      if Ascii.eqb c "=" then []
      else match dec_char c with
           | Some x => x :: sextets_of_text s'
           | None => sextets_of_text s'
           end
  end.

Definition first_byte (x y : sextet) : ascii :=
  let '(x5, x4, x3, x2, x1, x0) := x in
  let '(y5, y4, _, _, _, _) := y in
  Ascii y4 y5 x0 x1 x2 x3 x4 x5.

Definition second_byte (y z : sextet) : ascii :=
  let '(_, _, y3, y2, y1, y0) := y in
  let '(z5, z4, z3, z2, _, _) := z in
  Ascii z2 z3 z4 z5 y0 y1 y2 y3.

Definition third_byte (z w : sextet) : ascii :=
  let '(_, _, _, _, z1, z0) := z in
  let '(w5, w4, w3, w2, w1, w0) := w in
  Ascii w0 w1 w2 w3 w4 w5 z0 z1.

Fixpoint bytes_of_sextets (l : list sextet) : string :=
  match l with
  | x :: y :: z :: w :: rest =>
      String (first_byte x y)
        (String (second_byte y z)
           (String (third_byte z w) (bytes_of_sextets rest)))
  | [x; y; z] => String (first_byte x y) (String (second_byte y z) EmptyString)
  | [x; y] => String (first_byte x y) EmptyString
  | _ => EmptyString
  end.

(** [Buffer.from(s, 'base64url').toString()].  The decoder never throws:
    it decodes what it can read. *)
Definition decode (s : string) : string :=
  bytes_of_sextets (sextets_of_text s).

(** The standard alphabet with padding, [buf.toString('base64')]. *)
Definition alphabet_std : string :=
  "ABCDEFGHIJKLMNOPQRSTUVWXYZabcdefghijklmnopqrstuvwxyz0123456789+/".

Definition enc_char_std (x : sextet) : ascii :=
  match JS.nth_char (sextet_index x) alphabet_std with
  | Some c => c
  | None => "A"%char
  end.

Definition padding (n : nat) : string :=
  match (n mod 3)%nat with
  | 1%nat => "=="
  | 2%nat => "="
  | _ => EmptyString
  end.

Definition encode_std (s : string) : string :=
  string_of_chars (map enc_char_std (sextets_of_bytes s)) ++ padding (String.length s).

End Base64url.

(** ** JSON, as [JSON.stringify] and [JSON.parse] *)

Module JSON.
Import JS.

Definition dquote : ascii := "034"%char.
Definition backslash : ascii := "092"%char.

Definition code (c : ascii) : nat := nat_of_ascii c.

Definition hex_digit (n : nat) : ascii :=
  match JS.nth_char n "0123456789abcdef" with
  | Some c => c
  | None => "0"%char
  end.

(** [QuoteJSONString]: the two-character escapes, [\u00xx] for the other
    control characters, every other character as it is. *)
Definition escape_char (c : ascii) : string :=
  if Ascii.eqb c dquote then String backslash (String dquote EmptyString)
  else if Ascii.eqb c backslash then String backslash (String backslash EmptyString)
  else if Ascii.eqb c "008" then String backslash "b"
  else if Ascii.eqb c "009" then String backslash "t"
  else if Ascii.eqb c "010" then String backslash "n"
  else if Ascii.eqb c "012" then String backslash "f"
  else if Ascii.eqb c "013" then String backslash "r"
  else if (code c <? 32)%nat then
    String backslash
      (String "u" (String "0" (String "0"
         (String (hex_digit (code c / 16)) (String (hex_digit (code c mod 16)) EmptyString)))))
  else String c EmptyString.

Fixpoint escape (s : string) : string :=
  match s with
  | EmptyString => EmptyString
  | String c s' => escape_char c ++ escape s'
  end.

Definition quote (s : string) : string :=
  String dquote (escape s ++ String dquote EmptyString).

(** [JSON.stringify(v)] without indentation.  The result is [undefined]
    ([None]) for [undefined] and for a function; inside an array those
    print as [null], inside an object their property is left out. *)
Fixpoint stringify (v : value) : option string :=
  match v with
  | VUndefined | VFun _ => None
  | VNull => Some "null"
  | VBool true => Some "true"
  | VBool false => Some "false"
  | VNum z => Some (string_of_Z z)
  | VDec lit => Some lit
  | VStr s => Some (quote s)
  | VArr items =>
      Some ("[" ++
        join_strings ","
          ((fix go (l : list value) : list string :=
              match l with
              | [] => []
              | x :: l' =>
                  match stringify x with
                  | Some j => j
                  | None => "null"
                  end :: go l'
              end) items) ++ "]")
  | VObj fields =>
      Some ("{" ++
        join_strings ","
          ((fix go (l : list (string * value)) : list string :=
              match l with
              | [] => []
              | (k, x) :: l' =>
                  match stringify x with
                  | Some j => (quote k ++ ":" ++ j) :: go l'
                  | None => go l'
                  end
              end) fields) ++ "}")
  end.

(** *** Lexer *)

Inductive token : Type :=
| TLBrack | TRBrack | TLBrace | TRBrace | TColon | TComma
| TStr (s : string)
| TNum (z : Z)
| TDec (lit : string)
| TTrue | TFalse | TNull.

Definition is_ws (c : ascii) : bool :=
  Ascii.eqb c " " || Ascii.eqb c "009" || Ascii.eqb c "010" || Ascii.eqb c "013".

Definition is_lower (c : ascii) : bool :=
  (97 <=? code c)%nat && (code c <=? 122)%nat.

Definition is_numchar (c : ascii) : bool :=
  is_digit c || Ascii.eqb c "-" || Ascii.eqb c "+" || Ascii.eqb c "."
  || Ascii.eqb c "e" || Ascii.eqb c "E".

Fixpoint span_digits (s : string) : string * string :=
  match s with
  | EmptyString => (EmptyString, EmptyString)
  | String c s' =>
      if is_digit c then
        let '(ds, rest) := span_digits s' in (String c ds, rest)
      else (EmptyString, s)
  end.

Definition nonempty (s : string) : bool :=
  match s with
  | EmptyString => false
  | String _ _ => true
  end.

(** An exponent part: [e] or [E], an optional sign, one digit or more. *)
Definition exp_ok (s : string) : bool :=
  match s with
  | String c r =>
      (Ascii.eqb c "e" || Ascii.eqb c "E") &&
      let digits :=
        match r with
        | String d r' => if Ascii.eqb d "+" || Ascii.eqb d "-" then r' else r
        | EmptyString => r
        end in
      nonempty digits && all_chars is_digit digits
  | EmptyString => false
  end.

(** What may follow the integer part: a fraction, an exponent, or both. *)
Definition frac_exp_ok (s : string) : bool :=
  match s with
  | String c r =>
      if Ascii.eqb c "." then
        let '(fd, r') := span_digits r in
        nonempty fd && (negb (nonempty r') || exp_ok r')
      else exp_ok s
  | EmptyString => false
  end.

(** The token of a number literal: an optional minus sign, an integer part
    without a leading zero, then an optional fraction and exponent. *)
Definition num_token (lit : string) : option token :=
  let '(neg, body) :=
    match lit with
    | String c r => if Ascii.eqb c "-" then (true, r) else (false, lit)
    | EmptyString => (false, lit)
    end in
  let '(ip, rest) := span_digits body in
  match NilEmpty.uint_of_string ip with
  | Some d =>
      if String.eqb (NilEmpty.string_of_uint (Decimal.unorm d)) ip then
        match rest with
        | EmptyString => Some (TNum (if neg then - Z.of_uint d else Z.of_uint d))
        | _ => if frac_exp_ok rest then Some (TDec lit) else None
        end
      else None
  | None => None
  end.

Definition word_token (w : string) : option token :=
  if String.eqb w "true" then Some TTrue
  else if String.eqb w "false" then Some TFalse
  else if String.eqb w "null" then Some TNull
  else None.

Definition hex_value (c : ascii) : option nat :=
  if is_digit c then Some (code c - 48)%nat
  else if (97 <=? code c)%nat && (code c <=? 102)%nat then Some (code c - 87)%nat
  else if (65 <=? code c)%nat && (code c <=? 70)%nat then Some (code c - 55)%nat
  else None.

(** The UTF-8 bytes of a code point below 65536. *)
Definition utf8 (cp : nat) : string :=
  if (cp <? 128)%nat then String (ascii_of_nat cp) EmptyString
  else if (cp <? 2048)%nat then
    String (ascii_of_nat (192 + cp / 64))
      (String (ascii_of_nat (128 + cp mod 64)) EmptyString)
  else
    String (ascii_of_nat (224 + cp / 4096))
      (String (ascii_of_nat (128 + (cp / 64) mod 64))
         (String (ascii_of_nat (128 + cp mod 64)) EmptyString)).

(** The character a two-character escape stands for. *)
Definition escape_target (c : ascii) : option ascii :=
  if Ascii.eqb c dquote then Some dquote
  else if Ascii.eqb c backslash then Some backslash
  else if Ascii.eqb c "/" then Some "/"%char
  else if Ascii.eqb c "b" then Some "008"%char
  else if Ascii.eqb c "t" then Some "009"%char
  else if Ascii.eqb c "n" then Some "010"%char
  else if Ascii.eqb c "f" then Some "012"%char
  else if Ascii.eqb c "r" then Some "013"%char
  else None.

Inductive lmode : Type :=
| LTop
| LStr (acc : string)
| LEsc (acc : string)
| LHex (acc : string) (k : nat) (cp : nat)
| LNum (acc : string)
| LWord (acc : string).

Definition snoc (s : string) (c : ascii) : string := s ++ String c EmptyString.

(** Between tokens: the token a character gives, if it is one, and the
    mode it opens. *)
Definition top_step (c : ascii) : option (option token * lmode) :=
  if is_ws c then Some (None, LTop)
  else if Ascii.eqb c dquote then Some (None, LStr EmptyString)
  else if Ascii.eqb c "[" then Some (Some TLBrack, LTop)
  else if Ascii.eqb c "]" then Some (Some TRBrack, LTop)
  else if Ascii.eqb c "{" then Some (Some TLBrace, LTop)
  else if Ascii.eqb c "}" then Some (Some TRBrace, LTop)
  else if Ascii.eqb c ":" then Some (Some TColon, LTop)
  else if Ascii.eqb c "," then Some (Some TComma, LTop)
  else if is_digit c || Ascii.eqb c "-" then Some (None, LNum (String c EmptyString))
  else if is_lower c then Some (None, LWord (String c EmptyString))
  else None.

Definition prepend (t : token) (r : option (list token)) : option (list token) :=
  match r with
  | Some ts => Some (t :: ts)
  | None => None
  end.

Definition emit (ot : option token) (r : option (list token)) : option (list token) :=
  match ot with
  | Some t => prepend t r
  | None => r
  end.

Fixpoint lex (m : lmode) (s : string) : option (list token) :=
  match s with
  | EmptyString =>
      match m with
      | LTop => Some []
      | LNum acc =>
          match num_token acc with
          | Some t => Some [t]
          | None => None
          end
      | LWord acc =>
          match word_token acc with
          | Some t => Some [t]
          | None => None
          end
      | _ => None
      end
  | String c s' =>
      match m with
      | LTop =>
          match top_step c with
          | Some (ot, m') => emit ot (lex m' s')
          | None => None
          end
      | LStr acc =>
          if Ascii.eqb c dquote then prepend (TStr acc) (lex LTop s')
          else if Ascii.eqb c backslash then lex (LEsc acc) s'
          else if (code c <? 32)%nat then None
          else lex (LStr (snoc acc c)) s'
      | LEsc acc =>
          if Ascii.eqb c "u" then lex (LHex acc 0 0) s'
          else match escape_target c with
               | Some x => lex (LStr (snoc acc x)) s'
               | None => None
               end
      | LHex acc k cp =>
          match hex_value c with
          | Some h =>
              if (k =? 3)%nat then lex (LStr (acc ++ utf8 (16 * cp + h))) s'
              else lex (LHex acc (S k) (16 * cp + h)%nat) s'
          | None => None
          end
      | LNum acc =>
          if is_numchar c then lex (LNum (snoc acc c)) s'
          else match num_token acc, top_step c with
               | Some t, Some (ot, m') => prepend t (emit ot (lex m' s'))
               | _, _ => None
               end
      | LWord acc =>
          if is_lower c then lex (LWord (snoc acc c)) s'
          else match word_token acc, top_step c with
               | Some t, Some (ot, m') => prepend t (emit ot (lex m' s'))
               | _, _ => None
               end
      end
  end.

(** *** Parser: a stack machine over the tokens *)

Inductive frame : Type :=
| FArr (acc : list value)
| FObj (acc : list (string * value))
| FKey (acc : list (string * value)) (key : string).

Inductive pmode : Type :=
| PValue
| PArrStart
| PObjStart
| PKey
| PColon
| PAfter
| PDone (v : value).

Definition pstate : Type := (list frame * pmode)%type.

(** A finished value goes to the enclosing array or object, or is the
    result. *)
Definition deliver (v : value) (stack : list frame) : option pstate :=
  match stack with
  | [] => Some ([], PDone v)
  | FArr acc :: st => Some (FArr (acc ++ [v])%list :: st, PAfter)
  | FKey acc k :: st => Some (FObj (obj_set acc k v) :: st, PAfter)
  | FObj _ :: _ => None
  end.

Definition start_value (t : token) (stack : list frame) : option pstate :=
  match t with
  | TStr s => deliver (VStr s) stack
  | TNum z => deliver (VNum z) stack
  | TDec lit => deliver (VDec lit) stack
  | TTrue => deliver (VBool true) stack
  | TFalse => deliver (VBool false) stack
  | TNull => deliver VNull stack
  | TLBrack => Some (FArr [] :: stack, PArrStart)
  | TLBrace => Some (FObj [] :: stack, PObjStart)
  | _ => None
  end.

Definition step (st : pstate) (t : token) : option pstate :=
  let '(stack, m) := st in
  match m with
  | PValue => start_value t stack
  | PArrStart =>
      match t, stack with
      | TRBrack, FArr acc :: rest => deliver (VArr acc) rest
      | TRBrack, _ => None
      | _, _ => start_value t stack
      end
  | PObjStart =>
      match t, stack with
      | TRBrace, FObj acc :: rest => deliver (VObj acc) rest
      | TStr k, FObj acc :: rest => Some (FKey acc k :: rest, PColon)
      | _, _ => None
      end
  | PKey =>
      match t, stack with
      | TStr k, FObj acc :: rest => Some (FKey acc k :: rest, PColon)
      | _, _ => None
      end
  | PColon =>
      match t with
      | TColon => Some (stack, PValue)
      | _ => None
      end
  | PAfter =>
      match t, stack with
      | TComma, FArr _ :: _ => Some (stack, PValue)
      | TRBrack, FArr acc :: rest => deliver (VArr acc) rest
      | TComma, FObj _ :: _ => Some (stack, PKey)
      | TRBrace, FObj acc :: rest => deliver (VObj acc) rest
      | _, _ => None
      end
  | PDone _ => None
  end.

Fixpoint run (st : pstate) (ts : list token) : option pstate :=
  match ts with
  | [] => Some st
  | t :: ts' =>
      match step st t with
      | Some st' => run st' ts'
      | None => None
      end
  end.

(** [JSON.parse(s)]: the value, or a SyntaxError. *)
Definition parse (s : string) : result value :=
  match lex LTop s with
  | Some ts =>
      match run ([], PValue) ts with
      | Some ([], PDone v) => Ok v
      | _ => Throw SyntaxError
      end
  | None => Throw SyntaxError
  end.

(** [JSON.stringify(v, null, 2)]: one property or item per line, two
    spaces deeper at each level; [ind] is the indentation of the line the
    value starts on. *)
Fixpoint stringify_indent (ind : string) (v : value) : option string :=
  let inner := ind ++ "  " in
  let newline := String "010" EmptyString in
  let wrap (open close : string) (parts : list string) : string :=
    match parts with
    | [] => open ++ close
    | _ => open ++ newline ++ inner ++
           join_strings ("," ++ newline ++ inner) parts ++
           newline ++ ind ++ close
    end in
  match v with
  | VArr items =>
      Some (wrap "[" "]"
        ((fix go (l : list value) : list string :=
            match l with
            | [] => []
            | x :: l' =>
                match stringify_indent inner x with
                | Some j => j
                | None => "null"
                end :: go l'
            end) items))
  | VObj fields =>
      Some (wrap "{" "}"
        ((fix go (l : list (string * value)) : list string :=
            match l with
            | [] => []
            | (k, x) :: l' =>
                match stringify_indent inner x with
                | Some j => (quote k ++ ": " ++ j) :: go l'
                | None => go l'
                end
            end) fields))
  | _ => stringify v
  end.

End JSON.

(** ** The service: [src/services/auth.js] *)

Module Auth.
Import JS.

(** [require('../config')]: the fields the service reads. *)
Record config : Type := {
  domain : string;
  keyFile : string;
  keyId : string;
  sessionTtl : Z
}.

(** Modelled from the spec: the configuration module is not among the
    sources; the spec gives the session TTL its default, 36000 seconds. *)
Definition default_sessionTtl : Z := 36000.

(** What a call reads from its surroundings: the configuration, the clock
    ([Date.now()], in milliseconds), the next [crypto.randomUUID()], and
    [crypto.sign(null, data, privateKey)] with the key of the module. *)
Record env : Type := {
  cfg : config;
  Date_now : Z;
  randomUUID : string;
  sign : string -> string
}.

(** A parameter with a default value takes it when the argument is
    [undefined]. *)
Definition default_arg (v d : value) : value :=
  match v with
  | VUndefined => d
  | _ => v
  end.

Section service.
Variable E : env.

(** [getIssuerUrl(requestHost)] *)
Definition getIssuerUrl (requestHost : value) : result string :=
  let fallback := Ok ("https://" ++ domain (cfg E)) in
  if truthy requestHost then
    let! parts := call_split requestHost ":" in
    let host := hd EmptyString parts in
    if includes host (domain (cfg E)) then Ok ("https://" ++ host)
    else fallback
  else fallback.

(** [generateToken(payload)].  [Buffer.from(undefined)] throws a
    TypeError, which is what a payload that does not serialise gives. *)
Definition token_header : value :=
  VObj [("alg", VStr "EdDSA"); ("kid", VStr (keyId (cfg E))); ("typ", VStr "JWT")].

Definition base64url_json (v : value) : result string :=
  match JSON.stringify v with
  | Some j => Ok (Base64url.encode j)
  | None => Throw TypeError
  end.

Definition generateToken (payload : value) : result string :=
  let! header := base64url_json token_header in
  let! body := base64url_json payload in
  let signingInput := header ++ "." ++ body in
  let signature := sign E signingInput in
  Ok (signingInput ++ "." ++ Base64url.encode signature).

Definition DEFAULT_SCOPES : string := "hytale:server hytale:client hytale:editor".

(** [normalizeScopes(scopes, defaultScope = DEFAULT_SCOPES)] *)
Definition normalizeScopes (scopes defaultScope : value) : value :=
  let defaultScope := default_arg defaultScope (VStr DEFAULT_SCOPES) in
  if negb (truthy scopes) then defaultScope
  else match scopes with
       | VArr items => VStr (array_join " " items)
       | _ => scopes
       end.

Definition now_seconds : Z := Date_now E / 1000.

(** The object literal [generateIdentityToken] hands to [generateToken]. *)
Definition identityPayload (uuid name scope entitlements : value) (iss : string)
  : value :=
  VObj [("sub", uuid);
        ("name", name);
        ("username", name);
        ("profile", VObj [("username", name)]);
        ("entitlements", entitlements);
        ("scope", scope);
        ("iat", VNum now_seconds);
        ("exp", VNum (now_seconds + sessionTtl (cfg E)));
        ("iss", VStr iss);
        ("jti", VStr (randomUUID E))].

(** [generateIdentityToken(uuid, name, scopes = null,
    entitlements = ['game.base'], requestHost = null)] *)
Definition generateIdentityToken (uuid name scopes entitlements requestHost : value)
  : result string :=
  let scopes := default_arg scopes VNull in
  let entitlements := default_arg entitlements (VArr [VStr "game.base"]) in
  let requestHost := default_arg requestHost VNull in
  let scope := normalizeScopes scopes VUndefined in
  let! iss := getIssuerUrl requestHost in
  generateToken (identityPayload uuid name scope entitlements iss).

Definition sessionPayload (uuid : value) (iss : string) : value :=
  VObj [("sub", uuid);
        ("scope", VStr "hytale:server");
        ("iat", VNum now_seconds);
        ("exp", VNum (now_seconds + sessionTtl (cfg E)));
        ("iss", VStr iss);
        ("jti", VStr (randomUUID E))].

(** [generateSessionToken(uuid, requestHost = null)] *)
Definition generateSessionToken (uuid requestHost : value) : result string :=
  let requestHost := default_arg requestHost VNull in
  let! iss := getIssuerUrl requestHost in
  generateToken (sessionPayload uuid iss).

Definition grantPayload (uuid name audience scope : value) (iss : string) : value :=
  VObj [("sub", uuid);
        ("name", name);
        ("username", name);
        ("aud", audience);
        ("scope", scope);
        ("iat", VNum now_seconds);
        ("exp", VNum (now_seconds + sessionTtl (cfg E)));
        ("iss", VStr iss);
        ("jti", VStr (randomUUID E))].

(** [generateAuthorizationGrant(uuid, name, audience, scopes = null,
    requestHost = null)] *)
Definition generateAuthorizationGrant (uuid name audience scopes requestHost : value)
  : result string :=
  let scopes := default_arg scopes VNull in
  let requestHost := default_arg requestHost VNull in
  let scope := normalizeScopes scopes VUndefined in
  let! iss := getIssuerUrl requestHost in
  generateToken (grantPayload uuid name audience scope iss).

(** The [tokenPayload] of [generateAccessToken], after the optional
    [cnf] assignment. *)
Definition accessPayload (uuid name audience certFingerprint scope : value)
  (iss : string) : value :=
  let tokenPayload :=
    [("sub", uuid);
     ("name", name);
     ("username", name);
     ("aud", audience);
     ("entitlements", VArr [VStr "game.base"]);
     ("scope", scope);
     ("iat", VNum now_seconds);
     ("exp", VNum (now_seconds + sessionTtl (cfg E)));
     ("iss", VStr iss);
     ("jti", VStr (randomUUID E))] in
  if truthy certFingerprint then
    VObj (obj_set tokenPayload "cnf" (VObj [("x5t#S256", certFingerprint)]))
  else VObj tokenPayload.

(** [generateAccessToken(uuid, name, audience, certFingerprint = null,
    scopes = null, requestHost = null)] *)
Definition generateAccessToken
  (uuid name audience certFingerprint scopes requestHost : value) : result string :=
  let certFingerprint := default_arg certFingerprint VNull in
  let scopes := default_arg scopes VNull in
  let requestHost := default_arg requestHost VNull in
  let scope := normalizeScopes scopes VUndefined in
  let! iss := getIssuerUrl requestHost in
  generateToken (accessPayload uuid name audience certFingerprint scope iss).

End service.

(** [JSON.parse(Buffer.from(segment, 'base64url').toString())] *)
Definition decode_segment (segment : string) : result value :=
  JSON.parse (Base64url.decode segment).

(** [a || b] *)
Definition js_or (a : value) (b : result value) : result value :=
  if truthy a then Ok a else b.

(** [parseToken(tokenString)].  The body of the [try] either returns a
    value ([Some]) or runs to its end ([None]); the [catch] is empty, and
    both fall to the final [return null]. *)
Definition parseToken (tokenString : value) : result value :=
  let! returned :=
    try_catch
      (let! parts := call_split tokenString "." in
       if (2 <=? length parts)%nat then
         let! payload := decode_segment (nth 1 parts EmptyString) in
         let! uuid := get payload "sub" in
         let! username := get payload "username" in
         let! name := js_or username (get payload "name") in
         let! scope := get payload "scope" in
         let! aud := get payload "aud" in
         Ok (Some (VObj [("uuid", uuid); ("name", name);
                         ("scope", scope); ("aud", aud)]))
       else Ok None)
      (fun _ => Ok None) in
  match returned with
  | Some v => Ok v
  | None => Ok VNull
  end.

(** [extractServerAudienceFromHeaders(headers)] *)
Definition extractServerAudienceFromHeaders (headers : value) : result value :=
  let! no_bearer :=
    if negb (truthy headers) then Ok true
    else let! authorization := get headers "authorization" in
         Ok (negb (truthy authorization)) in
  if (no_bearer : bool) then Ok VNull
  else
    let! returned :=
      try_catch
        (let! authorization := get headers "authorization" in
         let! token := call_replace authorization "Bearer " "" in
         let! parts := call_split (VStr token) "." in
         if (2 <=? length parts)%nat then
           let! payload := decode_segment (nth 1 parts EmptyString) in
           let! aud := get payload "aud" in
           if truthy aud then Ok (Some aud)
           else
             let! scope := get payload "scope" in
             if strict_eq_str scope "hytale:server" then
               let! sub := get payload "sub" in
               if truthy sub then Ok (Some sub) else Ok None
             else Ok None
         else Ok None)
        (fun _ => Ok None) in
    match returned with
    | Some v => Ok v
    | None => Ok VNull
    end.

End Auth.

(** ** The key store: [loadOrGenerateKeys] and the file system it uses *)

Module KeyStore.
Import JS Auth.

(** *** Node's [fs] and [path], as far as the key store uses them *)

Record FS : Type := {
  files : gmap string string;
  dirs : gset string;
  read_only : bool
}.

(** The calls made on the file system, in order.  [OpRename] is
    [fs.renameSync], the call a write-then-rename would make. *)
Inductive fs_op : Type :=
| OpExists (p : string)
| OpRead (p : string)
| OpMkdir (p : string)
| OpWrite (p : string) (data : string)
| OpRename (from to : string).

Definition existsSync (fs : FS) (p : string) : bool :=
  bool_decide (is_Some (files fs !! p)) || bool_decide (p ∈ dirs fs).

Definition readFileSync (fs : FS) (p : string) : result string :=
  match files fs !! p with
  | Some data => Ok data
  | None =>
      if bool_decide (p ∈ dirs fs) then Throw (SystemError "EISDIR")
      else Throw (SystemError "ENOENT")
  end.

(** [path.dirname(p)] of the POSIX flavour. *)
Fixpoint drop_while (f : ascii -> bool) (l : list ascii) : list ascii :=
  match l with
  | [] => []
  | c :: l' => if f c then drop_while f l' else l
  end.

Definition is_slash (c : ascii) : bool := Ascii.eqb c "/".

Definition dirname (p : string) : string :=
  match p with
  | EmptyString => "."
  | String c0 tl =>
      let hasRoot := is_slash c0 in
      let back := rev (list_ascii_of_string tl) in
      let name_on := drop_while is_slash back in
      match drop_while (fun c => negb (is_slash c)) name_on with
      | [] => if hasRoot then "/" else "."
      | _ :: before =>
          match before with
          | [] => if hasRoot then "//" else String c0 EmptyString
          | _ => String c0 (string_of_list_ascii (rev before))
          end
      end
  end.

(** [fs.mkdirSync(d, { recursive: true })].  The directories created on
    the way to [d] are not observed by the key store and are left out. *)
Definition mkdirSync (fs : FS) (d : string) : result FS :=
  if read_only fs then Throw (SystemError "EROFS")
  else if bool_decide (is_Some (files fs !! d)) then Throw (SystemError "EEXIST")
  else Ok {| files := files fs; dirs := {[d]} ∪ dirs fs; read_only := read_only fs |}.

(** [fs.writeFileSync(p, data)]: the file is created or replaced. *)
Definition writeFileSync (fs : FS) (p data : string) : result FS :=
  if read_only fs then Throw (SystemError "EROFS")
  else if bool_decide (p ∈ dirs fs) then Throw (SystemError "EISDIR")
  else if negb (bool_decide (dirname p ∈ dirs fs)) then Throw (SystemError "ENOENT")
  else Ok {| files := <[p := data]> (files fs); dirs := dirs fs;
             read_only := read_only fs |}.

Fixpoint take_chars (n : nat) (s : string) : string :=
  match n, s with
  | S n', String c s' => String c (take_chars n' s')
  | _, _ => EmptyString
  end.

(** What the disk holds when the process dies inside
    [writeFileSync(p, data)] after [n] bytes: the file was opened for
    writing, which truncates it, and has the first [n] bytes. *)
Definition interrupted_write (fs : FS) (p data : string) (n : nat) : FS :=
  {| files := <[p := take_chars n data]> (files fs); dirs := dirs fs;
     read_only := read_only fs |}.

(** *** [crypto], as far as the key store uses it *)

Record crypto : Type := {
  private_key : Type;
  public_key : Type;
  createPrivateKey : string -> result private_key;
  createPublicKey : string -> result public_key;
  export_pkcs8 : private_key -> string;
  export_spki : public_key -> string;
  export_jwk : public_key -> value
}.

(** [Buffer.from(v, 'base64')]: a string is decoded, an array gives its
    items as bytes, anything else is a TypeError. *)
Definition byte_of_value (v : value) : ascii :=
  match v with
  | VNum z => ascii_of_nat (Z.to_nat (z mod 256))
  | _ => "000"%char
  end.

Definition buffer_from_base64 (v : value) : result string :=
  match v with
  | VStr s => Ok (Base64url.decode s)
  | VArr items => Ok (Base64url.string_of_chars (map byte_of_value items))
  | _ => Throw TypeError
  end.

Definition error_message (e : error) : string :=
  match e with
  | TypeError => "TypeError"
  | SyntaxError => "SyntaxError"
  | SystemError code => code
  end.

Section keystore.
Variable C : crypto.
Variable K : config.

(** [let privateKey, publicKey, publicKeyJwk;] *)
Record keys : Type := {
  privateKey : option (private_key C);
  publicKey : option (public_key C);
  publicKeyJwk : option value
}.

Record world : Type := {
  w_fs : FS;
  w_keys : keys;
  w_console : list string;
  w_trace : list fs_op
}.

(** Statements run in a world and may throw; what was done before a throw
    stays done. *)
Definition M (A : Type) : Type := world -> result A * world.

Definition ret {A : Type} (a : A) : M A := fun w => (Ok a, w).

Definition bindM {A B : Type} (m : M A) (k : A -> M B) : M B :=
  fun w =>
    match m w with
    | (Ok a, w') => k a w'
    | (Throw e, w') => (Throw e, w')
    end.

Notation "'do!' x ':=' m 'in' k" := (bindM m (fun x => k))
  (at level 10, x name, m at level 100, k at level 200).

Definition lift {A : Type} (r : result A) : M A := fun w => (r, w).

Definition try_catchM {A : Type} (body : M A) (handler : error -> M A) : M A :=
  fun w =>
    match body w with
    | (Ok a, w') => (Ok a, w')
    | (Throw e, w') => handler e w'
    end.

Definition log (line : string) : M unit :=
  fun w => (Ok tt, {| w_fs := w_fs w; w_keys := w_keys w;
                      w_console := (w_console w ++ [line])%list;
                      w_trace := w_trace w |}).

Definition traced (op : fs_op) : M unit :=
  fun w => (Ok tt, {| w_fs := w_fs w; w_keys := w_keys w;
                      w_console := w_console w;
                      w_trace := (w_trace w ++ [op])%list |}).

Definition fs_exists (p : string) : M bool :=
  do! _ := traced (OpExists p) in
  fun w => (Ok (existsSync (w_fs w) p), w).

Definition fs_read (p : string) : M string :=
  do! _ := traced (OpRead p) in
  fun w => (readFileSync (w_fs w) p, w).

Definition set_fs (r : result FS) : M unit :=
  fun w =>
    match r with
    | Ok fs' => (Ok tt, {| w_fs := fs'; w_keys := w_keys w;
                           w_console := w_console w; w_trace := w_trace w |})
    | Throw e => (Throw e, w)
    end.

Definition fs_mkdir (d : string) : M unit :=
  do! _ := traced (OpMkdir d) in
  fun w => set_fs (mkdirSync (w_fs w) d) w.

Definition fs_write (p data : string) : M unit :=
  do! _ := traced (OpWrite p data) in
  fun w => set_fs (writeFileSync (w_fs w) p data) w.

Definition set_keys (f : keys -> keys) : M unit :=
  fun w => (Ok tt, {| w_fs := w_fs w; w_keys := f (w_keys w);
                      w_console := w_console w; w_trace := w_trace w |}).

Definition set_privateKey (k : private_key C) : M unit :=
  set_keys (fun ks => {| privateKey := Some k; publicKey := publicKey ks;
                         publicKeyJwk := publicKeyJwk ks |}).

Definition set_publicKey (k : public_key C) : M unit :=
  set_keys (fun ks => {| privateKey := privateKey ks; publicKey := Some k;
                         publicKeyJwk := publicKeyJwk ks |}).

Definition set_publicKeyJwk (j : value) : M unit :=
  set_keys (fun ks => {| privateKey := privateKey ks; publicKey := publicKey ks;
                         publicKeyJwk := Some j |}).

(** The first [try] block: [true] when it reached its [return]. *)
Definition load_existing : M bool :=
  do! found := fs_exists (keyFile K) in
  if (found : bool) then
    do! text := fs_read (keyFile K) in
    do! keyData := lift (JSON.parse text) in
    do! sk_text := lift (get keyData "privateKey") in
    do! sk_der := lift (buffer_from_base64 sk_text) in
    do! sk := lift (createPrivateKey C sk_der) in
    do! _ := set_privateKey sk in
    do! pk_text := lift (get keyData "publicKey") in
    do! pk_der := lift (buffer_from_base64 pk_text) in
    do! pk := lift (createPublicKey C pk_der) in
    do! _ := set_publicKey pk in
    do! _ := set_publicKeyJwk (export_jwk C pk) in
    do! _ := log "Loaded existing Ed25519 key pair from disk" in
    ret true
  else ret false.

(** The record written to the key file. *)
Definition key_record (sk : private_key C) (pk : public_key C) (createdAt : string)
  : value :=
  VObj [("privateKey", VStr (Base64url.encode_std (export_pkcs8 C sk)));
        ("publicKey", VStr (Base64url.encode_std (export_spki C pk)));
        ("createdAt", VStr createdAt)].

Definition key_file_text (sk : private_key C) (pk : public_key C) (createdAt : string)
  : string :=
  match JSON.stringify_indent EmptyString (key_record sk pk createdAt) with
  | Some text => text
  | None => EmptyString
  end.

(** The second [try] block. *)
Definition save_keys (sk : private_key C) (pk : public_key C) (createdAt : string)
  : M unit :=
  let dir := dirname (keyFile K) in
  do! dir_exists := fs_exists dir in
  do! _ := if (dir_exists : bool) then ret tt else fs_mkdir dir in
  do! _ := fs_write (keyFile K) (key_file_text sk pk createdAt) in
  log "Generated and saved new Ed25519 key pair".

(** The two [catch] blocks. *)
Definition load_failed (e : error) : M bool :=
  do! _ := log ("Could not load existing keys: " ++ error_message e) in
  ret false.

Definition save_failed (e : error) : M unit :=
  do! _ := log ("Could not save keys: " ++ error_message e) in
  log "Generated Ed25519 key pair (not persisted)".

(** [loadOrGenerateKeys()].  [keyPair] is what
    [crypto.generateKeyPairSync('ed25519')] returns when it is called, and
    [createdAt] what [new Date().toISOString()] returns. *)
Definition loadOrGenerateKeys
  (keyPair : private_key C * public_key C) (createdAt : string) : M unit :=
  do! loaded := try_catchM load_existing load_failed in
  if (loaded : bool) then ret tt
  else
    do! _ := set_privateKey (fst keyPair) in
    do! _ := set_publicKey (snd keyPair) in
    do! _ := set_publicKeyJwk (export_jwk C (snd keyPair)) in
    try_catchM (save_keys (fst keyPair) (snd keyPair) createdAt) save_failed.

End keystore.

(** A stand-in provider for running the key store on examples: a key is
    its DER text, and any non-empty text is accepted as a key. *)
Definition example_crypto : crypto :=
  {| private_key := string;
     public_key := string;
     createPrivateKey := fun der =>
       if String.eqb der EmptyString then Throw TypeError else Ok der;
     createPublicKey := fun der =>
       if String.eqb der EmptyString then Throw TypeError else Ok der;
     export_pkcs8 := fun k => k;
     export_spki := fun k => k;
     export_jwk := fun k =>
       VObj [("crv", VStr "Ed25519"); ("x", VStr (Base64url.encode k));
             ("kty", VStr "OKP")] |}.

End KeyStore.

(** ** JSON values: what [JSON.stringify] prints without loss *)

Module JSONValue.
Import JS JSON.

(** A number literal as [VDec] keeps it: a literal of the JSON grammar
    with a fraction or an exponent. *)
Definition dec_literal (lit : string) : bool :=
  all_chars is_numchar lit &&
  match lit with
  | String c _ => is_digit c || Ascii.eqb c "-"
  | EmptyString => false
  end &&
  match num_token lit with
  | Some (TDec l) => String.eqb l lit
  | _ => false
  end.

Fixpoint distinct (l : list string) : bool :=
  match l with
  | [] => true
  | k :: l' => negb (mem k l') && distinct l'
  end.

(** The values JSON represents: no [undefined] and no function anywhere,
    and, as in every JavaScript object, no key twice. *)
Fixpoint json_value (v : value) : bool :=
  match v with
  | VUndefined | VFun _ => false
  | VNull | VBool _ | VNum _ | VStr _ => true
  | VDec lit => dec_literal lit
  | VArr items =>
      (fix go (l : list value) : bool :=
         match l with
         | [] => true
         | x :: l' => json_value x && go l'
         end) items
  | VObj fields =>
      distinct (map fst fields) &&
      (fix go (l : list (string * value)) : bool :=
         match l with
         | [] => true
         | (_, x) :: l' => json_value x && go l'
         end) fields
  end.

(** What [JSON.stringify] leaves out: [undefined] and functions. *)
Definition droppable (v : value) : bool :=
  match v with
  | VUndefined | VFun _ => true
  | _ => false
  end.

(** The value a text printed by [JSON.stringify] stands for: inside an
    array what is left out becomes [null], inside an object its property
    is gone. *)
Fixpoint sanitize (v : value) : value :=
  match v with
  | VArr items =>
      VArr ((fix go (l : list value) : list value :=
               match l with
               | [] => []
               | x :: l' => (if droppable x then VNull else sanitize x) :: go l'
               end) items)
  | VObj fields =>
      VObj ((fix go (l : list (string * value)) : list (string * value) :=
               match l with
               | [] => []
               | (k, x) :: l' =>
                   if droppable x then go l' else (k, sanitize x) :: go l'
               end) fields)
  | _ => v
  end.

Definition sanitize_item (x : value) : value :=
  if droppable x then VNull else sanitize x.

Fixpoint sanitize_fields (l : list (string * value)) : list (string * value) :=
  match l with
  | [] => []
  | (k, x) :: l' =>
      if droppable x then sanitize_fields l' else (k, sanitize x) :: sanitize_fields l'
  end.

(** The values of the program: a number literal kept as text is a literal
    of the grammar, and no object has a key twice.  Every value JavaScript
    can build is of this kind. *)
Fixpoint well_formed (v : value) : bool :=
  match v with
  | VDec lit => dec_literal lit
  | VArr items =>
      (fix go (l : list value) : bool :=
         match l with
         | [] => true
         | x :: l' => well_formed x && go l'
         end) items
  | VObj fields =>
      distinct (map fst fields) &&
      (fix go (l : list (string * value)) : bool :=
         match l with
         | [] => true
         | (_, x) :: l' => well_formed x && go l'
         end) fields
  | _ => true
  end.

(** The tokens of the text [JSON.stringify] prints for a JSON value. *)
Fixpoint tokens_of (v : value) : list token :=
  match v with
  | VUndefined | VFun _ => []
  | VNull => [TNull]
  | VBool true => [TTrue]
  | VBool false => [TFalse]
  | VNum z => [TNum z]
  | VDec lit => [TDec lit]
  | VStr s => [TStr s]
  | VArr items =>
      TLBrack ::
      (match items with
       | [] => []
       | x :: l =>
           tokens_of x ++
           (fix go (l : list value) : list token :=
              match l with
              | [] => []
              | y :: l' => TComma :: tokens_of y ++ go l'
              end) l
       end ++ [TRBrack])%list
  | VObj fields =>
      TLBrace ::
      (match fields with
       | [] => []
       | (k, x) :: l =>
           TStr k :: TColon :: tokens_of x ++
           (fix go (l : list (string * value)) : list token :=
              match l with
              | [] => []
              | (k', y) :: l' => TComma :: TStr k' :: TColon :: tokens_of y ++ go l'
              end) l
       end ++ [TRBrace])%list
  end.

(** What may follow a number or a word in a JSON text. *)
Definition delim (rest : string) : bool :=
  match rest with
  | EmptyString => true
  | String c _ => negb (is_numchar c) && negb (is_lower c)
  end.

(** The tokens [ts], then what [r] gives. *)
Definition prepend_all (ts : list token) (r : option (list token)) : option (list token) :=
  match r with
  | Some ts' => Some (ts ++ ts')%list
  | None => None
  end.

(** The text of an array item: [null] stands for what does not print. *)
Definition item_text (x : value) : string :=
  match stringify x with
  | Some j => j
  | None => "null"
  end.

(** The text of a property, if it prints. *)
Definition field_text (kv : string * value) : list string :=
  match stringify (snd kv) with
  | Some j => [quote (fst kv) ++ ":" ++ j]
  | None => []
  end.

(** The items after the first, each behind its comma. *)
Fixpoint tail_text (l : list string) : string :=
  match l with
  | [] => EmptyString
  | y :: l' => "," ++ y ++ tail_text l'
  end.

Fixpoint arr_tail_tokens (l : list value) : list token :=
  match l with
  | [] => []
  | y :: l' => TComma :: tokens_of y ++ arr_tail_tokens l'
  end.

Fixpoint obj_tail_tokens (l : list (string * value)) : list token :=
  match l with
  | [] => []
  | (k, y) :: l' => TComma :: TStr k :: TColon :: tokens_of y ++ obj_tail_tokens l'
  end.

(** Running on from a state that may have failed. *)
Definition continue (st : option pstate) (ts : list token) : option pstate :=
  match st with
  | Some st' => run st' ts
  | None => None
  end.

End JSONValue.

(** ** Reading the claims of the specification *)

Module Spec.
Import JS JSON Auth KeyStore.

(** The claims a compact token carries: its second part, decoded. *)
Definition claims_of_token (t : string) : result value :=
  decode_segment (nth 1 (split "." t) EmptyString).

(** A claim of an object payload: [undefined] when the key is missing. *)
Definition claim (fields : list (string * value)) (k : string) : value :=
  match assoc k fields with
  | Some x => x
  | None => VUndefined
  end.

(** A host header, present or not. *)
Definition host_value (h : option string) : value :=
  match h with
  | Some s => VStr s
  | None => VUndefined
  end.

(** [host] is [h] with any port stripped: what stands before the first
    colon. *)
Definition without_port (h host : string) : Prop :=
  all_chars (fun c => negb (Ascii.eqb c ":")) host = true /\
  (h = host \/ exists port, h = host ++ ":" ++ port).

(** [sub] occurs in [s]. *)
Definition contains (s sub : string) : Prop :=
  exists a b, s = a ++ sub ++ b.

(** An optional argument: left out, or a JSON value. *)
Definition json_or_absent (v : value) : bool :=
  match v with
  | VUndefined => true
  | _ => JSONValue.json_value v
  end.

(** The default scope string the specification names. *)
Definition spec_default_scopes : string := "hytale:server hytale:client".

(** The decoding rule of the specification: exactly three parts, and a
    header whose JSON has [alg] equal to [EdDSA]. *)
Definition spec_accepts (t : string) : bool :=
  match split "." t with
  | [h; _; _] =>
      match decode_segment h with
      | Ok header =>
          match get header "alg" with
          | Ok alg => strict_eq_str alg "EdDSA"
          | Throw _ => false
          end
      | Throw _ => false
      end
  | _ => false
  end.

(** What [parseToken] returns for a payload it could read. *)
Definition parsed_claims (fields : list (string * value)) : value :=
  VObj [("uuid", claim fields "sub");
        ("name", if truthy (claim fields "username") then claim fields "username"
                 else claim fields "name");
        ("scope", claim fields "scope");
        ("aud", claim fields "aud")].

(** The audience rule as the specification words it: [aud] when the
    payload has it, else [sub] when the scope is exactly [hytale:server],
    else nothing. *)
Definition spec_audience (fields : list (string * value)) : value :=
  match assoc "aud" fields with
  | Some aud => aud
  | None =>
      if strict_eq_str (claim fields "scope") "hytale:server"
      then match assoc "sub" fields with
           | Some sub => sub
           | None => VNull
           end
      else VNull
  end.

(** The audience rule of the code: a claim counts when it is truthy. *)
Definition bearer_audience (fields : list (string * value)) : value :=
  if truthy (claim fields "aud") then claim fields "aud"
  else if strict_eq_str (claim fields "scope") "hytale:server"
          && truthy (claim fields "sub")
       then claim fields "sub"
       else VNull.

(** Write-then-rename: the calls end with a write to a temporary path and
    a rename of it onto the target, and the target is never written. *)
Definition write_then_rename (target : string) (trace : list fs_op) : Prop :=
  (exists before tmp data,
     tmp <> target /\
     trace = (before ++ [OpWrite tmp data; OpRename tmp target])%list) /\
  (forall data, ~ In (OpWrite target data) trace).

(** A stand-in for the surroundings of a call, for running examples: the
    signature is a fixed text. *)
Definition example_config : config :=
  {| domain := "sanasol.ws"; keyFile := "/app/data/jwt_keys.json";
     keyId := "key-1"; sessionTtl := default_sessionTtl |}.

Definition example_env : env :=
  {| cfg := example_config;
     Date_now := 1700000000123;
     randomUUID := "3f2b8c1e-0d4a-4c6e-9b1a-7e5d2c9f0a11";
     sign := fun _ => "signature-bytes" |}.

(** The keys in memory after a keypair was generated. *)
Definition generated_keys (C : crypto) (keyPair : private_key C * public_key C)
  : keys C :=
  {| privateKey := Some (fst keyPair);
     publicKey := Some (snd keyPair);
     publicKeyJwk := Some (export_jwk C (snd keyPair)) |}.

(** A disk on which the key file can be written: writable, the path is
    free for a file, and its directory exists or can be made. *)
Definition can_persist (K : config) (fs : FS) : bool :=
  negb (read_only fs) &&
  negb (bool_decide (keyFile K ∈ dirs fs)) &&
  negb (String.eqb (dirname (keyFile K)) (keyFile K)) &&
  (bool_decide (dirname (keyFile K) ∈ dirs fs) ||
   bool_decide (files fs !! dirname (keyFile K) = None)).

(** The calls that only look at the disk. *)
Definition is_probe (op : fs_op) : bool :=
  match op with
  | OpExists _ | OpRead _ => true
  | _ => false
  end.

Definition is_rename (op : fs_op) : bool :=
  match op with
  | OpRename _ _ => true
  | _ => false
  end.

(** A computation that leaves the disk as it is and only probes it. *)
Definition quiet {C : crypto} {A : Type} (m : M C A) : Prop :=
  forall w,
    w_fs C (snd (m w)) = w_fs C w /\
    exists ops, w_trace C (snd (m w)) = (w_trace C w ++ ops)%list /\
                forallb is_probe ops = true.

Definition no_keys (C : crypto) : keys C :=
  {| privateKey := None; publicKey := None; publicKeyJwk := None |}.

(** A first start: the data directory exists, the key file does not. *)
Definition fresh_disk : FS :=
  {| files := ∅; dirs := {["/"; "/app"; "/app/data"]}; read_only := false |}.

Definition boot (C : crypto) (fs : FS) : world C :=
  {| w_fs := fs; w_keys := no_keys C; w_console := []; w_trace := [] |}.

(** A freshly issued claim set: [exp - iat] is the time to live. *)
Definition fresh_lifetime (ttl : Z) (c : value) : Prop :=
  exists iat exp,
    get c "iat" = Ok (VNum iat) /\ get c "exp" = Ok (VNum exp) /\ exp - iat = ttl.

(** The scope claim the builders embed, the entitlements and the
    fingerprint they use, from the arguments of a call. *)
Definition scope_of (scopes : value) : value :=
  normalizeScopes (default_arg scopes VNull) VUndefined.

Definition entitlements_of (entitlements : value) : value :=
  default_arg entitlements (VArr [VStr "game.base"]).

Definition fingerprint_of (certFingerprint : value) : value :=
  default_arg certFingerprint VNull.

(** A token of two parts, with a header that names no algorithm. *)
Definition two_part_token : string :=
  Eval vm_compute in
    (Base64url.encode "{}" ++ "." ++
     Base64url.encode
       (JSONValue.item_text
          (VObj [("sub", VStr "u1"); ("name", VStr "Alice"); ("aud", VStr "s-42")]))).

(** A claim set whose username is the empty string. *)
Definition empty_username : list (string * value) :=
  [("sub", VStr "u1"); ("username", VStr EmptyString); ("name", VStr "Alice")].

(** A server session payload whose audience is the empty string, and
    request headers that carry it as a bearer token. *)
Definition empty_aud : list (string * value) :=
  [("aud", VStr EmptyString); ("scope", VStr "hytale:server"); ("sub", VStr "srv-1")].

Definition empty_aud_token : string :=
  Eval vm_compute in
    (Base64url.encode "{}" ++ "." ++
     Base64url.encode (JSONValue.item_text (VObj empty_aud)) ++ ".sig").

Definition empty_aud_headers : value :=
  VObj [("authorization", VStr ("Bearer " ++ empty_aud_token))].

(** A first start, and a start after a crash inside the write of the key
    file, forty bytes in. *)
Definition first_start : result unit * world example_crypto :=
  loadOrGenerateKeys example_crypto example_config
    ("private-key-der", "public-key-der") "2026-01-01T00:00:00.000Z"
    (boot example_crypto fresh_disk).

Definition example_key_text : string :=
  key_file_text example_crypto "private-key-der" "public-key-der"
    "2026-01-01T00:00:00.000Z".

Definition crashed_disk : FS :=
  interrupted_write fresh_disk (keyFile example_config) example_key_text 40.

Definition second_start : result unit * world example_crypto :=
  loadOrGenerateKeys example_crypto example_config
    ("another-private-key", "another-public-key") "2026-01-02T00:00:00.000Z"
    (boot example_crypto crashed_disk).

End Spec.

(** ** The public key of the module: [getPublicKeyJwk] *)

Module Jwks.
Import JS Auth KeyStore.

(** [getPublicKeyJwk()]: the module variable [publicKeyJwk], which is
    [undefined] until [loadOrGenerateKeys] has assigned it. *)
Definition getPublicKeyJwk {C : crypto} (ks : keys C) : value :=
  match publicKeyJwk C ks with
  | Some jwk => jwk
  | None => VUndefined
  end.

End Jwks.

(** ** A caller of the token reader: [handleTelemetry] of
    [src/routes/telemetry.js] *)

Module Telemetry.
Import JS Auth.

(** The calls the handler makes on the services around it, with their
    arguments: [metrics.incCounter], [metrics.observeHistogram],
    [metrics.addToCounter], the functions of [storage], and [sendJson].
    An argument that is left out is [undefined]; the response object
    handed to [sendJson] is not inspected and is left out. *)
Inductive call : Type :=
| IncCounter (name : string) (labels : value)
| ObserveHistogram (name : string) (observed : value)
| AddToCounter (name : string) (amount : value)
| TrackActivePlayer (uuid server : value)
| UpdatePlayerState (uuid state : value)
| RemovePlayerFromAllServers (uuid : value)
| UpdatePlayerHardware (uuid hardware : value)
| RecordSessionEnd (uuid summary : value)
| RecordEvent (uuid event : value)
| SendJson (status : Z) (data : value).

Definition nullish (v : value) : bool :=
  match v with
  | VUndefined | VNull => true
  | _ => false
  end.

(** [o?.k] *)
Definition opt_get (o : value) (k : string) : result value :=
  if nullish o then Ok VUndefined else get o k.

(** [o.a?.b], [o.a?.b?.c] and [o.a.b] *)
Definition opt_path (o : value) (a b : string) : result value :=
  let! x := get o a in opt_get x b.

Definition opt_path3 (o : value) (a b c : string) : result value :=
  let! x := get o a in
  let! y := opt_get x b in
  opt_get y c.

Definition path (o : value) (a b : string) : result value :=
  let! x := get o a in get x b.

(** [a || b], with a constant on the right. *)
Definition or_else (a b : value) : value :=
  if truthy a then a else b.

(** [c ? 'true' : 'false'] *)
Definition true_or_false (c : value) : value :=
  if truthy c then VStr "true" else VStr "false".

(** [a === false] *)
Definition strict_eq_false (a : value) : bool :=
  match a with
  | VBool false => true
  | _ => false
  end.

(** An object literal: the property values are evaluated in order. *)
Fixpoint literal_fields (l : list (string * result value))
  : result (list (string * value)) :=
  match l with
  | [] => Ok []
  | (k, r) :: l' =>
      let! v := r in
      let! fields := literal_fields l' in
      Ok ((k, v) :: fields)
  end.

Definition literal (l : list (string * result value)) : result value :=
  let! fields := literal_fields l in Ok (VObj fields).

(** The first lines of the handler: the player a request speaks for,
    read from the bearer token without any check of its signature. *)
Definition playerUuid_of (headers : value) : result value :=
  if truthy headers then
    let! authorization := get headers "authorization" in
    if truthy authorization then
      let! token := call_replace authorization "Bearer " "" in
      let! tokenData := parseToken (VStr token) in
      if truthy tokenData then
        let! uuid := get tokenData "uuid" in
        if truthy uuid then Ok uuid else Ok VNull
      else Ok VNull
    else Ok VNull
  else Ok VNull.

(** The object handed to [storage.updatePlayerState]. *)
Definition playerState (body : value) : result value :=
  literal
    [("current_state", get body "current_state");
     ("activity_state", get body "activity_state");
     ("game_mode", opt_path body "game" "game_mode");
     ("fps", opt_path body "performance" "fps_avg");
     ("mean_frame_duration_ms", opt_path body "performance" "mean_frame_duration_ms");
     ("frame_time_p99_ms", opt_path body "performance" "frame_time_p99_ms");
     ("draw_calls", opt_path body "performance" "draw_calls");
     ("triangles", opt_path body "performance" "triangles");
     ("latency", opt_path body "network" "latency_ms");
     ("connected", opt_path body "network" "connected");
     ("bytes_sent_per_sec", opt_path body "network" "sent_bytes_per_second");
     ("bytes_recv_per_sec", opt_path body "network" "received_bytes_per_second");
     ("memory_mb", opt_path body "memory" "working_set_mb");
     ("private_memory_mb", opt_path body "memory" "private_memory_mb");
     ("gc_collections", opt_path body "memory" "gc_gen0_collections");
     ("entity_count", opt_path body "game" "entity_count");
     ("loaded_chunks", opt_path body "game" "loaded_chunks");
     ("view_distance", opt_path body "game" "view_distance_effective");
     ("session_duration_seconds", get body "session_duration_seconds");
     ("session_id", get body "session_id")].

(** [body.display ? `${width}x${height}` : null] *)
Definition resolution (body : value) : result value :=
  let! display := get body "display" in
  if truthy display then
    let! width := path body "display" "resolution_width" in
    let! height := path body "display" "resolution_height" in
    Ok (VStr (to_string width ++ "x" ++ to_string height))
  else Ok VNull.

(** The object handed to [storage.updatePlayerHardware]. *)
Definition playerHardware (body language : value) : result value :=
  literal
    [("os", opt_path body "platform" "os");
     ("os_version", opt_path body "platform" "os_version");
     ("architecture", opt_path body "platform" "architecture");
     ("cpu_cores", opt_path body "hardware" "cpu_cores");
     ("system_memory_mb", opt_path body "hardware" "system_memory_mb");
     ("gpu_vendor", opt_path3 body "hardware" "gpu" "vendor");
     ("gpu_renderer", opt_path3 body "hardware" "gpu" "renderer");
     ("gpu_vram_mb", opt_path3 body "hardware" "gpu" "vram_available_mb");
     ("is_low_end", opt_path3 body "hardware" "gpu" "is_low_end");
     ("resolution", resolution body);
     ("refresh_rate", opt_path body "display" "refresh_rate_hz");
     ("display_mode", opt_path body "display" "display_mode");
     ("client_version", opt_path body "client" "version");
     ("client_revision", opt_path body "client" "revision_id");
     ("language", Ok language);
     ("settings",
      literal
        [("vsync", opt_path body "settings" "vsync");
         ("fps_limit", opt_path body "settings" "fps_limit");
         ("view_distance", opt_path body "settings" "view_distance");
         ("fov", opt_path body "settings" "field_of_view");
         ("render_scale", opt_path body "settings" "render_scale");
         ("language", Ok language)]);
     ("machine_id_hash", opt_path body "hardware" "machine_id_hash")].

(** The object handed to [storage.recordSessionEnd]. *)
Definition sessionEnd (body sessionSummary performanceSummary networkSummary : value)
  : result value :=
  literal
    [("total_duration_seconds", get sessionSummary "total_duration_seconds");
     ("final_state", get sessionSummary "final_state");
     ("exit_reason", get sessionSummary "exit_reason");
     ("was_in_game", get sessionSummary "was_in_game");
     ("total_in_game_seconds", get sessionSummary "total_in_game_seconds");
     ("avg_fps", get performanceSummary "avg_fps");
     ("min_fps", get performanceSummary "min_fps");
     ("max_fps", get performanceSummary "max_fps");
     ("total_frames", get performanceSummary "total_frames");
     ("total_gc_collections", get performanceSummary "total_gc_collections");
     ("total_sent_mb", get networkSummary "total_sent_mb");
     ("total_received_mb", get networkSummary "total_received_mb");
     ("disconnect_count", get networkSummary "disconnect_count");
     ("session_id", get body "session_id");
     ("timestamp", get body "timestamp")].

(** The object handed to [storage.recordEvent]. *)
Definition eventRecord (body eventName eventData : value) : result value :=
  literal
    [("event_name", Ok eventName);
     ("event_data", Ok eventData);
     ("session_id", get body "session_id");
     ("timestamp", get body "timestamp");
     ("sequence", get body "sequence")].

Section handler.

(** Whether a call on a service returns or throws.  An awaited promise
    that is rejected throws at the [await].  The outcome may depend on the
    calls made before. *)
Variable outcome : list call -> call -> result unit.

(** Statements run against the services and may throw; the calls made
    before a throw stay made. *)
Definition T (A : Type) : Type := list call -> result A * list call.

Definition ret {A : Type} (a : A) : T A := fun made => (Ok a, made).

Definition bindT {A B : Type} (m : T A) (k : A -> T B) : T B :=
  fun made =>
    match m made with
    | (Ok a, made') => k a made'
    | (Throw e, made') => (Throw e, made')
    end.

Notation "'do!' x ':=' m 'in' k" := (bindT m (fun x => k))
  (at level 10, x name, m at level 100, k at level 200).

Definition lift {A : Type} (r : result A) : T A := fun made => (r, made).

Definition invoke (c : call) : T unit :=
  fun made => (outcome made c, (made ++ [c])%list).

(** [if (c) { m }] *)
Definition when (c : bool) (m : T unit) : T unit :=
  if c then m else ret tt.

(** [if (o.a?.b) metrics.observeHistogram(name, o.a.b)] *)
Definition observe_path (name : string) (o : value) (a b : string) : T unit :=
  do! tested := lift (opt_path o a b) in
  when (truthy tested)
    (do! observed := lift (path o a b) in
     invoke (ObserveHistogram name observed)).

(** [if (o.k) metrics.observeHistogram(name, o.k)] *)
Definition observe_field (name : string) (o : value) (k : string) : T unit :=
  do! tested := lift (get o k) in
  when (truthy tested)
    (do! observed := lift (get o k) in
     invoke (ObserveHistogram name observed)).

(** The branch [telemetryType === 'heartbeat' && playerUuid]. *)
Definition heartbeat (body playerUuid : value) : T unit :=
  do! _ := invoke (TrackActivePlayer playerUuid VNull) in
  do! state := lift (playerState body) in
  do! _ := invoke (UpdatePlayerState playerUuid state) in
  do! _ := observe_path "fps" body "performance" "fps_avg" in
  do! _ := observe_path "frame_time" body "performance" "frame_time_p99_ms" in
  do! _ := observe_path "latency" body "network" "latency_ms" in
  do! _ := observe_path "memory" body "memory" "working_set_mb" in
  do! _ := observe_field "session_duration" body "session_duration_seconds" in
  do! connected := lift (opt_path body "network" "connected") in
  when (strict_eq_false connected)
    (invoke (RemovePlayerFromAllServers playerUuid)).

(** The branch [telemetryType === 'session_start' && playerUuid]. *)
Definition session_start (body playerUuid : value) : T unit :=
  do! configured := lift (opt_path body "settings" "language") in
  let language := or_else configured (VStr "unknown") in
  do! hardware := lift (playerHardware body language) in
  do! _ := invoke (UpdatePlayerHardware playerUuid hardware) in
  invoke (IncCounter "language" (VObj [("language", language)])).

(** The branch [telemetryType === 'session_end' && playerUuid]. *)
Definition session_end (body playerUuid : value) : T unit :=
  do! session_summary := lift (get body "session_summary") in
  let sessionSummary := or_else session_summary (VObj []) in
  do! performance_summary := lift (get body "performance_summary") in
  let performanceSummary := or_else performance_summary (VObj []) in
  do! network_summary := lift (get body "network_summary") in
  let networkSummary := or_else network_summary (VObj []) in
  do! summary :=
    lift (sessionEnd body sessionSummary performanceSummary networkSummary) in
  do! _ := invoke (RecordSessionEnd playerUuid summary) in
  do! exit_reason := lift (get sessionSummary "exit_reason") in
  do! _ := when (truthy exit_reason)
             (do! reason := lift (get sessionSummary "exit_reason") in
              invoke (IncCounter "exit_reason" (VObj [("reason", reason)]))) in
  do! total := lift (get sessionSummary "total_duration_seconds") in
  do! _ := when (truthy total)
             (do! seconds := lift (get sessionSummary "total_duration_seconds") in
              do! _ := invoke (ObserveHistogram "session_duration" seconds) in
              do! seconds' := lift (get sessionSummary "total_duration_seconds") in
              invoke (AddToCounter "total_playtime_seconds" seconds')) in
  do! _ := observe_field "session_avg_fps" performanceSummary "avg_fps" in
  invoke (RemovePlayerFromAllServers playerUuid).

(** The branch [telemetryType === 'event' && playerUuid]. *)
Definition event (body playerUuid : value) : T unit :=
  do! eventName := lift (get body "event_name") in
  do! event_data := lift (get body "event_data") in
  let eventData := or_else event_data (VObj []) in
  do! _ := invoke (IncCounter "event" (VObj [("event", eventName)])) in
  do! record := lift (eventRecord body eventName eventData) in
  do! _ := invoke (RecordEvent playerUuid record) in
  if strict_eq_str eventName "server_connect" then
    do! _ := observe_field "connect_time" eventData "time_to_connect_ms" in
    do! success := lift (get eventData "success") in
    invoke (IncCounter "server_connect" (VObj [("success", true_or_false success)]))
  else if strict_eq_str eventName "server_disconnect" then
    do! reason := lift (get eventData "reason") in
    do! _ := invoke (IncCounter "server_disconnect"
                       (VObj [("reason", or_else reason (VStr "unknown"))])) in
    invoke (RemovePlayerFromAllServers playerUuid)
  else if strict_eq_str eventName "world_joined" then
    do! _ := observe_field "world_load_time" eventData "load_time_ms" in
    do! game_mode := lift (get eventData "game_mode") in
    do! is_singleplayer := lift (get eventData "is_singleplayer") in
    invoke (IncCounter "world_joined"
              (VObj [("game_mode", or_else game_mode (VStr "unknown"));
                     ("singleplayer", true_or_false is_singleplayer)]))
  else if strict_eq_str eventName "state_transition" then
    do! from_state := lift (get eventData "from_state") in
    do! to_state := lift (get eventData "to_state") in
    invoke (IncCounter "state_transition"
              (VObj [("from", or_else from_state (VStr "unknown"));
                     ("to", or_else to_state (VStr "unknown"))]))
  else ret tt.

Definition acknowledgement : call :=
  SendJson 200 (VObj [("success", VBool true); ("received", VBool true)]).

(** [handleTelemetry(req, res, body, headers)].  The request object is
    not used by the handler. *)
Definition handleTelemetry (body headers : value) : T unit :=
  do! playerUuid := lift (playerUuid_of headers) in
  do! telemetryType := lift (get body "type") in
  do! _ := invoke (IncCounter "telemetry_received_total" VUndefined) in
  do! _ :=
    if strict_eq_str telemetryType "heartbeat" && truthy playerUuid then
      heartbeat body playerUuid
    else if strict_eq_str telemetryType "session_start" && truthy playerUuid then
      session_start body playerUuid
    else if strict_eq_str telemetryType "session_end" && truthy playerUuid then
      session_end body playerUuid
    else if strict_eq_str telemetryType "event" && truthy playerUuid then
      event body playerUuid
    else ret tt in
  invoke acknowledgement.

End handler.

End Telemetry.

(** ** Vocabulary for the behaviour of the service beyond the
    specification *)

Module Behaviour.
Import JS JSON Auth KeyStore Spec.

(** The keys in memory when the module holds the pair [sk], [pk]. *)
Definition keys_in_memory (C : crypto) (sk : private_key C) (pk : public_key C)
  : keys C :=
  {| privateKey := Some sk;
     publicKey := Some pk;
     publicKeyJwk := Some (export_jwk C pk) |}.

(** A key file text from which the provider reads the pair [sk], [pk]:
    it parses, and its two fields decode to keys the provider accepts. *)
Definition stored_pair (C : crypto) (text : string)
  (sk : private_key C) (pk : public_key C) : Prop :=
  exists keyData sk_text sk_der pk_text pk_der,
    JSON.parse text = Ok keyData /\
    get keyData "privateKey" = Ok sk_text /\
    buffer_from_base64 sk_text = Ok sk_der /\
    createPrivateKey C sk_der = Ok sk /\
    get keyData "publicKey" = Ok pk_text /\
    buffer_from_base64 pk_text = Ok pk_der /\
    createPublicKey C pk_der = Ok pk.

(** A text without a dot: one part of a compact token. *)
Definition no_dot (s : string) : bool :=
  all_chars (fun c => negb (Ascii.eqb c ".")) s.

(** A text without a space: a token without a scheme before it. *)
Definition no_space (s : string) : bool :=
  all_chars (fun c => negb (Ascii.eqb c " ")) s.

(** Request headers whose authorization header is the text [a]. *)
Definition authorization_headers (a : string) : value :=
  VObj [("authorization", VStr a)].

(** The characters of a compact token: the URL-safe alphabet and the dot;
    no padding. *)
Definition token_char (c : ascii) : bool :=
  Ascii.eqb c "." ||
  match Base64url.index_in c Base64url.alphabet with
  | Some _ => true
  | None => false
  end.

(** Request headers that carry [t] as a bearer token. *)
Definition bearer_headers (t : string) : value :=
  VObj [("authorization", VStr ("Bearer " ++ t))].

(** Claims stamped by a call in the surroundings [E]: [iat] is the clock
    of [E] in whole seconds, rounded down, and [jti] is the UUID drawn. *)
Definition stamped (E : env) (c : value) : Prop :=
  exists iat,
    get c "iat" = Ok (VNum iat) /\
    1000 * iat <= Date_now E < 1000 * iat + 1000 /\
    get c "jti" = Ok (VStr (randomUUID E)).

(** Services on which every call returns. *)
Definition all_return : list Telemetry.call -> Telemetry.call -> result unit :=
  fun _ _ => Ok tt.

(** The first call of the handler. *)
Definition received : Telemetry.call :=
  Telemetry.IncCounter "telemetry_received_total" VUndefined.

Definition is_send (c : Telemetry.call) : bool :=
  match c with
  | Telemetry.SendJson _ _ => true
  | _ => false
  end.

(** The calls that change what [storage] holds. *)
Definition is_storage (c : Telemetry.call) : bool :=
  match c with
  | Telemetry.TrackActivePlayer _ _ | Telemetry.UpdatePlayerState _ _
  | Telemetry.RemovePlayerFromAllServers _ | Telemetry.UpdatePlayerHardware _ _
  | Telemetry.RecordSessionEnd _ _ | Telemetry.RecordEvent _ _ => true
  | _ => false
  end.

Definition is_removal (c : Telemetry.call) : bool :=
  match c with
  | Telemetry.RemovePlayerFromAllServers _ => true
  | _ => false
  end.

Definition counts_request (c : Telemetry.call) : bool :=
  match c with
  | Telemetry.IncCounter name _ => String.eqb name "telemetry_received_total"
  | _ => false
  end.

(** The calls a request is judged by: the count of requests, the removal
    of a player from the servers, and the reply. *)
Definition notable (c : Telemetry.call) : bool :=
  counts_request c || is_removal c || is_send c.

(** A property of a value that is not [undefined] or [null], read
    without the exception. *)
Definition field (v : value) (k : string) : value :=
  match get v k with
  | Ok x => x
  | Throw _ => VUndefined
  end.

(** [v?.k] *)
Definition opt_field (v : value) (k : string) : value :=
  if Telemetry.nullish v then VUndefined else field v k.

(** The requests after which the player is on no server: a heartbeat
    that reports [network.connected] as [false], the end of a session,
    and the event [server_disconnect]. *)
Definition leaves_servers (body : value) : bool :=
  (strict_eq_str (field body "type") "heartbeat" &&
   Telemetry.strict_eq_false (opt_field (field body "network") "connected"))
  || strict_eq_str (field body "type") "session_end"
  || (strict_eq_str (field body "type") "event" &&
      strict_eq_str (field body "event_name") "server_disconnect").

(** A computation that makes its calls after the calls made before and
    sends no reply. *)
Definition silent {A : Type} (m : Telemetry.T A) : Prop :=
  forall made,
    exists ops, snd (m made) = (made ++ ops)%list /\ existsb is_send ops = false.

(** A computation that returns [a] after calls whose notable ones are
    [n]. *)
Definition yields {A : Type} (m : Telemetry.T A) (a : A) (n : list Telemetry.call)
  : Prop :=
  forall made,
    exists ops, m made = (Ok a, (made ++ ops)%list) /\ List.filter notable ops = n.

(** A computation that returns [a] after exactly the calls [ops]. *)
Definition emits {A : Type} (m : Telemetry.T A) (a : A) (ops : list Telemetry.call)
  : Prop :=
  forall made, m made = (Ok a, (made ++ ops)%list).

Definition is_observation (c : Telemetry.call) : bool :=
  match c with
  | Telemetry.ObserveHistogram _ _ => true
  | _ => false
  end.

(** The metrics of a heartbeat that go to a histogram, by the name of
    the histogram, in the order of the handler. *)
Definition heartbeat_metrics (body : value) : list (string * value) :=
  [("fps", opt_field (field body "performance") "fps_avg");
   ("frame_time", opt_field (field body "performance") "frame_time_p99_ms");
   ("latency", opt_field (field body "network") "latency_ms");
   ("memory", opt_field (field body "memory") "working_set_mb");
   ("session_duration", field body "session_duration_seconds")].

(** The observations of the metrics that are truthy. *)
Definition observations (metrics : list (string * value)) : list Telemetry.call :=
  map (fun metric => Telemetry.ObserveHistogram (fst metric) (snd metric))
      (List.filter (fun metric => truthy (snd metric)) metrics).

(** A heartbeat of a client that is connected to no server. *)
Definition example_heartbeat : value :=
  VObj [("type", VStr "heartbeat");
        ("session_id", VStr "s-1");
        ("performance", VObj [("fps_avg", VNum 60)]);
        ("network", VObj [("connected", VBool false)])].

(** The disk a first start leaves behind, and a disk that cannot be
    written. *)
Definition persisted_disk : FS := w_fs example_crypto (snd first_start).

Definition read_only_disk : FS :=
  {| files := ∅; dirs := {["/"; "/app"; "/app/data"]}; read_only := true |}.

End Behaviour.

(** * Proofs *)

(** ** Facts about strings *)

Module StringFacts.
Import JS.

Lemma app_empty_r (s : string) : s ++ EmptyString = s.
Proof. induction s as [|c s IH]; simpl; [reflexivity | now rewrite IH]. Qed.

Lemma app_assoc (a b c : string) : (a ++ b) ++ c = a ++ (b ++ c).
Proof. induction a as [|x a IH]; simpl; [reflexivity | now rewrite IH]. Qed.

Lemma all_chars_app (p : ascii -> bool) (a b : string) :
  all_chars p (a ++ b) = all_chars p a && all_chars p b.
Proof.
  induction a as [|x a IH]; simpl; [reflexivity|].
  rewrite IH. now rewrite andb_assoc.
Qed.

(** A text without the separator is one part. *)
Lemma split_none (sep : ascii) (a : string) :
  all_chars (fun c => negb (Ascii.eqb c sep)) a = true ->
  split sep a = [a].
Proof.
  induction a as [|x a IH]; simpl; [reflexivity|].
  intros H. apply andb_true_iff in H as [Hx Ha].
  apply negb_true_iff in Hx. rewrite Hx, (IH Ha). reflexivity.
Qed.

(** The first separator ends the first part. *)
Lemma split_app (sep : ascii) (a b : string) :
  all_chars (fun c => negb (Ascii.eqb c sep)) a = true ->
  split sep (a ++ String sep b) = a :: split sep b.
Proof.
  induction a as [|x a IH]; simpl.
  - intros _. now rewrite Ascii.eqb_refl.
  - intros H. apply andb_true_iff in H as [Hx Ha].
    apply negb_true_iff in Hx. rewrite Hx, (IH Ha). reflexivity.
Qed.

Lemma split_nonempty (sep : ascii) (s : string) : split sep s <> [].
Proof.
  destruct s as [|c s]; simpl; [discriminate|].
  destruct (Ascii.eqb c sep); [discriminate|].
  destruct (split sep s); discriminate.
Qed.

Lemma starts_with_spec (p s : string) :
  starts_with p s = true <-> exists r, s = p ++ r.
Proof.
  revert s. induction p as [|a p IH]; intros s; simpl.
  - split; [intros _; now exists s | reflexivity].
  - destruct s as [|b s].
    + split; [discriminate | intros [r Hr]; discriminate].
    + rewrite andb_true_iff, Ascii.eqb_eq, IH. split.
      * intros [-> [r ->]]. now exists r.
      * intros [r Hr]. injection Hr as -> ->. split; [reflexivity | now exists r].
Qed.

(** [includes] is the substring relation. *)
Lemma includes_spec (s sub : string) :
  includes s sub = true <-> exists a b, s = a ++ sub ++ b.
Proof.
  induction s as [|c s IH].
  - simpl. destruct (starts_with sub EmptyString) eqn:Hp.
    + apply starts_with_spec in Hp as [r Hr]. split; [|reflexivity].
      intros _. exists EmptyString, r. exact Hr.
    + split; [discriminate|]. intros (a & b & Hab).
      destruct a; [|discriminate]. simpl in Hab.
      assert (starts_with sub EmptyString = true) by (apply starts_with_spec; now exists b).
      congruence.
  - simpl. destruct (starts_with sub (String c s)) eqn:Hp.
    + apply starts_with_spec in Hp as [r Hr]. split; [|reflexivity].
      intros _. exists EmptyString, r. exact Hr.
    + rewrite IH. split.
      * intros (a & b & ->). now exists (String c a), b.
      * intros (a & b & Hab). destruct a as [|x a].
        -- simpl in Hab.
           assert (starts_with sub (String c s) = true)
             by (apply starts_with_spec; now exists b).
           congruence.
        -- injection Hab as -> ->. now exists a, b.
Qed.

(** The first part of [split] is the longest prefix without the separator. *)
Lemma split_hd_spec (sep : ascii) (s : string) :
  all_chars (fun c => negb (Ascii.eqb c sep)) (hd EmptyString (split sep s)) = true /\
  (s = hd EmptyString (split sep s) \/
   exists rest, s = hd EmptyString (split sep s) ++ String sep rest).
Proof.
  induction s as [|c s [IH1 IH2]]; simpl.
  - split; [reflexivity | now left].
  - destruct (Ascii.eqb c sep) eqn:Hc.
    + apply Ascii.eqb_eq in Hc as ->. simpl. split; [reflexivity|].
      right. now exists s.
    + pose proof (split_nonempty sep s) as Hne.
      destruct (split sep s) as [|p ps]; [congruence|]. simpl in *.
      rewrite Hc, IH1. split; [reflexivity|].
      destruct IH2 as [->|[rest ->]]; [now left | right; now exists rest].
Qed.

End StringFacts.

(** ** Facts about Base64url *)

Module Base64urlFacts.
Import JS Base64url.

Lemma dec_enc_char (x : sextet) : dec_char (enc_char x) = Some x.
Proof.
  destruct x as [[[[[b5 b4] b3] b2] b1] b0].
  destruct b5, b4, b3, b2, b1, b0; reflexivity.
Qed.

Lemma enc_char_not_pad (x : sextet) : Ascii.eqb (enc_char x) "=" = false.
Proof.
  destruct x as [[[[[b5 b4] b3] b2] b1] b0].
  destruct b5, b4, b3, b2, b1, b0; reflexivity.
Qed.

Lemma enc_char_not_dot (x : sextet) : Ascii.eqb (enc_char x) "." = false.
Proof.
  destruct x as [[[[[b5 b4] b3] b2] b1] b0].
  destruct b5, b4, b3, b2, b1, b0; reflexivity.
Qed.

Lemma sextets_of_text_enc (l : list sextet) :
  sextets_of_text (string_of_chars (map enc_char l)) = l.
Proof.
  induction l as [|x l IH]; simpl; [reflexivity|].
  now rewrite enc_char_not_pad, dec_enc_char, IH.
Qed.

(** Three-at-a-time induction on byte strings. *)
Lemma string_ind3 (P : string -> Prop) :
  P EmptyString ->
  (forall a, P (String a EmptyString)) ->
  (forall a b, P (String a (String b EmptyString))) ->
  (forall a b c rest, P rest -> P (String a (String b (String c rest)))) ->
  forall s, P s.
Proof.
  intros H0 H1 H2 H3.
  fix IH 1. intros [|a [|b [|c rest]]].
  - exact H0.
  - apply H1.
  - apply H2.
  - apply H3, IH.
Qed.

Lemma bytes_of_sextets_of_bytes (s : string) :
  bytes_of_sextets (sextets_of_bytes s) = s.
Proof.
  induction s as [|a|a b|a b c rest IH] using string_ind3.
  - reflexivity.
  - now destruct a.
  - now destruct a, b.
  - destruct a, b, c. cbn [sextets_of_bytes byte3 app bytes_of_sextets].
    rewrite IH. reflexivity.
Qed.

(** Decoding inverts encoding, on every byte string. *)
Lemma decode_encode (s : string) : decode (encode s) = s.
Proof.
  unfold decode, encode.
  now rewrite sextets_of_text_enc, bytes_of_sextets_of_bytes.
Qed.

(** An encoded text has no dot. *)
Lemma encode_no_dot (s : string) :
  all_chars (fun c => negb (Ascii.eqb c ".")) (encode s) = true.
Proof.
  unfold encode. induction (sextets_of_bytes s) as [|x l IH]; simpl; [reflexivity|].
  now rewrite enc_char_not_dot, IH.
Qed.

End Base64urlFacts.

(** ** The lexer reads what [JSON.stringify] writes *)

Module LexFacts.
Import JS JSON JSONValue StringFacts.

(** One character of a string literal, escaped, reads back as itself. *)
Lemma lex_escape_char (c : ascii) (acc rest : string) :
  lex (LStr acc) (escape_char c ++ rest) = lex (LStr (snoc acc c)) rest.
Proof.
  destruct c as [[] [] [] [] [] [] [] []]; reflexivity.
Qed.

Lemma snoc_app (acc : string) (c : ascii) (s : string) :
  snoc acc c ++ s = acc ++ String c s.
Proof. unfold snoc. now rewrite app_assoc. Qed.

Lemma lex_escape (s acc rest : string) :
  lex (LStr acc) (escape s ++ rest) = lex (LStr (acc ++ s)) rest.
Proof.
  revert acc. induction s as [|c s IH]; intros acc; simpl.
  - now rewrite app_empty_r.
  - rewrite app_assoc, lex_escape_char, IH, snoc_app. reflexivity.
Qed.

(** A quoted string is one string token. *)
Lemma lex_quote (s rest : string) :
  lex LTop (quote s ++ rest) = prepend (TStr s) (lex LTop rest).
Proof.
  unfold quote. simpl. rewrite app_assoc, lex_escape. reflexivity.
Qed.

Lemma lex_num_run (ds acc rest : string) :
  all_chars is_numchar ds = true ->
  lex (LNum acc) (ds ++ rest) = lex (LNum (acc ++ ds)) rest.
Proof.
  revert acc. induction ds as [|c ds IH]; intros acc H; simpl.
  - now rewrite app_empty_r.
  - simpl in H. apply andb_true_iff in H as [Hc Hds].
    rewrite Hc, (IH _ Hds), snoc_app. reflexivity.
Qed.

Lemma lex_num_end (acc rest : string) :
  delim rest = true ->
  lex (LNum acc) rest =
  match num_token acc with
  | Some t => prepend t (lex LTop rest)
  | None => None
  end.
Proof.
  destruct rest as [|c rest]; simpl.
  - intros _. now destruct (num_token acc).
  - intros H. apply andb_true_iff in H as [Hn _]. apply negb_true_iff in Hn.
    rewrite Hn. destruct (num_token acc) as [t|]; [|reflexivity].
    now destruct (top_step c) as [[ot m']|].
Qed.

Lemma lex_word_end (acc rest : string) :
  delim rest = true ->
  lex (LWord acc) rest =
  match word_token acc with
  | Some t => prepend t (lex LTop rest)
  | None => None
  end.
Proof.
  destruct rest as [|c rest]; simpl.
  - intros _. now destruct (word_token acc).
  - intros H. apply andb_true_iff in H as [_ Hl]. apply negb_true_iff in Hl.
    rewrite Hl. destruct (word_token acc) as [t|]; [|reflexivity].
    now destruct (top_step c) as [[ot m']|].
Qed.

Lemma lex_null (rest : string) :
  delim rest = true -> lex LTop ("null" ++ rest) = prepend TNull (lex LTop rest).
Proof.
  intros H. transitivity (lex (LWord "null") rest); [reflexivity|].
  now rewrite (lex_word_end "null" rest H).
Qed.

Lemma lex_true (rest : string) :
  delim rest = true -> lex LTop ("true" ++ rest) = prepend TTrue (lex LTop rest).
Proof.
  intros H. transitivity (lex (LWord "true") rest); [reflexivity|].
  now rewrite (lex_word_end "true" rest H).
Qed.

Lemma lex_false (rest : string) :
  delim rest = true -> lex LTop ("false" ++ rest) = prepend TFalse (lex LTop rest).
Proof.
  intros H. transitivity (lex (LWord "false") rest); [reflexivity|].
  now rewrite (lex_word_end "false" rest H).
Qed.

End LexFacts.

(** ** Number literals *)

Module NumFacts.
Import JS JSON JSONValue StringFacts LexFacts.

Lemma digits_of_uint (d : Decimal.uint) :
  all_chars is_digit (NilEmpty.string_of_uint d) = true.
Proof. induction d; simpl; auto. Qed.

Lemma digit_numchar (c : ascii) : is_digit c = true -> is_numchar c = true.
Proof. unfold is_numchar. now intros ->. Qed.

Lemma digits_numchars (s : string) :
  all_chars is_digit s = true -> all_chars is_numchar s = true.
Proof.
  induction s as [|c s IH]; simpl; [reflexivity|].
  intros H. apply andb_true_iff in H as [Hc Hs].
  now rewrite (digit_numchar c Hc), (IH Hs).
Qed.

Lemma span_digits_all (s : string) :
  all_chars is_digit s = true -> span_digits s = (s, EmptyString).
Proof.
  induction s as [|c s IH]; simpl; [reflexivity|].
  intros H. apply andb_true_iff in H as [Hc Hs].
  now rewrite Hc, (IH Hs).
Qed.

Lemma top_step_digit (c : ascii) :
  is_digit c = true -> top_step c = Some (None, LNum (String c EmptyString)).
Proof.
  destruct c as [[] [] [] [] [] [] [] []]; try discriminate; reflexivity.
Qed.

Lemma digit_not_minus (c : ascii) : is_digit c = true -> Ascii.eqb c "-" = false.
Proof.
  destruct c as [[] [] [] [] [] [] [] []]; try discriminate; reflexivity.
Qed.

Lemma to_uint_canonical (p : positive) :
  Decimal.unorm (Pos.to_uint p) = Pos.to_uint p.
Proof.
  rewrite <- (DecimalPos.Unsigned.to_of (Pos.to_uint p)).
  now rewrite DecimalPos.Unsigned.of_to.
Qed.

Lemma of_to_uint (p : positive) : Z.of_uint (Pos.to_uint p) = Z.pos p.
Proof. unfold Z.of_uint. now rewrite DecimalPos.Unsigned.of_to. Qed.

(** The literal of a positive number, read as a number token. *)
Lemma num_token_pos (p : positive) :
  num_token (NilEmpty.string_of_uint (Pos.to_uint p)) = Some (TNum (Z.pos p)).
Proof.
  pose proof (digits_of_uint (Pos.to_uint p)) as Hd.
  pose proof (DecimalPos.Unsigned.to_uint_nonnil p) as Hn.
  unfold num_token.
  destruct (NilEmpty.string_of_uint (Pos.to_uint p)) as [|c s] eqn:Hs.
  - destruct (Pos.to_uint p); try discriminate. congruence.
  - assert (Hc : is_digit c = true) by (simpl in Hd; now apply andb_true_iff in Hd).
    rewrite (digit_not_minus c Hc), (span_digits_all _ Hd), <- Hs.
    rewrite NilEmpty.usu, to_uint_canonical, String.eqb_refl, of_to_uint.
    reflexivity.
Qed.

Lemma num_token_neg (p : positive) :
  num_token (String "-" (NilEmpty.string_of_uint (Pos.to_uint p))) = Some (TNum (Z.neg p)).
Proof.
  pose proof (digits_of_uint (Pos.to_uint p)) as Hd.
  unfold num_token. rewrite Ascii.eqb_refl, (span_digits_all _ Hd).
  rewrite NilEmpty.usu, to_uint_canonical, String.eqb_refl, of_to_uint.
  reflexivity.
Qed.

Lemma string_of_pos_uint (p : positive) :
  NilZero.string_of_uint (Pos.to_uint p) = NilEmpty.string_of_uint (Pos.to_uint p).
Proof.
  pose proof (DecimalPos.Unsigned.to_uint_nonnil p).
  now destruct (Pos.to_uint p).
Qed.

(** The decimal text of an integer is one number token. *)
Lemma lex_number (z : Z) (rest : string) :
  delim rest = true ->
  lex LTop (string_of_Z z ++ rest) = prepend (TNum z) (lex LTop rest).
Proof.
  intros Hrest. unfold string_of_Z. destruct z as [|p|p]; simpl.
  - transitivity (lex (LNum "0") rest); [reflexivity|].
    now rewrite (lex_num_end _ _ Hrest).
  - rewrite string_of_pos_uint.
    pose proof (digits_of_uint (Pos.to_uint p)) as Hd.
    pose proof (num_token_pos p) as Ht.
    destruct (NilEmpty.string_of_uint (Pos.to_uint p)) as [|c s] eqn:Hs.
    + discriminate Ht.
    + simpl in Hd. apply andb_true_iff in Hd as [Hc Hds]. simpl.
      rewrite (top_step_digit c Hc). simpl.
      rewrite (lex_num_run s _ rest (digits_numchars s Hds)). simpl.
      now rewrite (lex_num_end _ _ Hrest), Ht.
  - rewrite string_of_pos_uint.
    pose proof (digits_of_uint (Pos.to_uint p)) as Hd.
    transitivity (lex (LNum "-") (NilEmpty.string_of_uint (Pos.to_uint p) ++ rest));
      [reflexivity|].
    rewrite (lex_num_run _ _ rest (digits_numchars _ Hd)). simpl.
    now rewrite (lex_num_end _ _ Hrest), num_token_neg.
Qed.

(** A literal with a fraction or an exponent is one token, kept as text. *)
Lemma lex_dec (lit rest : string) :
  dec_literal lit = true -> delim rest = true ->
  lex LTop (lit ++ rest) = prepend (TDec lit) (lex LTop rest).
Proof.
  unfold dec_literal. intros H Hrest.
  apply andb_true_iff in H as [H Ht]. apply andb_true_iff in H as [Hall Hc].
  destruct lit as [|c s]; [discriminate|].
  simpl in Hall. apply andb_true_iff in Hall as [_ Hs].
  assert (Hstep : top_step c = Some (None, LNum (String c EmptyString))).
  { apply orb_true_iff in Hc as [Hc|Hc].
    - now apply top_step_digit.
    - apply Ascii.eqb_eq in Hc as ->. reflexivity. }
  simpl. rewrite Hstep. simpl.
  rewrite (lex_num_run s _ rest Hs). simpl.
  rewrite (lex_num_end _ _ Hrest).
  destruct (num_token (String c s)) as [[]|]; try discriminate.
  apply String.eqb_eq in Ht as ->. reflexivity.
Qed.

End NumFacts.

(** ** The tokens of a printed value *)

Module PrintFacts.
Import JS JSON JSONValue StringFacts LexFacts NumFacts.

Lemma prepend_all_nil r : prepend_all [] r = r.
Proof. now destruct r. Qed.

Lemma prepend_all_cons t ts r : prepend_all (t :: ts) r = prepend t (prepend_all ts r).
Proof. now destruct r. Qed.

Lemma prepend_all_app a b r : prepend_all (a ++ b) r = prepend_all a (prepend_all b r).
Proof. destruct r; simpl; [now rewrite <- List.app_assoc | reflexivity]. Qed.

Ltac norm_prepend :=
  repeat (rewrite prepend_all_app || rewrite prepend_all_cons ||
          rewrite prepend_all_nil || rewrite <- List.app_comm_cons).

Lemma join_cons (x : string) (l : list string) :
  join_strings "," (x :: l) = x ++ tail_text l.
Proof.
  revert x. induction l as [|y l IH]; intros x.
  - simpl. now rewrite app_empty_r.
  - change (join_strings "," (x :: y :: l)) with (x ++ "," ++ join_strings "," (y :: l)).
    now rewrite IH.
Qed.

Lemma stringify_arr (items : list value) :
  stringify (VArr items) = Some ("[" ++ join_strings "," (map item_text items) ++ "]").
Proof.
  reflexivity.
Qed.

Lemma stringify_obj (fields : list (string * value)) :
  stringify (VObj fields) =
  Some ("{" ++ join_strings "," (flat_map field_text fields) ++ "}").
Proof.
  cbn [stringify]. do 4 f_equal.
  induction fields as [|[k x] l IH]; [reflexivity|].
  cbn [flat_map]. unfold field_text at 1. cbn [fst snd].
  rewrite <- IH. now destruct (stringify x).
Qed.

Lemma tokens_of_arr (x : value) (l : list value) :
  tokens_of (VArr (x :: l)) =
  (TLBrack :: tokens_of x ++ arr_tail_tokens l ++ [TRBrack])%list.
Proof.
  cbn [tokens_of]. f_equal. rewrite <- List.app_assoc. reflexivity.
Qed.

Lemma tokens_of_obj (k : string) (x : value) (l : list (string * value)) :
  tokens_of (VObj ((k, x) :: l)) =
  (TLBrace :: TStr k :: TColon :: tokens_of x ++ obj_tail_tokens l ++ [TRBrace])%list.
Proof.
  cbn [tokens_of]. f_equal.
  change ((TStr k :: TColon :: tokens_of x ++ obj_tail_tokens l) ++ [TRBrace] =
          TStr k :: TColon :: tokens_of x ++ obj_tail_tokens l ++ [TRBrace])%list.
  rewrite <- !List.app_comm_cons, <- List.app_assoc. reflexivity.
Qed.

Lemma json_value_arr (x : value) (l : list value) :
  json_value (VArr (x :: l)) = json_value x && json_value (VArr l).
Proof. reflexivity. Qed.

Lemma json_value_obj (k : string) (x : value) (l : list (string * value)) :
  json_value (VObj ((k, x) :: l)) =
  negb (mem k (map fst l)) && json_value x && json_value (VObj l).
Proof.
  simpl. destruct (mem k (map fst l)), (distinct (map fst l)), (json_value x);
    reflexivity.
Qed.

Lemma stringify_some (v : value) :
  json_value v = true -> stringify v = Some (item_text v).
Proof.
  unfold item_text. destruct v as [| |[]| | | | | |]; try discriminate;
    intros _; reflexivity.
Qed.

Lemma delim_tail (l : list string) (c : ascii) (rest : string) :
  negb (is_numchar c) && negb (is_lower c) = true ->
  delim (tail_text l ++ String c rest) = true.
Proof. intros H. destruct l; [exact H | reflexivity]. Qed.

(** Lexing the printed text of a JSON value gives its tokens. *)
Lemma lex_item_text (v : value) :
  json_value v = true ->
  forall rest, delim rest = true ->
  lex LTop (item_text v ++ rest) = prepend_all (tokens_of v) (lex LTop rest).
Proof.
  induction v using value_nested_ind; intros Hv rest Hrest; try discriminate.
  - unfold item_text; cbn [stringify].
    rewrite (lex_null rest Hrest). now destruct (lex LTop rest).
  - unfold item_text; destruct b; cbn [stringify];
      [rewrite (lex_true rest Hrest) | rewrite (lex_false rest Hrest)];
      now destruct (lex LTop rest).
  - unfold item_text; cbn [stringify]. rewrite (lex_number z rest Hrest).
    now destruct (lex LTop rest).
  - unfold item_text; cbn [stringify]. cbn [json_value] in Hv.
    rewrite (lex_dec lit rest Hv Hrest). now destruct (lex LTop rest).
  - unfold item_text; cbn [stringify]. rewrite lex_quote.
    now destruct (lex LTop rest).
  - (* arrays *)
    unfold item_text. rewrite stringify_arr.
    destruct items as [|x l].
    + transitivity (prepend TLBrack (prepend TRBrack (lex LTop rest))); [reflexivity|].
      now destruct (lex LTop rest).
    + rewrite tokens_of_arr. cbn [map]. rewrite join_cons.
      rewrite json_value_arr in Hv. apply andb_true_iff in Hv as [Hx Hl].
      apply Forall_cons_1 in H as [IHx IHl].
      assert (Htail : forall rest', delim rest' = true ->
        lex LTop (tail_text (map item_text l) ++ String "]" rest') =
        prepend_all (arr_tail_tokens l ++ [TRBrack]) (lex LTop rest')).
      { clear IHx Hx x. induction l as [|y l IH]; intros rest' Hrest'.
        - transitivity (prepend TRBrack (lex LTop rest')); [reflexivity|].
          now destruct (lex LTop rest').
        - rewrite json_value_arr in Hl. apply andb_true_iff in Hl as [Hy Hl].
          apply Forall_cons_1 in IHl as [IHy IHl].
          cbn [map tail_text arr_tail_tokens].
          transitivity (prepend TComma
            (lex LTop (item_text y ++ tail_text (map item_text l) ++ String "]" rest'))).
          { rewrite !app_assoc. reflexivity. }
          rewrite (IHy Hy); [|now apply delim_tail].
          rewrite (IH IHl Hl rest' Hrest').
          norm_prepend. reflexivity. }
      transitivity (prepend TLBrack
        (lex LTop (item_text x ++ tail_text (map item_text l) ++ String "]" rest))).
      { rewrite !app_assoc. reflexivity. }
      rewrite (IHx Hx); [|now apply delim_tail].
      rewrite (Htail rest Hrest).
      norm_prepend. reflexivity.
  - (* objects *)
    unfold item_text. rewrite stringify_obj.
    destruct fields as [|[k x] l].
    + transitivity (prepend TLBrace (prepend TRBrace (lex LTop rest))); [reflexivity|].
      now destruct (lex LTop rest).
    + rewrite tokens_of_obj.
      rewrite json_value_obj in Hv. apply andb_true_iff in Hv as [Hv Hl].
      apply andb_true_iff in Hv as [_ Hx].
      apply Forall_cons_1 in H as [IHx IHl]. simpl in IHx.
      assert (Htail : forall rest', delim rest' = true ->
        lex LTop (tail_text (flat_map field_text l) ++ String "}" rest') =
        prepend_all (obj_tail_tokens l ++ [TRBrace]) (lex LTop rest')).
      { clear IHx Hx x k. induction l as [|[k y] l IH]; intros rest' Hrest'.
        - transitivity (prepend TRBrace (lex LTop rest')); [reflexivity|].
          now destruct (lex LTop rest').
        - rewrite json_value_obj in Hl. apply andb_true_iff in Hl as [Hl Hl'].
          apply andb_true_iff in Hl as [_ Hy].
          apply Forall_cons_1 in IHl as [IHy IHl]. simpl in IHy.
          cbn [flat_map]. unfold field_text at 1. cbn [fst snd].
          rewrite (stringify_some y Hy). cbn [app tail_text obj_tail_tokens].
          transitivity (prepend TComma (lex LTop
            (quote k ++ String ":" (item_text y ++
               tail_text (flat_map field_text l) ++ String "}" rest')))).
          { rewrite !app_assoc. reflexivity. }
          rewrite lex_quote.
          transitivity (prepend TComma (prepend (TStr k) (prepend TColon
            (lex LTop (item_text y ++
               tail_text (flat_map field_text l) ++ String "}" rest'))))).
          { reflexivity. }
          rewrite (IHy Hy); [|now apply delim_tail].
          rewrite (IH IHl Hl' rest' Hrest').
          norm_prepend. reflexivity. }
      cbn [flat_map]. unfold field_text at 1. cbn [fst snd].
      rewrite (stringify_some x Hx). cbn [app]. rewrite join_cons.
      transitivity (prepend TLBrace (lex LTop
        (quote k ++ String ":" (item_text x ++
           tail_text (flat_map field_text l) ++ String "}" rest)))).
      { rewrite !app_assoc. reflexivity. }
      rewrite lex_quote.
      transitivity (prepend TLBrace (prepend (TStr k) (prepend TColon
        (lex LTop (item_text x ++
           tail_text (flat_map field_text l) ++ String "}" rest))))).
      { reflexivity. }
      rewrite (IHx Hx); [|now apply delim_tail].
      rewrite (Htail rest Hrest).
      norm_prepend. reflexivity.
Qed.

End PrintFacts.

(** ** The parser reads the tokens of a value as that value *)

Module ParseFacts.
Import JS JSON JSONValue StringFacts LexFacts NumFacts PrintFacts.

Lemma run_app (st : pstate) (a b : list token) :
  run st (a ++ b) = continue (run st a) b.
Proof.
  revert st. induction a as [|t a IH]; intros st; simpl; [reflexivity|].
  destruct (step st t); [apply IH | reflexivity].
Qed.

Lemma mem_app (k : string) (a b : list string) :
  mem k (a ++ b) = mem k a || mem k b.
Proof. unfold mem. apply existsb_app. Qed.

Lemma distinct_mid (a b : list string) (k : string) :
  distinct (a ++ k :: b) = true -> mem k a = false.
Proof.
  induction a as [|x a IH]; simpl; [reflexivity|].
  intros H. apply andb_true_iff in H as [Hx Ha].
  apply negb_true_iff in Hx. rewrite mem_app in Hx.
  apply orb_false_iff in Hx as [_ Hx]. simpl in Hx.
  apply orb_false_iff in Hx as [Hx _].
  rewrite (IH Ha), orb_false_r. now rewrite String.eqb_sym.
Qed.

Lemma obj_set_fresh (acc : list (string * value)) (k : string) (v : value) :
  mem k (map fst acc) = false -> obj_set acc k v = (acc ++ [(k, v)])%list.
Proof.
  induction acc as [|[k' v'] acc IH]; simpl; [reflexivity|].
  intros H. apply orb_false_iff in H as [Hk Hacc].
  now rewrite Hk, (IH Hacc).
Qed.

Lemma json_value_obj_inv (fields : list (string * value)) :
  json_value (VObj fields) = true ->
  distinct (map fst fields) = true /\
  Forall (fun kv => json_value (snd kv) = true) fields.
Proof.
  induction fields as [|[k x] l IH].
  - intros _. split; [reflexivity | constructor].
  - rewrite json_value_obj. intros H.
    apply andb_true_iff in H as [H Hl]. apply andb_true_iff in H as [Hk Hx].
    destruct (IH Hl) as [Hd Hf]. split.
    + simpl. now rewrite Hk, Hd.
    + constructor; assumption.
Qed.

Lemma json_value_arr_inv (items : list value) :
  json_value (VArr items) = true -> Forall (fun x => json_value x = true) items.
Proof.
  induction items as [|x l IH]; [constructor|].
  rewrite json_value_arr. intros H. apply andb_true_iff in H as [Hx Hl].
  constructor; auto.
Qed.

(** The first token of a JSON value opens a value: it is no closing
    bracket, so an array that has just been opened reads it as an item. *)
Lemma step_arr_start (v : value) (stack : list frame) (ts : list token) :
  json_value v = true ->
  run (stack, PArrStart) (tokens_of v ++ ts) = run (stack, PValue) (tokens_of v ++ ts).
Proof.
  destruct v as [| |[]| | | |[|x l]|[|[k x] l]|]; try discriminate; intros _;
    reflexivity.
Qed.

(** The machine reads the tokens of a JSON value as that value. *)
Lemma run_tokens_of (v : value) :
  json_value v = true ->
  forall stack ts,
  run (stack, PValue) (tokens_of v ++ ts) = continue (deliver v stack) ts.
Proof.
  induction v using value_nested_ind; intros Hv stack ts; try discriminate;
    try reflexivity.
  - now destruct b.
  - (* arrays *)
    apply json_value_arr_inv in Hv.
    assert (Htail : forall l acc,
      Forall (fun x => json_value x = true) l ->
      Forall (fun v => json_value v = true -> forall stack ts,
        run (stack, PValue) (tokens_of v ++ ts) = continue (deliver v stack) ts) l ->
      run (FArr acc :: stack, PAfter) (arr_tail_tokens l ++ TRBrack :: ts) =
      continue (deliver (VArr (acc ++ l)) stack) ts).
    { induction l as [|y l IH]; intros acc Hl IHl.
      - simpl. now rewrite List.app_nil_r.
      - apply Forall_cons_1 in Hl as [Hy Hl]. apply Forall_cons_1 in IHl as [IHy IHl].
        cbn [arr_tail_tokens app run step].
        rewrite <- List.app_assoc, (IHy Hy). cbn [deliver continue].
        rewrite (IH _ Hl IHl), <- List.app_assoc. reflexivity. }
    destruct items as [|x l]; [reflexivity|].
    apply Forall_cons_1 in Hv as [Hx Hl]. apply Forall_cons_1 in H as [IHx IHl].
    rewrite tokens_of_arr. cbn [app run step start_value].
    rewrite <- !List.app_assoc, (step_arr_start x _ _ Hx), (IHx Hx).
    cbn [deliver continue app]. apply (Htail l [x] Hl IHl).
  - (* objects *)
    apply json_value_obj_inv in Hv as [Hd Hv].
    assert (Htail : forall l acc,
      distinct (map fst (acc ++ l)) = true ->
      Forall (fun kv => json_value (snd kv) = true) l ->
      Forall (fun kv => json_value (snd kv) = true -> forall stack ts,
        run (stack, PValue) (tokens_of (snd kv) ++ ts) =
        continue (deliver (snd kv) stack) ts) l ->
      run (FObj acc :: stack, PAfter) (obj_tail_tokens l ++ TRBrace :: ts) =
      continue (deliver (VObj (acc ++ l)) stack) ts).
    { induction l as [|[k y] l IH]; intros acc Hacc Hl IHl.
      - simpl. now rewrite List.app_nil_r.
      - apply Forall_cons_1 in Hl as [Hy Hl]. apply Forall_cons_1 in IHl as [IHy IHl].
        cbn [snd] in Hy, IHy.
        cbn [obj_tail_tokens app run step].
        rewrite <- List.app_assoc, (IHy Hy). cbn [deliver continue].
        rewrite List.map_app in Hacc. cbn [map fst] in Hacc.
        rewrite (obj_set_fresh acc k y (distinct_mid _ _ _ Hacc)).
        rewrite IH; [now rewrite <- List.app_assoc | | assumption | assumption].
        rewrite List.map_app, List.map_app, <- List.app_assoc. exact Hacc. }
    destruct fields as [|[k x] l]; [reflexivity|].
    apply Forall_cons_1 in Hv as [Hx Hl]. apply Forall_cons_1 in H as [IHx IHl].
    cbn [snd] in Hx, IHx.
    rewrite tokens_of_obj. cbn [app run step start_value].
    rewrite <- !List.app_assoc, (IHx Hx).
    cbn [deliver continue app obj_set]. apply (Htail l [(k, x)] Hd Hl IHl).
Qed.

(** [JSON.parse(JSON.stringify(v))] is [v], for every JSON value. *)
Lemma parse_stringify (v : value) :
  json_value v = true ->
  exists j, stringify v = Some j /\ parse j = Ok v.
Proof.
  intros Hv. exists (item_text v). split; [now apply stringify_some|].
  unfold parse.
  rewrite <- (app_empty_r (item_text v)), (lex_item_text v Hv EmptyString eq_refl).
  cbn [lex prepend_all].
  rewrite (run_tokens_of v Hv). reflexivity.
Qed.

End ParseFacts.

(** ** What [JSON.stringify] loses *)

Module SanitizeFacts.
Import JS JSON JSONValue StringFacts PrintFacts ParseFacts.

Lemma sanitize_arr (items : list value) :
  sanitize (VArr items) = VArr (map sanitize_item items).
Proof. reflexivity. Qed.

Lemma sanitize_obj (fields : list (string * value)) :
  sanitize (VObj fields) = VObj (sanitize_fields fields).
Proof. reflexivity. Qed.

Lemma well_formed_arr (x : value) (l : list value) :
  well_formed (VArr (x :: l)) = well_formed x && well_formed (VArr l).
Proof. reflexivity. Qed.

Lemma well_formed_obj (k : string) (x : value) (l : list (string * value)) :
  well_formed (VObj ((k, x) :: l)) =
  negb (mem k (map fst l)) && well_formed x && well_formed (VObj l).
Proof.
  simpl. destruct (mem k (map fst l)), (distinct (map fst l)), (well_formed x);
    reflexivity.
Qed.

Lemma json_value_obj_intro (k : string) (x : value) (l : list (string * value)) :
  mem k (map fst l) = false -> json_value x = true -> json_value (VObj l) = true ->
  json_value (VObj ((k, x) :: l)) = true.
Proof. intros Hk Hx Hl. rewrite json_value_obj. now rewrite Hk, Hx, Hl. Qed.

Lemma mem_sanitize_fields (k : string) (l : list (string * value)) :
  mem k (map fst l) = false -> mem k (map fst (sanitize_fields l)) = false.
Proof.
  induction l as [|[k' x] l IH]; [reflexivity|]. simpl.
  intros H. apply orb_false_iff in H as [Hk Hl].
  destruct (droppable x); simpl; [now apply IH|].
  now rewrite Hk, (IH Hl).
Qed.

Lemma stringify_item (v : value) :
  droppable v = false -> stringify v = Some (item_text v).
Proof.
  unfold item_text. destruct v as [| |[]| | | | | |]; try discriminate; reflexivity.
Qed.

Lemma droppable_sanitize (v : value) :
  droppable v = false -> droppable (sanitize v) = false.
Proof. destruct v; try discriminate; reflexivity. Qed.

(** What is printed for a value is printed for what it stands for. *)
Lemma item_text_sanitize (v : value) :
  item_text (sanitize_item v) = item_text v.
Proof.
  induction v using value_nested_ind; try reflexivity.
  - (* arrays *)
    unfold sanitize_item. cbn [droppable]. rewrite sanitize_arr.
    unfold item_text. rewrite !stringify_arr. do 3 f_equal.
    induction items as [|x l IH]; [reflexivity|].
    apply Forall_cons_1 in H as [Hx Hl]. cbn [map].
    now rewrite Hx, (IH Hl).
  - (* objects *)
    unfold sanitize_item. cbn [droppable]. rewrite sanitize_obj.
    unfold item_text. rewrite !stringify_obj. do 3 f_equal.
    induction fields as [|[k x] l IH]; [reflexivity|].
    apply Forall_cons_1 in H as [Hx Hl]. cbn [snd] in Hx.
    cbn [sanitize_fields flat_map].
    unfold sanitize_item in Hx.
    destruct (droppable x) eqn:Hd.
    + rewrite (IH Hl). unfold field_text at 2. cbn [fst snd].
      destruct x; try discriminate; reflexivity.
    + cbn [flat_map]. rewrite (IH Hl). unfold field_text at 1 3. cbn [fst snd].
      rewrite (stringify_item x Hd), (stringify_item _ (droppable_sanitize x Hd)).
      now rewrite Hx.
Qed.

(** What a well-formed value stands for is a JSON value. *)
Lemma json_value_sanitize (v : value) :
  well_formed v = true -> json_value (sanitize_item v) = true.
Proof.
  induction v using value_nested_ind; intros Hv; try reflexivity.
  - exact Hv.
  - (* arrays *)
    unfold sanitize_item. cbn [droppable]. rewrite sanitize_arr.
    induction items as [|x l IH]; [reflexivity|].
    apply Forall_cons_1 in H as [Hx Hl].
    rewrite well_formed_arr in Hv. apply andb_true_iff in Hv as [Hwx Hwl].
    cbn [map]. rewrite json_value_arr, (Hx Hwx). now apply IH.
  - (* objects *)
    unfold sanitize_item. cbn [droppable]. rewrite sanitize_obj.
    induction fields as [|[k x] l IH]; [reflexivity|].
    apply Forall_cons_1 in H as [Hx Hl]. cbn [snd] in Hx.
    rewrite well_formed_obj in Hv. apply andb_true_iff in Hv as [Hv Hwl].
    apply andb_true_iff in Hv as [Hk Hwx]. apply negb_true_iff in Hk.
    cbn [sanitize_fields]. specialize (Hx Hwx). unfold sanitize_item in Hx.
    destruct (droppable x); [now apply IH|].
    apply json_value_obj_intro; [now apply mem_sanitize_fields | exact Hx | now apply IH].
Qed.

(** [JSON.parse(JSON.stringify(v))] is what [v] stands for, for every
    value that prints. *)
Lemma parse_stringify_any (v : value) :
  well_formed v = true -> droppable v = false ->
  exists j, stringify v = Some j /\ parse j = Ok (sanitize v).
Proof.
  intros Hw Hd.
  pose proof (json_value_sanitize v Hw) as Hj.
  pose proof (item_text_sanitize v) as Ht.
  unfold sanitize_item in Hj, Ht. rewrite Hd in Hj, Ht.
  destruct (parse_stringify _ Hj) as (j & Hs & Hp).
  rewrite (stringify_some _ Hj) in Hs. injection Hs as <-.
  exists (item_text v). split; [now apply stringify_item | now rewrite <- Ht].
Qed.

(** A claim of what an object stands for. *)
Lemma assoc_sanitize_fields (k : string) (l : list (string * value)) :
  distinct (map fst l) = true ->
  assoc k (sanitize_fields l) =
  match assoc k l with
  | Some x => if droppable x then None else Some (sanitize x)
  | None => None
  end.
Proof.
  induction l as [|[k' x] l IH]; [reflexivity|]. simpl.
  intros H. apply andb_true_iff in H as [Hk' Hl]. apply negb_true_iff in Hk'.
  destruct (String.eqb k k') eqn:Hk.
  - apply String.eqb_eq in Hk as ->.
    destruct (droppable x); simpl; [|now rewrite String.eqb_refl].
    rewrite (IH Hl).
    assert (Hnone : assoc k' l = None).
    { clear -Hk'. induction l as [|[k x0] l IH]; [reflexivity|]. simpl in *.
      apply orb_false_iff in Hk' as [Hk Hl]. now rewrite Hk, IH. }
    now rewrite Hnone.
  - destruct (droppable x); simpl; [now apply IH|]. now rewrite Hk, IH.
Qed.

Lemma json_well_formed (v : value) :
  json_value v = true -> well_formed v = true.
Proof.
  induction v using value_nested_ind; intros Hv; try reflexivity; try discriminate.
  - exact Hv.
  - induction items as [|x l IH]; [reflexivity|].
    apply Forall_cons_1 in H as [Hx Hl].
    rewrite json_value_arr in Hv. apply andb_true_iff in Hv as [Hjx Hjl].
    rewrite well_formed_arr, (Hx Hjx). now apply IH.
  - induction fields as [|[k x] l IH]; [reflexivity|].
    apply Forall_cons_1 in H as [Hx Hl]. cbn [snd] in Hx.
    rewrite json_value_obj in Hv. apply andb_true_iff in Hv as [Hv Hjl].
    apply andb_true_iff in Hv as [Hk Hjx].
    rewrite well_formed_obj, Hk, (Hx Hjx). now apply IH.
Qed.

Lemma json_not_droppable (v : value) : json_value v = true -> droppable v = false.
Proof. destruct v; try discriminate; reflexivity. Qed.

(** A JSON value stands for itself. *)
Lemma sanitize_json (v : value) :
  json_value v = true -> sanitize v = v.
Proof.
  induction v using value_nested_ind; intros Hv; try reflexivity.
  - rewrite sanitize_arr. f_equal.
    induction items as [|x l IH]; [reflexivity|].
    apply Forall_cons_1 in H as [Hx Hl].
    rewrite json_value_arr in Hv. apply andb_true_iff in Hv as [Hjx Hjl].
    cbn [map]. unfold sanitize_item at 1.
    now rewrite (json_not_droppable x Hjx), (Hx Hjx), (IH Hl Hjl).
  - rewrite sanitize_obj. f_equal.
    induction fields as [|[k x] l IH]; [reflexivity|].
    apply Forall_cons_1 in H as [Hx Hl]. cbn [snd] in Hx.
    rewrite json_value_obj in Hv. apply andb_true_iff in Hv as [Hv Hjl].
    apply andb_true_iff in Hv as [Hk Hjx].
    cbn [sanitize_fields].
    now rewrite (json_not_droppable x Hjx), (Hx Hjx), (IH Hl Hjl).
Qed.

End SanitizeFacts.

(** ** Facts about the service *)

Module AuthFacts.
Import JS JSON Auth JSONValue Spec StringFacts Base64urlFacts PrintFacts ParseFacts SanitizeFacts.

Lemma segment_roundtrip (v : value) :
  json_value v = true ->
  exists j, stringify v = Some j /\ decode_segment (Base64url.encode j) = Ok v.
Proof.
  intros Hv. destruct (parse_stringify v Hv) as (j & Hj & Hp).
  exists j. split; [exact Hj|].
  unfold decode_segment. now rewrite decode_encode.
Qed.

(** The three parts of a compact token. *)
Lemma split_compact (h b s : string) :
  split "." (Base64url.encode h ++ "." ++ Base64url.encode b ++ "." ++ Base64url.encode s)
  = [Base64url.encode h; Base64url.encode b; Base64url.encode s].
Proof.
  simpl. rewrite (split_app _ _ _ (encode_no_dot h)).
  rewrite (split_app _ _ _ (encode_no_dot b)).
  now rewrite (split_none _ _ (encode_no_dot s)).
Qed.

Lemma json_value_header (E : env) : json_value (token_header E) = true.
Proof. reflexivity. Qed.

(** The token [generateToken] returns, part by part. *)
Lemma generateToken_eq (E : env) (payload : value) (jp : string) :
  stringify payload = Some jp ->
  let header := Base64url.encode (item_text (token_header E)) in
  let body := Base64url.encode jp in
  generateToken E payload =
  Ok (header ++ "." ++ body ++ "." ++
      Base64url.encode (sign E (header ++ "." ++ body))).
Proof.
  intros Hjp header body.
  unfold generateToken, base64url_json.
  rewrite (stringify_some _ (json_value_header E)), Hjp. cbn [bind].
  fold header. fold body. now rewrite app_assoc.
Qed.

(** [generateToken] returns a token for every JSON value, in three
    parts: the first decodes to the header, the second is the JSON text
    of the value and decodes to the value. *)
Lemma generateToken_ok (E : env) (payload : value) :
  json_value payload = true ->
  exists t,
    generateToken E payload = Ok t /\
    length (split "." t) = 3%nat /\
    decode_segment (nth 0 (split "." t) EmptyString) = Ok (token_header E) /\
    Some (Base64url.decode (nth 1 (split "." t) EmptyString)) = stringify payload /\
    claims_of_token t = Ok payload.
Proof.
  intros Hp.
  destruct (segment_roundtrip payload Hp) as (jp & Hjp & Hdec).
  destruct (segment_roundtrip _ (json_value_header E)) as (jh & Hjh & Hdech).
  rewrite (stringify_some _ (json_value_header E)) in Hjh. injection Hjh as <-.
  eexists. split; [apply (generateToken_eq E payload jp Hjp)|].
  unfold claims_of_token. rewrite split_compact. cbn [length nth].
  split; [reflexivity|]. split; [exact Hdech|]. split; [|exact Hdec].
  now rewrite decode_encode.
Qed.

(** [generateToken] returns a token for every value that prints, and
    the second part decodes to what the value stands for. *)
Lemma generateToken_any (E : env) (payload : value) :
  well_formed payload = true -> droppable payload = false ->
  exists t,
    generateToken E payload = Ok t /\
    length (split "." t) = 3%nat /\
    claims_of_token t = Ok (sanitize payload).
Proof.
  intros Hw Hd.
  destruct (parse_stringify_any payload Hw Hd) as (jp & Hjp & Hparse).
  eexists. split; [apply (generateToken_eq E payload jp Hjp)|].
  unfold claims_of_token. rewrite split_compact. cbn [length nth].
  split; [reflexivity|]. unfold decode_segment. now rewrite decode_encode.
Qed.

Lemma get_obj_claim (fields : list (string * value)) (k : string) :
  mem k object_prototype = false -> get (VObj fields) k = Ok (claim fields k).
Proof.
  intros Hk. unfold get, claim, proto_lookup. cbn [mem existsb orb]. now rewrite Hk.
Qed.

(** Reading a claim of a decoded payload: a property that printed. *)
Lemma get_sanitized (fields : list (string * value)) (k : string) (x y : value) :
  distinct (map fst fields) = true ->
  mem k object_prototype = false ->
  assoc k fields = Some x ->
  droppable x = false ->
  sanitize x = y ->
  get (sanitize (VObj fields)) k = Ok y.
Proof.
  intros Hd Hk Hx Hdrop <-. rewrite sanitize_obj, (get_obj_claim _ _ Hk).
  unfold claim. now rewrite (assoc_sanitize_fields k fields Hd), Hx, Hdrop.
Qed.

(** Reading a claim of a decoded payload: a property that is not there. *)
Lemma get_missing (fields : list (string * value)) (k : string) :
  distinct (map fst fields) = true ->
  mem k object_prototype = false ->
  assoc k fields = None ->
  get (sanitize (VObj fields)) k = Ok VUndefined.
Proof.
  intros Hd Hk Hx. rewrite sanitize_obj, (get_obj_claim _ _ Hk).
  unfold claim. now rewrite (assoc_sanitize_fields k fields Hd), Hx.
Qed.

Lemma getIssuerUrl_absent (E : env) (h : value) :
  truthy h = false -> getIssuerUrl E h = Ok ("https://" ++ domain (cfg E)).
Proof. unfold getIssuerUrl. now intros ->. Qed.

(** [getIssuerUrl] returns an issuer for every host header, present or
    not. *)
Lemma getIssuerUrl_total (E : env) (h : option string) :
  exists iss, getIssuerUrl E (default_arg (host_value h) VNull) = Ok iss.
Proof.
  destruct h as [s|]; [|eexists; reflexivity].
  unfold getIssuerUrl. cbn [host_value default_arg call_split bind].
  destruct (truthy (VStr s)); [|eexists; reflexivity].
  destruct (includes _ _); eexists; reflexivity.
Qed.

End AuthFacts.

(** ** Issuing tokens *)

Module Issuing.
Import JS JSON Auth JSONValue Spec StringFacts Base64urlFacts PrintFacts ParseFacts SanitizeFacts AuthFacts.

Lemma without_port_hd (h host : string) :
  without_port h host -> hd EmptyString (split ":" h) = host.
Proof.
  intros [Hc [->|[port ->]]].
  - now rewrite (split_none _ _ Hc).
  - simpl. now rewrite (split_app _ _ _ Hc).
Qed.

(** C6. Issuer resolution: for every host header, with [host] the header
    without its port, the issuer is [https://host] when [host] contains the
    configured base domain and [https://<base domain>] when it does not;
    without a host header it is [https://<base domain>]. *)
Theorem C6_issuer_resolution (E : env) (h host : string) :
  without_port h host ->
  (contains host (domain (cfg E)) ->
   getIssuerUrl E (VStr h) = Ok ("https://" ++ host)) /\
  (~ contains host (domain (cfg E)) ->
   getIssuerUrl E (VStr h) = Ok ("https://" ++ domain (cfg E))) /\
  getIssuerUrl E VUndefined = Ok ("https://" ++ domain (cfg E)) /\
  getIssuerUrl E VNull = Ok ("https://" ++ domain (cfg E)).
Proof.
  intros Hport. pose proof (without_port_hd h host Hport) as Hhd.
  repeat split; try reflexivity.
  - intros Hin. unfold getIssuerUrl.
    destruct (truthy (VStr h)) eqn:Ht.
    + cbn [call_split bind]. rewrite Hhd.
      apply includes_spec in Hin. now rewrite Hin.
    + (* an empty header: the host is empty, and so is the base domain *)
      simpl in Ht. apply negb_false_iff, String.eqb_eq in Ht. subst h.
      simpl in Hhd. subst host.
      destruct Hin as (a & b & Hab). destruct a; [|discriminate].
      simpl in Hab. destruct (domain (cfg E)); [reflexivity | discriminate].
  - intros Hout. unfold getIssuerUrl.
    destruct (truthy (VStr h)); [|reflexivity].
    cbn [call_split bind]. rewrite Hhd.
    destruct (includes host (domain (cfg E))) eqn:Hin; [|reflexivity].
    apply includes_spec in Hin. contradiction.
Qed.

Lemma C6_issuer_resolution_witness :
  without_port "auth.sanasol.ws:3000" "auth.sanasol.ws" /\
  getIssuerUrl example_env (VStr "auth.sanasol.ws:3000") = Ok "https://auth.sanasol.ws".
Proof.
  assert (H : without_port "auth.sanasol.ws:3000" "auth.sanasol.ws").
  { split; [reflexivity | right; now exists "3000"]. }
  split; [exact H|].
  apply (C6_issuer_resolution example_env _ _ H).
  now exists "auth.", "".
Defined.

Lemma json_normalizeScopes (scopes : value) :
  json_or_absent scopes = true -> json_value (scope_of scopes) = true.
Proof.
  unfold scope_of, normalizeScopes.
  destruct scopes as [| |b|z|lit|s|items|fields|name]; try discriminate;
    cbn [default_arg json_or_absent truthy negb]; try reflexivity; intros H.
  - now destruct b.
  - now destruct (negb (z =? 0)).
  - now destruct (mantissa_nonzero lit).
  - now destruct (negb (String.eqb s EmptyString)).
  - exact H.
Qed.

Lemma well_formed_scope (scopes : value) :
  well_formed scopes = true -> well_formed (scope_of scopes) = true.
Proof.
  unfold scope_of, normalizeScopes.
  destruct scopes as [| |b|z|lit|s|items|fields|name];
    cbn [default_arg truthy negb]; intros H; try reflexivity.
  - now destruct b.
  - now destruct (negb (z =? 0)).
  - now destruct (mantissa_nonzero lit).
  - now destruct (negb (String.eqb s EmptyString)).
  - exact H.
Qed.

Lemma well_formed_entitlements (entitlements : value) :
  well_formed entitlements = true ->
  well_formed (entitlements_of entitlements) = true.
Proof. destruct entitlements; intros H; try exact H; reflexivity. Qed.

Lemma well_formed_fingerprint (certFingerprint : value) :
  well_formed certFingerprint = true ->
  well_formed (fingerprint_of certFingerprint) = true.
Proof. destruct certFingerprint; intros H; try exact H; reflexivity. Qed.

Section builders.
Variable E : env.
Variables uuid name audience certFingerprint scopes entitlements : value.
Variable host : option string.
Hypothesis Huuid : well_formed uuid = true.
Hypothesis Hname : well_formed name = true.
Hypothesis Haudience : well_formed audience = true.
Hypothesis Hcert : well_formed certFingerprint = true.
Hypothesis Hscopes : well_formed scopes = true.
Hypothesis Hentitlements : well_formed entitlements = true.

Lemma wf_identityPayload (iss : string) :
  well_formed
    (identityPayload E uuid name (scope_of scopes) (entitlements_of entitlements) iss)
  = true.
Proof using Huuid Hname Hscopes Hentitlements.
  unfold identityPayload. cbn.
  now rewrite Huuid, Hname, (well_formed_scope _ Hscopes),
    (well_formed_entitlements _ Hentitlements).
Qed.

Lemma wf_sessionPayload (iss : string) :
  well_formed (sessionPayload E uuid iss) = true.
Proof using Huuid.
  unfold sessionPayload. cbn. now rewrite Huuid.
Qed.

Lemma wf_grantPayload (iss : string) :
  well_formed (grantPayload E uuid name audience (scope_of scopes) iss) = true.
Proof using Huuid Hname Haudience Hscopes.
  unfold grantPayload. cbn.
  now rewrite Huuid, Hname, Haudience, (well_formed_scope _ Hscopes).
Qed.

Lemma wf_accessPayload (iss : string) :
  well_formed
    (accessPayload E uuid name audience (fingerprint_of certFingerprint)
       (scope_of scopes) iss) = true /\
  droppable
    (accessPayload E uuid name audience (fingerprint_of certFingerprint)
       (scope_of scopes) iss) = false.
Proof using Huuid Hname Haudience Hscopes Hcert.
  unfold accessPayload.
  destruct (truthy (fingerprint_of certFingerprint)); (split; [|reflexivity]); cbn;
    now rewrite Huuid, Hname, Haudience, (well_formed_scope _ Hscopes),
      ?(well_formed_fingerprint _ Hcert).
Qed.

(** Each builder returns a token; its claims are what the payload it
    built stands for, with the issuer [getIssuerUrl] resolved for the
    host header. *)
Lemma builders_ok :
  exists iss,
    getIssuerUrl E (host_value host) = Ok iss /\
    (exists t, generateIdentityToken E uuid name scopes entitlements (host_value host) = Ok t /\
       claims_of_token t =
         Ok (sanitize (identityPayload E uuid name (scope_of scopes)
                         (entitlements_of entitlements) iss))) /\
    (exists t, generateSessionToken E uuid (host_value host) = Ok t /\
       claims_of_token t = Ok (sanitize (sessionPayload E uuid iss))) /\
    (exists t, generateAuthorizationGrant E uuid name audience scopes (host_value host) = Ok t /\
       claims_of_token t =
         Ok (sanitize (grantPayload E uuid name audience (scope_of scopes) iss))) /\
    (exists t, generateAccessToken E uuid name audience certFingerprint scopes (host_value host) = Ok t /\
       claims_of_token t =
         Ok (sanitize (accessPayload E uuid name audience (fingerprint_of certFingerprint)
                         (scope_of scopes) iss))).
Proof using Huuid Hname Haudience Hscopes Hcert Hentitlements.
  destruct (getIssuerUrl_total E host) as [iss Hiss]. exists iss.
  split; [now destruct host|].
  unfold generateIdentityToken, generateSessionToken, generateAuthorizationGrant,
    generateAccessToken.
  rewrite Hiss. cbn [bind].
  repeat split.
  - destruct (generateToken_any E _ (wf_identityPayload iss) eq_refl) as (t & Ht & _ & Hc).
    now exists t.
  - destruct (generateToken_any E _ (wf_sessionPayload iss) eq_refl) as (t & Ht & _ & Hc).
    now exists t.
  - destruct (generateToken_any E _ (wf_grantPayload iss) eq_refl) as (t & Ht & _ & Hc).
    now exists t.
  - destruct (wf_accessPayload iss) as [Hw Hd].
    destruct (generateToken_any E _ Hw Hd) as (t & Ht & _ & Hc).
    now exists t.
Qed.

(** Reading a claim the builders always set. *)
Ltac read_claim :=
  unfold identityPayload, sessionPayload, grantPayload, accessPayload;
  try match goal with
      | |- context [truthy ?c] => destruct (truthy c)
      end;
  (eapply get_sanitized; reflexivity).



End builders.


Lemma array_join_strings (l : list string) :
  array_join " " (map VStr l) = String.concat " " l.
Proof.
  unfold array_join. rewrite List.map_map. cbn [join_item to_string].
  rewrite List.map_id.
  induction l as [|x [|y l] IH]; [reflexivity | reflexivity |].
  change (x ++ " " ++ join_strings " " (y :: l) = x ++ " " ++ String.concat " " (y :: l)).
  now rewrite IH.
Qed.


(** Examples: the theorems at a concrete call, and the calls at which the
    sentences of the specification fail as they are written. *)







End Issuing.

(** ** Reading tokens *)

Module Reading.
Import JS JSON Auth JSONValue Spec StringFacts Base64urlFacts PrintFacts ParseFacts SanitizeFacts AuthFacts.

(** What [parseToken] does with a string, by the parts of the string. *)
Lemma parseToken_string (s : string) :
  parseToken (VStr s) =
  if (2 <=? length (split "." s))%nat then
    match decode_segment (nth 1 (split "." s) EmptyString) with
    | Ok payload =>
        match get payload "sub" with
        | Ok _ =>
            Ok (VObj [("uuid", match get payload "sub" with Ok x => x | Throw _ => VNull end);
                      ("name",
                       match get payload "username" with
                       | Ok u => if truthy u then u
                                 else match get payload "name" with Ok x => x | Throw _ => VNull end
                       | Throw _ => VNull
                       end);
                      ("scope", match get payload "scope" with Ok x => x | Throw _ => VNull end);
                      ("aud", match get payload "aud" with Ok x => x | Throw _ => VNull end)])
        | Throw _ => Ok VNull
        end
    | Throw _ => Ok VNull
    end
  else Ok VNull.
Proof.
  unfold parseToken. cbn [call_split bind].
  destruct (2 <=? length (split "." s))%nat; [|reflexivity].
  destruct (decode_segment _) as [payload|e]; [|reflexivity].
  cbn [bind try_catch].
  destruct payload; try reflexivity; cbn [get bind]; unfold js_or;
    match goal with
    | |- context [truthy ?u] => destruct (truthy u); reflexivity
    end.
Qed.

Lemma parseToken_object (s : string) (fields : list (string * value)) :
  (2 <= length (split "." s))%nat ->
  decode_segment (nth 1 (split "." s) EmptyString) = Ok (VObj fields) ->
  parseToken (VStr s) = Ok (parsed_claims fields).
Proof.
  intros Hlen Hdec. rewrite parseToken_string.
  apply Nat.leb_le in Hlen. rewrite Hlen, Hdec.
  rewrite !get_obj_claim by reflexivity. reflexivity.
Qed.



Lemma try_catch_total {A : Type} (body : result (option A)) :
  exists r, try_catch body (fun _ => Ok None) = Ok r.
Proof. destruct body; eexists; reflexivity. Qed.

Lemma get_truthy (v : value) (k : string) :
  truthy v = true -> exists x, get v k = Ok x.
Proof. destruct v; try discriminate; intros _; eexists; reflexivity. Qed.

Lemma replace_prefix (p s : string) : replace (p ++ s) p EmptyString = s.
Proof.
  assert (Hs : starts_with p (p ++ s) = true) by (apply starts_with_spec; now exists s).
  assert (Hd : drop_chars (String.length p) (p ++ s) = s).
  { induction p as [|c p IH]; [reflexivity | simpl; apply IH].
    apply starts_with_spec. now exists s. }
  destruct (p ++ s) as [|c r] eqn:Hps; unfold replace; fold replace;
    rewrite Hs; exact Hd.
Qed.

(** What [extractServerAudienceFromHeaders] does with a bearer text whose
    payload is an object. *)
Lemma extract_bearer (hs : list (string * value)) (bearer : string)
  (fields : list (string * value)) :
  assoc "authorization" hs = Some (VStr bearer) ->
  bearer <> EmptyString ->
  (2 <= length (split "." (replace bearer "Bearer " "")))%nat ->
  decode_segment (nth 1 (split "." (replace bearer "Bearer " "")) EmptyString)
    = Ok (VObj fields) ->
  extractServerAudienceFromHeaders (VObj hs) = Ok (bearer_audience fields).
Proof.
  intros Hauth Hne Hlen Hdec. unfold extractServerAudienceFromHeaders.
  cbn [truthy negb get bind]. rewrite Hauth. cbn [truthy bind].
  apply String.eqb_neq in Hne. rewrite Hne. cbn [negb call_replace call_split bind].
  apply Nat.leb_le in Hlen. rewrite Hlen, Hdec. cbn [bind].
  rewrite !get_obj_claim by reflexivity. cbn [bind].
  unfold bearer_audience.
  destruct (truthy (claim fields "aud")); [reflexivity|].
  destruct (strict_eq_str (claim fields "scope") "hytale:server"); [|reflexivity].
  cbn [andb]. now destruct (truthy (claim fields "sub")).
Qed.



(** Examples: the theorems at concrete inputs, and the inputs at which
    the sentences of the specification fail as they are written. *)








End Reading.

(** ** The key store *)

Module KeyStoreFacts.
Import JS JSON Auth KeyStore Spec.

Section facts.
Variable C : crypto.
Variable K : config.

Lemma quiet_ret {A : Type} (a : A) : quiet (ret C a).
Proof. intros w. split; [reflexivity|]. exists []. now rewrite List.app_nil_r. Qed.

Lemma quiet_lift {A : Type} (r : result A) : quiet (lift C r).
Proof. intros w. split; [reflexivity|]. exists []. now rewrite List.app_nil_r. Qed.

Lemma quiet_log (line : string) : quiet (log C line).
Proof. intros w. split; [reflexivity|]. exists []. simpl. now rewrite List.app_nil_r. Qed.

Lemma quiet_set_keys (f : keys C -> keys C) : quiet (set_keys C f).
Proof. intros w. split; [reflexivity|]. exists []. simpl. now rewrite List.app_nil_r. Qed.

Lemma quiet_bind {A B : Type} (m : M C A) (k : A -> M C B) :
  quiet m -> (forall a, quiet (k a)) -> quiet (bindM C m k).
Proof.
  intros Hm Hk w. unfold bindM.
  destruct (Hm w) as (Hfs & ops & Htr & Hops).
  destruct (m w) as [[a|e] w1]; simpl in *.
  - destruct (Hk a w1) as (Hfs' & ops' & Htr' & Hops').
    split; [congruence|]. exists (ops ++ ops')%list.
    rewrite Htr', Htr, <- List.app_assoc. split; [reflexivity|].
    now rewrite forallb_app, Hops, Hops'.
  - split; [exact Hfs|]. now exists ops.
Qed.

Lemma quiet_try {A : Type} (body : M C A) (handler : error -> M C A) :
  quiet body -> (forall e, quiet (handler e)) -> quiet (try_catchM C body handler).
Proof.
  intros Hm Hk w. unfold try_catchM.
  destruct (Hm w) as (Hfs & ops & Htr & Hops).
  destruct (body w) as [[a|e] w1]; simpl in *.
  - split; [exact Hfs|]. now exists ops.
  - destruct (Hk e w1) as (Hfs' & ops' & Htr' & Hops').
    split; [congruence|]. exists (ops ++ ops')%list.
    rewrite Htr', Htr, <- List.app_assoc. split; [reflexivity|].
    now rewrite forallb_app, Hops, Hops'.
Qed.

Lemma quiet_fs_exists (p : string) : quiet (fs_exists C p).
Proof. intros w. split; [reflexivity|]. now exists [OpExists p]. Qed.

Lemma quiet_fs_read (p : string) : quiet (fs_read C p).
Proof.
  intros w. unfold fs_read, bindM, traced. simpl.
  split; [reflexivity|]. now exists [OpRead p].
Qed.

Create HintDb quiet.
#[local] Hint Resolve quiet_ret quiet_lift quiet_log quiet_set_keys
  quiet_fs_exists quiet_fs_read : quiet.

(** Loading reads the disk and writes nothing. *)
Lemma quiet_load_existing : quiet (load_existing C K).
Proof.
  unfold load_existing, set_privateKey, set_publicKey, set_publicKeyJwk.
  apply quiet_bind; [auto with quiet|]. intros [|]; [|auto with quiet].
  repeat (apply quiet_bind; [auto with quiet | intros ?]).
  auto with quiet.
Qed.

(** The load phase never throws, leaves the disk alone, and reports
    [true] only when loading reached its [return]. *)
Lemma load_phase (w : world C) :
  exists b w1,
    try_catchM C (load_existing C K) (load_failed C) w = (Ok b, w1) /\
    w_fs C w1 = w_fs C w /\
    (exists ops, w_trace C w1 = (w_trace C w ++ ops)%list /\
                 forallb is_probe ops = true) /\
    (b = true -> fst (load_existing C K w) = Ok true).
Proof.
  assert (Hq : quiet (try_catchM C (load_existing C K) (load_failed C))).
  { apply quiet_try; [apply quiet_load_existing|].
    intros e. unfold load_failed. apply quiet_bind; auto with quiet. }
  destruct (Hq w) as (Hfs & Hops). revert Hfs Hops.
  unfold try_catchM.
  destruct (load_existing C K w) as [[b|e] w0]; simpl; intros Hfs Hops.
  - exists b, w0. repeat split; try assumption. now intros ->.
  - revert Hfs Hops. unfold load_failed, bindM, log, ret. simpl. intros Hfs Hops.
    eexists false, _. repeat split; try assumption. discriminate.
Qed.

(** Unfolding the statements of the key store down to the world they
    return. *)
Ltac reduce_world :=
  cbv beta iota zeta delta
    [save_keys save_failed try_catchM bindM fs_exists fs_mkdir fs_write traced
     set_fs mkdirSync writeFileSync log ret existsSync can_persist
     w_fs w_keys w_console w_trace files dirs read_only].

(** The save phase never throws and keeps the keys; it writes the key
    file in place when the disk allows it, and nothing on a read-only
    disk; it renames nothing. *)
Lemma save_phase (sk : private_key C) (pk : public_key C) (createdAt : string)
  (w : world C) :
  exists w' ops,
    try_catchM C (save_keys C K sk pk createdAt) (save_failed C) w = (Ok tt, w') /\
    w_keys C w' = w_keys C w /\
    w_trace C w' = (w_trace C w ++ ops)%list /\
    existsb is_rename ops = false /\
    (can_persist K (w_fs C w) = true ->
     files (w_fs C w') =
       <[keyFile K := key_file_text C sk pk createdAt]> (files (w_fs C w)) /\
     exists before,
       ops = (before ++ [OpWrite (keyFile K) (key_file_text C sk pk createdAt)])%list /\
       forallb (fun op => match op with OpWrite _ _ => false | _ => true end) before = true) /\
    (read_only (w_fs C w) = true -> w_fs C w' = w_fs C w).
Proof.
  destruct w as [[fl ds ro] ks con tr].
  set (dir := dirname (keyFile K)).
  set (text := key_file_text C sk pk createdAt).
  reduce_world. fold dir. fold text.
  repeat (match goal with
          | |- context [if ?b then _ else _] => destruct b eqn:?
          end; cbv beta iota).
  all: eexists; eexists; (split; [reflexivity|]); (split; [reflexivity|]).
  all: reduce_world; rewrite <- !List.app_assoc; (split; [reflexivity|]).
  all: split; [reflexivity|].
  all: cbn [negb andb orb].
  all: try (split; [discriminate | reflexivity]).
  all: split; [intros Hcp | discriminate].
  all: repeat match goal with
         | H : _ && _ = true |- _ => apply andb_true_iff in H as [? ?]
         | H : negb _ = true |- _ => apply negb_true_iff in H
         | H : negb _ = false |- _ => apply negb_false_iff in H
         | H : _ || _ = true |- _ => apply orb_true_iff in H
         | H : _ || _ = false |- _ => apply orb_false_iff in H as [? ?]
         | H : bool_decide _ = true |- _ => apply bool_decide_eq_true in H
         | H : bool_decide _ = false |- _ => apply bool_decide_eq_false in H
         | H : String.eqb _ _ = false |- _ => apply String.eqb_neq in H
         end.
  all: try (split; [reflexivity|];
            first [ exists [OpExists dir]; split; reflexivity
                  | exists [OpExists dir; OpMkdir dir]; split; reflexivity ]).
  all: exfalso.
  - destruct Heqb as [Hs|Hs]; [apply bool_decide_eq_true in Hs | apply bool_decide_eq_true in Hs];
      [|contradiction].
    destruct H0 as [Hd|Hd]; apply bool_decide_eq_true in Hd; [contradiction|].
    rewrite Hd in Hs. now destruct Hs.
  - set_solver.
  - set_solver.
Qed.

Lemma probes_rename_free (ops : list fs_op) :
  forallb is_probe ops = true -> existsb is_rename ops = false.
Proof.
  induction ops as [|op ops IH]; [reflexivity|]. simpl.
  intros H. apply andb_true_iff in H as [Hop Hops].
  rewrite (IH Hops). now destruct op.
Qed.

Lemma probes_write_free (ops : list fs_op) :
  forallb is_probe ops = true ->
  forallb (fun op => match op with OpWrite _ _ => false | _ => true end) ops = true.
Proof.
  induction ops as [|op ops IH]; [reflexivity|]. simpl.
  intros H. apply andb_true_iff in H as [Hop Hops].
  rewrite (IH Hops). now destruct op.
Qed.

(** No key file: loading reports that it did not load. *)
Lemma load_absent (w : world C) :
  existsSync (w_fs C w) (keyFile K) = false ->
  fst (load_existing C K w) = Ok false.
Proof.
  intros H. unfold load_existing, bindM, fs_exists, traced, ret. simpl. now rewrite H.
Qed.

(** A key file that is not JSON: loading throws. *)
Lemma load_unparseable (w : world C) (text : string) (e : error) :
  files (w_fs C w) !! keyFile K = Some text ->
  JSON.parse text = Throw e ->
  fst (load_existing C K w) = Throw e.
Proof.
  intros Hfile Hparse.
  unfold load_existing, bindM, fs_exists, fs_read, traced, ret, lift, existsSync,
    readFileSync.
  simpl. rewrite Hfile. simpl. rewrite Hfile, Hparse. reflexivity.
Qed.


End facts.
(** Examples: a first start, and a start after a crash inside the write. *)



End KeyStoreFacts.

Module KeyFileFacts.
Import JS JSON Auth KeyStore JSONValue Spec StringFacts Base64urlFacts LexFacts.
Import Base64url.

Lemma dec_enc_char_std (x : sextet) : dec_char (enc_char_std x) = Some x.
Proof.
  destruct x as [[[[[b5 b4] b3] b2] b1] b0].
  destruct b5, b4, b3, b2, b1, b0; reflexivity.
Qed.

Lemma enc_char_std_not_pad (x : sextet) : Ascii.eqb (enc_char_std x) "=" = false.
Proof.
  destruct x as [[[[[b5 b4] b3] b2] b1] b0].
  destruct b5, b4, b3, b2, b1, b0; reflexivity.
Qed.

Lemma sextets_of_text_std (l : list sextet) (n : nat) :
  sextets_of_text (string_of_chars (map enc_char_std l) ++ padding n) = l.
Proof.
  induction l as [|x l IH]; simpl.
  - unfold padding. destruct (n mod 3)%nat as [|[|[|m]]]; reflexivity.
  - now rewrite enc_char_std_not_pad, dec_enc_char_std, IH.
Qed.

(** Decoding inverts the padded standard encoding as well. *)
Lemma decode_encode_std (s : string) : decode (encode_std s) = s.
Proof.
  unfold decode, encode_std.
  now rewrite sextets_of_text_std, bytes_of_sextets_of_bytes.
Qed.

Lemma stringify_indent_record (k1 k2 k3 a b c : string) :
  stringify_indent EmptyString (VObj [(k1, VStr a); (k2, VStr b); (k3, VStr c)]) =
  Some ("{" ++ String "010" "  " ++ quote k1 ++ ": " ++ quote a ++
        "," ++ String "010" "  " ++ quote k2 ++ ": " ++ quote b ++
        "," ++ String "010" "  " ++ quote k3 ++ ": " ++ quote c ++
        String "010" "}").
Proof.
  cbn. unfold quote. repeat (rewrite ?app_assoc; cbn). reflexivity.
Qed.

Lemma lex_punct (c : ascii) (t : token) (rest : string) :
  top_step c = Some (Some t, LTop) ->
  lex LTop (String c rest) = prepend t (lex LTop rest).
Proof. intros H. simpl. now rewrite H. Qed.

Lemma lex_space (c : ascii) (rest : string) :
  is_ws c = true -> lex LTop (String c rest) = lex LTop rest.
Proof. intros H. simpl. unfold top_step. now rewrite H. Qed.

(** The key file reads back as the record that was written. *)
Lemma parse_key_file_text (C : crypto) (sk : private_key C) (pk : public_key C)
  (createdAt : string) :
  JSON.parse (key_file_text C sk pk createdAt) = Ok (key_record C sk pk createdAt).
Proof.
  unfold key_file_text, key_record. rewrite stringify_indent_record.
  unfold parse. cbn [String.append].
  rewrite (lex_punct "{" TLBrace) by reflexivity.
  do 3 (rewrite ?(lex_punct "," TComma) by reflexivity;
        rewrite !lex_space by reflexivity;
        rewrite lex_quote; cbn [String.append];
        rewrite (lex_punct ":" TColon) by reflexivity;
        rewrite !lex_space by reflexivity;
        rewrite lex_quote; cbn [String.append]).
  rewrite !lex_space by reflexivity.
  rewrite (lex_punct "}" TRBrace) by reflexivity.
  reflexivity.
Qed.
End KeyFileFacts.

(** ** The key store across restarts *)

Module KeyStoreRestart.
Import JS JSON Auth KeyStore Spec Jwks Behaviour KeyFileFacts KeyStoreFacts.

Section restart.
Variable C : crypto.
Variable K : config.

(** Loading a key file that holds a pair: the pair is in memory, the disk
    was only looked at. *)
Lemma load_stored_pair (w : world C) (text : string)
  (sk : private_key C) (pk : public_key C) :
  files (w_fs C w) !! keyFile K = Some text ->
  stored_pair C text sk pk ->
  load_existing C K w =
    (Ok true,
     {| w_fs := w_fs C w;
        w_keys := keys_in_memory C sk pk;
        w_console := (w_console C w ++ ["Loaded existing Ed25519 key pair from disk"])%list;
        w_trace := (w_trace C w ++ [OpExists (keyFile K); OpRead (keyFile K)])%list |}).
Proof.
  intros Hfile (keyData & a & da & b & db & Hparse & Ha & Hda & Hsk & Hb & Hdb & Hpk).
  unfold load_existing, bindM, fs_exists, fs_read, traced, ret, lift, existsSync,
    readFileSync, set_privateKey, set_publicKey, set_publicKeyJwk, set_keys, log.
  simpl. rewrite Hfile. simpl. rewrite Hfile, Hparse. simpl.
  rewrite Ha. simpl. rewrite Hda. simpl. rewrite Hsk. simpl.
  rewrite Hb. simpl. rewrite Hdb. simpl. rewrite Hpk. simpl.
  now rewrite <- List.app_assoc.
Qed.

(** Loading reaches its [return] only on a key file that holds a pair. *)
Lemma load_true_stored (w : world C) :
  fst (load_existing C K w) = Ok true ->
  exists text sk pk,
    files (w_fs C w) !! keyFile K = Some text /\ stored_pair C text sk pk.
Proof.
  unfold load_existing, bindM, fs_exists, fs_read, traced, ret, lift,
    readFileSync, set_privateKey, set_publicKey, set_publicKeyJwk, set_keys, log.
  simpl. destruct (existsSync (w_fs C w) (keyFile K)); [|discriminate].
  simpl. destruct (files (w_fs C w) !! keyFile K) as [text|] eqn:Hfile;
    [|destruct (bool_decide _); discriminate].
  destruct (parse text) as [keyData|] eqn:Hparse; [|discriminate]. simpl.
  destruct (get keyData "privateKey") as [a|] eqn:Ha; [|discriminate]. simpl.
  destruct (buffer_from_base64 a) as [da|] eqn:Hda; [|discriminate]. simpl.
  destruct (createPrivateKey C da) as [sk|] eqn:Hsk; [|discriminate]. simpl.
  destruct (get keyData "publicKey") as [b|] eqn:Hb; [|discriminate]. simpl.
  destruct (buffer_from_base64 b) as [db|] eqn:Hdb; [|discriminate]. simpl.
  destruct (createPublicKey C db) as [pk|] eqn:Hpk; [|discriminate]. simpl.
  intros _. exists text, sk, pk. split; [reflexivity|].
  now exists keyData, a, da, b, db.
Qed.

(** The generate path, from a world in which loading does not succeed. *)
Lemma generate_path (keyPair : private_key C * public_key C) (createdAt : string)
  (w : world C) :
  fst (load_existing C K w) <> Ok true ->
  exists w',
    loadOrGenerateKeys C K keyPair createdAt w = (Ok tt, w') /\
    w_keys C w' = keys_in_memory C (fst keyPair) (snd keyPair) /\
    (can_persist K (w_fs C w) = true ->
     files (w_fs C w') =
       <[keyFile K := key_file_text C (fst keyPair) (snd keyPair) createdAt]>
         (files (w_fs C w))) /\
    (read_only (w_fs C w) = true -> w_fs C w' = w_fs C w).
Proof.
  intros Hload.
  destruct (load_phase C K w) as (b & w1 & Hrun & Hfs1 & _ & Hb).
  destruct b; [now destruct Hload; apply Hb|].
  unfold loadOrGenerateKeys. unfold bindM at 1. rewrite Hrun.
  unfold bindM, set_privateKey, set_publicKey, set_publicKeyJwk, set_keys.
  cbn [w_fs w_keys w_console w_trace privateKey publicKey publicKeyJwk].
  match goal with
  | |- context [try_catchM C ?body ?h ?w2] =>
      destruct (save_phase C K (fst keyPair) (snd keyPair) createdAt w2)
        as (w' & ops2 & Hsave & Hkeys & _ & _ & Hpersist & Hro)
  end.
  cbn [w_fs w_keys w_console w_trace] in *.
  exists w'. rewrite Hsave. split; [reflexivity|]. split; [exact Hkeys|].
  rewrite Hfs1 in Hpersist, Hro. split; [|exact Hro].
  intros Hcp. now destruct (Hpersist Hcp).
Qed.

(** The load path. *)
Lemma load_path (keyPair : private_key C * public_key C) (createdAt : string)
  (w : world C) (text : string) (sk : private_key C) (pk : public_key C) :
  files (w_fs C w) !! keyFile K = Some text ->
  stored_pair C text sk pk ->
  loadOrGenerateKeys C K keyPair createdAt w =
    (Ok tt,
     {| w_fs := w_fs C w;
        w_keys := keys_in_memory C sk pk;
        w_console := (w_console C w ++ ["Loaded existing Ed25519 key pair from disk"])%list;
        w_trace := (w_trace C w ++ [OpExists (keyFile K); OpRead (keyFile K)])%list |}).
Proof.
  intros Hfile Hstored.
  unfold loadOrGenerateKeys, bindM at 1, try_catchM.
  now rewrite (load_stored_pair w text sk pk Hfile Hstored).
Qed.

(** The record written for a pair holds that pair, for a provider that
    reads back what it exported. *)
Lemma stored_key_file_text (sk : private_key C) (pk : public_key C)
  (createdAt : string) :
  createPrivateKey C (export_pkcs8 C sk) = Ok sk ->
  createPublicKey C (export_spki C pk) = Ok pk ->
  stored_pair C (key_file_text C sk pk createdAt) sk pk.
Proof.
  intros Hsk Hpk.
  exists (key_record C sk pk createdAt),
    (VStr (Base64url.encode_std (export_pkcs8 C sk))), (export_pkcs8 C sk),
    (VStr (Base64url.encode_std (export_spki C pk))), (export_spki C pk).
  split; [apply parse_key_file_text|].
  split; [reflexivity|]. split; [cbn; now rewrite decode_encode_std|].
  split; [exact Hsk|].
  split; [reflexivity|]. split; [cbn; now rewrite decode_encode_std|].
  exact Hpk.
Qed.

(** Whether loading succeeds depends on the disk only. *)
Lemma load_fails_on_same_disk (w w2 : world C) :
  w_fs C w2 = w_fs C w ->
  fst (load_existing C K w) <> Ok true ->
  fst (load_existing C K w2) <> Ok true.
Proof.
  intros Hfs Hload Hload2. apply Hload.
  destruct (load_true_stored w2 Hload2) as (text & sk & pk & Hfile & Hstored).
  rewrite Hfs in Hfile. now rewrite (load_stored_pair w text sk pk Hfile Hstored).
Qed.

(** X1. A key file that holds a pair is loaded and left alone: the start
    returns with that pair in memory and its JWK as the public key of the
    module, the disk is as it was, the only calls on the file system are
    the test for the key file and its read, and the pair that would have
    been generated is not used. *)
Theorem existing_key_file_is_loaded
  (keyPair : private_key C * public_key C) (createdAt : string) (w : world C)
  (text : string) (sk : private_key C) (pk : public_key C) :
  files (w_fs C w) !! keyFile K = Some text ->
  stored_pair C text sk pk ->
  exists w',
    loadOrGenerateKeys C K keyPair createdAt w = (Ok tt, w') /\
    w_keys C w' = keys_in_memory C sk pk /\
    getPublicKeyJwk (w_keys C w') = export_jwk C pk /\
    w_fs C w' = w_fs C w /\
    w_trace C w' = (w_trace C w ++ [OpExists (keyFile K); OpRead (keyFile K)])%list.
Proof.
  intros Hfile Hstored. eexists.
  split; [apply (load_path keyPair createdAt w text sk pk Hfile Hstored)|].
  repeat split.
Qed.




Ltac run_world :=
  cbv beta iota zeta delta
    [save_keys save_failed try_catchM bindM fs_exists fs_mkdir fs_write traced
     set_fs mkdirSync writeFileSync log ret existsSync
     w_fs w_keys w_console w_trace files dirs read_only].

(** The save phase, by what it logs: it either writes the key file and
    says so, or logs the failure and leaves every file as it was. *)
Lemma save_outcome (sk : private_key C) (pk : public_key C) (createdAt : string)
  (w : world C) :
  exists w',
    try_catchM C (save_keys C K sk pk createdAt) (save_failed C) w = (Ok tt, w') /\
    w_keys C w' = w_keys C w /\
    ((List.last (w_console C w') EmptyString = "Generated and saved new Ed25519 key pair" /\
      files (w_fs C w') = <[keyFile K := key_file_text C sk pk createdAt]> (files (w_fs C w)))
     \/
     (List.last (w_console C w') EmptyString = "Generated Ed25519 key pair (not persisted)" /\
      files (w_fs C w') = files (w_fs C w))).
Proof.
  destruct w as [[fl ds ro] ks con tr].
  run_world.
  repeat (match goal with
          | |- context [if ?b then _ else _] => destruct b eqn:?
          end; cbv beta iota).
  all: eexists; (split; [reflexivity|]); (split; [reflexivity|]).
  all: run_world; rewrite ?List.app_assoc, List.last_last.
  all: first [ left; split; reflexivity | right; split; reflexivity ].
Qed.

(** What the save phase may change on the disk: the key file, and the
    directory of the key file, which it may create. *)
Lemma save_effects (sk : private_key C) (pk : public_key C) (createdAt : string)
  (w : world C) :
  exists w',
    try_catchM C (save_keys C K sk pk createdAt) (save_failed C) w = (Ok tt, w') /\
    read_only (w_fs C w') = read_only (w_fs C w) /\
    (dirs (w_fs C w') = dirs (w_fs C w) \/
     dirs (w_fs C w') = {[dirname (keyFile K)]} ∪ dirs (w_fs C w)) /\
    (files (w_fs C w') = files (w_fs C w) \/
     files (w_fs C w') =
       <[keyFile K := key_file_text C sk pk createdAt]> (files (w_fs C w))).
Proof.
  destruct w as [[fl ds ro] ks con tr].
  run_world.
  repeat (match goal with
          | |- context [if ?b then _ else _] => destruct b eqn:?
          end; cbv beta iota).
  all: eexists; (split; [reflexivity|]); (split; [reflexivity|]).
  all: run_world.
  all: split; [first [left; reflexivity | right; reflexivity]
              | first [left; reflexivity | right; reflexivity]].
Qed.

(** The generate path, by what it logs. *)
Lemma generate_outcome (keyPair : private_key C * public_key C) (createdAt : string)
  (w : world C) :
  fst (load_existing C K w) <> Ok true ->
  exists w',
    loadOrGenerateKeys C K keyPair createdAt w = (Ok tt, w') /\
    w_keys C w' = keys_in_memory C (fst keyPair) (snd keyPair) /\
    ((List.last (w_console C w') EmptyString = "Generated and saved new Ed25519 key pair" /\
      files (w_fs C w') !! keyFile K =
        Some (key_file_text C (fst keyPair) (snd keyPair) createdAt))
     \/
     (List.last (w_console C w') EmptyString = "Generated Ed25519 key pair (not persisted)" /\
      files (w_fs C w') = files (w_fs C w))).
Proof.
  intros Hno.
  destruct (load_phase C K w) as (b & w1 & Hrun & Hfs1 & _ & Hb).
  destruct b; [now destruct Hno; apply Hb|].
  unfold loadOrGenerateKeys. unfold bindM at 1. rewrite Hrun.
  unfold bindM, set_privateKey, set_publicKey, set_publicKeyJwk, set_keys.
  cbn [w_fs w_keys w_console w_trace privateKey publicKey publicKeyJwk].
  match goal with
  | |- context [try_catchM C ?body ?h ?w2] =>
      destruct (save_outcome (fst keyPair) (snd keyPair) createdAt w2)
        as (w' & Hsave & Hkeys & Hout)
  end.
  cbn [w_fs w_keys w_console w_trace] in *.
  exists w'. rewrite Hsave. split; [reflexivity|]. split; [exact Hkeys|].
  rewrite Hfs1 in Hout.
  destruct Hout as [[Hlast Hfiles]|[Hlast Hfiles]]; [left | right].
  - split; [exact Hlast|]. rewrite Hfiles. apply lookup_insert_eq.
  - now split.
Qed.



End restart.
Lemma existing_key_file_is_loaded_witness :
  exists w',
    loadOrGenerateKeys example_crypto example_config
      ("another-private-key", "another-public-key") "2026-01-02T00:00:00.000Z"
      (boot example_crypto persisted_disk) = (Ok tt, w') /\
    w_keys example_crypto w' =
      keys_in_memory example_crypto "private-key-der" "public-key-der" /\
    w_fs example_crypto w' = persisted_disk.
Proof.
  destruct (existing_key_file_is_loaded example_crypto example_config
              ("another-private-key", "another-public-key") "2026-01-02T00:00:00.000Z"
              (boot example_crypto persisted_disk) example_key_text
              "private-key-der" "public-key-der")
    as (w' & Hrun & Hkeys & _ & Hfs & _).
  - vm_compute. reflexivity.
  - exists (key_record example_crypto "private-key-der" "public-key-der"
              "2026-01-01T00:00:00.000Z"),
      (VStr (Base64url.encode_std "private-key-der")), "private-key-der",
      (VStr (Base64url.encode_std "public-key-der")), "public-key-der".
    repeat split; vm_compute; reflexivity.
  - exists w'. repeat split; assumption.
Defined.



End KeyStoreRestart.

(** ** Tokens, from the builders to the readers *)

Module TokenFacts.
Import JS JSON Auth JSONValue Spec Behaviour.
Import StringFacts Base64urlFacts PrintFacts ParseFacts SanitizeFacts AuthFacts Issuing Reading.

Lemma enc_char_token_char (x : Base64url.sextet) : token_char (Base64url.enc_char x) = true.
Proof.
  destruct x as [[[[[b5 b4] b3] b2] b1] b0].
  destruct b5, b4, b3, b2, b1, b0; reflexivity.
Qed.

Lemma encode_token_chars (s : string) : all_chars token_char (Base64url.encode s) = true.
Proof.
  unfold Base64url.encode.
  induction (Base64url.sextets_of_bytes s) as [|x l IH]; simpl; [reflexivity|].
  now rewrite enc_char_token_char, IH.
Qed.

Lemma stringify_none (v : value) : stringify v = None <-> droppable v = true.
Proof. destruct v as [| |[|]| | | | | |]; simpl; split; congruence. Qed.

(** X6. [generateToken] returns a compact token of exactly three parts for
    every payload that [JSON.stringify] prints: the encoded JSON text of
    the header, the encoded JSON text of the payload, and the encoded
    signature of the first two parts joined by a dot; the token has only
    URL-safe characters and dots.  For a payload that does not print,
    which of the values modelled is [undefined] or a function and nothing
    else, it throws a TypeError. *)
Theorem generateToken_shape (E : env) (payload : value) :
  (forall j, stringify payload = Some j ->
     exists header body signature,
       generateToken E payload = Ok (header ++ "." ++ body ++ "." ++ signature) /\
       split "." (header ++ "." ++ body ++ "." ++ signature) = [header; body; signature] /\
       Some (Base64url.decode header) = stringify (token_header E) /\
       body = Base64url.encode j /\
       signature = Base64url.encode (sign E (header ++ "." ++ body)) /\
       all_chars token_char (header ++ "." ++ body ++ "." ++ signature) = true) /\
  (stringify payload = None -> generateToken E payload = Throw TypeError) /\
  (stringify payload = None <-> droppable payload = true).
Proof.
  split; [|split].
  - intros j Hj.
    exists (Base64url.encode (item_text (token_header E))), (Base64url.encode j).
    eexists. split; [apply (generateToken_eq E payload j Hj)|].
    split; [apply split_compact|].
    split; [now rewrite decode_encode|].
    split; [reflexivity|]. split; [reflexivity|].
    rewrite !all_chars_app, !encode_token_chars. reflexivity.
  - intros Hnone. unfold generateToken, base64url_json.
    rewrite (stringify_some _ (json_value_header E)), Hnone. reflexivity.
  - apply stringify_none.
Qed.

(** The parts of a token with a header and a payload part. *)
Lemma split_token (h b sig : string) :
  no_dot h = true -> no_dot b = true ->
  split "." (h ++ "." ++ b ++ "." ++ sig) = h :: b :: split "." sig /\
  split "." (h ++ "." ++ b) = [h; b].
Proof.
  intros Hh Hb. split.
  - change (h ++ "." ++ b ++ "." ++ sig) with (h ++ String "." (b ++ String "." sig)).
    now rewrite (split_app _ _ _ Hh), (split_app _ _ _ Hb).
  - change (h ++ "." ++ b) with (h ++ String "." b).
    now rewrite (split_app _ _ _ Hh), (split_none _ _ Hb).
Qed.

(** What [extractServerAudienceFromHeaders] does with a bearer token, by
    the parts of the token. *)
Lemma extract_bearer_token (t : string) :
  extractServerAudienceFromHeaders (bearer_headers t) =
  let! returned :=
    try_catch
      (if (2 <=? length (split "." t))%nat then
         let! payload := decode_segment (nth 1 (split "." t) EmptyString) in
         let! aud := get payload "aud" in
         if truthy aud then Ok (Some aud)
         else
           let! scope := get payload "scope" in
           if strict_eq_str scope "hytale:server" then
             let! sub := get payload "sub" in
             if truthy sub then Ok (Some sub) else Ok None
           else Ok None
       else Ok None)
      (fun _ => Ok None) in
  match returned with
  | Some v => Ok v
  | None => Ok VNull
  end.
Proof.
  unfold extractServerAudienceFromHeaders, bearer_headers.
  cbn [truthy negb get assoc String.eqb Ascii.eqb Bool.eqb bind call_replace call_split].
  change (String.eqb ("Bearer " ++ t) EmptyString) with false.
  cbn [negb]. now rewrite (replace_prefix "Bearer " t).
Qed.

(** X7. The readers look at the second part of a token and at nothing else:
    with another header, another signature, more parts or no signature at
    all, [parseToken] and [extractServerAudienceFromHeaders] return what
    they return for the token itself. *)
Theorem readers_ignore_header_and_signature (h h' b sig sig' : string) :
  no_dot h = true -> no_dot h' = true -> no_dot b = true ->
  parseToken (VStr (h' ++ "." ++ b ++ "." ++ sig')) =
    parseToken (VStr (h ++ "." ++ b ++ "." ++ sig)) /\
  parseToken (VStr (h' ++ "." ++ b)) =
    parseToken (VStr (h ++ "." ++ b ++ "." ++ sig)) /\
  extractServerAudienceFromHeaders (bearer_headers (h' ++ "." ++ b ++ "." ++ sig')) =
    extractServerAudienceFromHeaders (bearer_headers (h ++ "." ++ b ++ "." ++ sig)) /\
  extractServerAudienceFromHeaders (bearer_headers (h' ++ "." ++ b)) =
    extractServerAudienceFromHeaders (bearer_headers (h ++ "." ++ b ++ "." ++ sig)).
Proof.
  intros Hh Hh' Hb.
  destruct (split_token h b sig Hh Hb) as [H3 _].
  destruct (split_token h' b sig' Hh' Hb) as [H3' H2'].
  rewrite !parseToken_string, !extract_bearer_token, H3, H3', H2'.
  repeat split.
Qed.

(** What [parseToken] returns, from the claims it reads. *)
Lemma parseToken_claims (t : string) (payload sub username name scope aud : value) :
  (2 <= length (split "." t))%nat ->
  claims_of_token t = Ok payload ->
  get payload "sub" = Ok sub ->
  get payload "username" = Ok username ->
  get payload "name" = Ok name ->
  get payload "scope" = Ok scope ->
  get payload "aud" = Ok aud ->
  parseToken (VStr t) =
    Ok (VObj [("uuid", sub);
              ("name", if truthy username then username else name);
              ("scope", scope);
              ("aud", aud)]).
Proof.
  intros Hlen Hdec Hsub Husername Hname Hscope Haud.
  rewrite parseToken_string. apply Nat.leb_le in Hlen. rewrite Hlen.
  unfold claims_of_token in Hdec.
  now rewrite Hdec, Hsub, Husername, Hname, Hscope, Haud.
Qed.

(** What [extractServerAudienceFromHeaders] returns, from the claims it
    reads. *)
Lemma extract_claims (t : string) (payload sub scope aud : value) :
  (2 <= length (split "." t))%nat ->
  claims_of_token t = Ok payload ->
  get payload "aud" = Ok aud ->
  get payload "scope" = Ok scope ->
  get payload "sub" = Ok sub ->
  extractServerAudienceFromHeaders (bearer_headers t) =
    Ok (if truthy aud then aud
        else if strict_eq_str scope "hytale:server" && truthy sub then sub
             else VNull).
Proof.
  intros Hlen Hdec Haud Hscope Hsub.
  rewrite extract_bearer_token. apply Nat.leb_le in Hlen. rewrite Hlen.
  unfold claims_of_token in Hdec. rewrite Hdec. cbn [bind]. rewrite Haud. cbn [bind].
  destruct (truthy aud); [reflexivity|].
  rewrite Hscope. cbn [bind].
  destruct (strict_eq_str scope "hytale:server"); [|reflexivity].
  rewrite Hsub. cbn [bind andb]. now destruct (truthy sub).
Qed.

Section issued.
Variable E : env.
Variables u n a : string.
Variables certFingerprint scopes entitlements : value.
Variable host : option string.
Hypothesis Hcert : well_formed certFingerprint = true.
Hypothesis Hentitlements : well_formed entitlements = true.
Hypothesis Hscopes : json_or_absent scopes = true.

Lemma scopes_well_formed : well_formed scopes = true.
Proof using Hscopes.
  destruct scopes; try reflexivity; now apply json_well_formed.
Qed.

(** Each builder returns a token of three parts whose second part
    decodes to what its payload stands for. *)
Lemma issued_tokens :
  exists iss,
    (exists t, generateIdentityToken E (VStr u) (VStr n) scopes entitlements (host_value host) = Ok t /\
       length (split "." t) = 3%nat /\
       claims_of_token t =
         Ok (sanitize (identityPayload E (VStr u) (VStr n) (scope_of scopes)
                         (entitlements_of entitlements) iss))) /\
    (exists t, generateSessionToken E (VStr u) (host_value host) = Ok t /\
       length (split "." t) = 3%nat /\
       claims_of_token t = Ok (sanitize (sessionPayload E (VStr u) iss))) /\
    (exists t, generateAuthorizationGrant E (VStr u) (VStr n) (VStr a) scopes (host_value host) = Ok t /\
       length (split "." t) = 3%nat /\
       claims_of_token t =
         Ok (sanitize (grantPayload E (VStr u) (VStr n) (VStr a) (scope_of scopes) iss))) /\
    (exists t, generateAccessToken E (VStr u) (VStr n) (VStr a) certFingerprint scopes (host_value host) = Ok t /\
       length (split "." t) = 3%nat /\
       claims_of_token t =
         Ok (sanitize (accessPayload E (VStr u) (VStr n) (VStr a)
                         (fingerprint_of certFingerprint) (scope_of scopes) iss))).
Proof using Hcert Hentitlements Hscopes.
  pose proof scopes_well_formed as Hwf.
  destruct (getIssuerUrl_total E host) as [iss Hiss]. exists iss.
  unfold generateIdentityToken, generateSessionToken, generateAuthorizationGrant,
    generateAccessToken.
  rewrite Hiss. cbn [bind].
  repeat split.
  - apply (generateToken_any E).
    + apply (wf_identityPayload E (VStr u) (VStr n) scopes entitlements
               eq_refl eq_refl Hwf Hentitlements).
    + reflexivity.
  - apply (generateToken_any E); [|reflexivity].
    apply (wf_sessionPayload E (VStr u) eq_refl).
  - apply (generateToken_any E); [|reflexivity].
    apply (wf_grantPayload E (VStr u) (VStr n) (VStr a) scopes eq_refl eq_refl eq_refl Hwf).
  - destruct (wf_accessPayload E (VStr u) (VStr n) (VStr a) certFingerprint scopes
                eq_refl eq_refl eq_refl Hcert Hwf iss) as [Hw Hd].
    apply (generateToken_any E _ Hw Hd).
Qed.

End issued.

(** Reading a claim of a payload a builder made. *)
Ltac claim_kept := eapply get_sanitized; reflexivity.
Ltac claim_absent := apply get_missing; reflexivity.




(** X11. The issuer names the base domain, whatever the host header says: for
    a host header that is a text, or is missing or otherwise falsy,
    [getIssuerUrl] returns [https://] and a host that contains the base
    domain, which is the base domain itself or the header without its
    port. *)
Theorem issuer_contains_base_domain (E : env) (h : value) :
  truthy h = false \/ (exists s, h = VStr s) ->
  exists host,
    getIssuerUrl E h = Ok ("https://" ++ host) /\
    contains host (domain (cfg E)) /\
    (host = domain (cfg E) \/ exists s, h = VStr s /\ without_port s host).
Proof.
  assert (Hself : contains (domain (cfg E)) (domain (cfg E))).
  { exists EmptyString, EmptyString. cbn. now rewrite app_empty_r. }
  intros [Hfalsy|[s ->]].
  - exists (domain (cfg E)). unfold getIssuerUrl. rewrite Hfalsy.
    split; [reflexivity|]. split; [exact Hself | now left].
  - unfold getIssuerUrl. destruct (truthy (VStr s)).
    + cbn [call_split bind].
      destruct (includes (hd EmptyString (split ":" s)) (domain (cfg E))) eqn:Hin.
      * exists (hd EmptyString (split ":" s)). split; [reflexivity|].
        split; [now apply includes_spec|].
        right. exists s. split; [reflexivity|]. apply split_hd_spec.
      * exists (domain (cfg E)). split; [reflexivity|]. split; [exact Hself | now left].
    + exists (domain (cfg E)). split; [reflexivity|]. split; [exact Hself | now left].
Qed.

(** X12. A host header that is truthy and not a text (a number, [true], a
    list) makes every builder throw a TypeError, at the call of [split]
    on it; no token is returned. *)
Theorem builders_throw_on_non_text_host (E : env)
  (uuid name audience certFingerprint scopes entitlements h : value) :
  truthy h = true ->
  (forall s, h <> VStr s) ->
  (forall fields, h <> VObj fields) ->
  getIssuerUrl E h = Throw TypeError /\
  generateIdentityToken E uuid name scopes entitlements h = Throw TypeError /\
  generateSessionToken E uuid h = Throw TypeError /\
  generateAuthorizationGrant E uuid name audience scopes h = Throw TypeError /\
  generateAccessToken E uuid name audience certFingerprint scopes h = Throw TypeError.
Proof.
  intros Ht Hs _.
  assert (Hiss : getIssuerUrl E h = Throw TypeError).
  { unfold getIssuerUrl. rewrite Ht.
    destruct h; try reflexivity. now destruct (Hs s). }
  assert (Hd : default_arg h VNull = h) by (destruct h; [discriminate|..]; reflexivity).
  unfold generateIdentityToken, generateSessionToken, generateAuthorizationGrant,
    generateAccessToken.
  rewrite Hd, Hiss. repeat split.
Qed.

Lemma now_seconds_bounds (E : env) :
  1000 * now_seconds E <= Date_now E < 1000 * now_seconds E + 1000.
Proof.
  unfold now_seconds.
  pose proof (Z.div_mod (Date_now E) 1000 ltac:(lia)).
  pose proof (Z.mod_pos_bound (Date_now E) 1000 ltac:(lia)).
  lia.
Qed.



Lemma replace_absent (t : string) :
  no_space t = true -> replace t "Bearer " EmptyString = t.
Proof.
  unfold no_space. induction t as [|c t IH]; intros Ht.
  - reflexivity.
  - assert (Hs : starts_with "Bearer " (String c t) = false).
    { destruct (starts_with "Bearer " (String c t)) eqn:Hs; [|reflexivity].
      apply starts_with_spec in Hs as [r Hr]. rewrite Hr in Ht.
      rewrite all_chars_app in Ht. discriminate. }
    unfold replace; fold replace. rewrite Hs.
    simpl in Ht. apply andb_true_iff in Ht as [_ Ht]. now rewrite (IH Ht).
Qed.

(** X14. The scheme of the authorization header is not checked: a token that
    stands in the header alone, without [Bearer] before it, gives the
    audience, and the player of a telemetry request, that it gives as a
    bearer token. *)
Theorem bearer_prefix_is_optional (t : string) :
  no_space t = true ->
  extractServerAudienceFromHeaders (authorization_headers t) =
    extractServerAudienceFromHeaders (bearer_headers t) /\
  Telemetry.playerUuid_of (authorization_headers t) =
    Telemetry.playerUuid_of (bearer_headers t).
Proof.
  intros Ht. rewrite extract_bearer_token.
  unfold extractServerAudienceFromHeaders, Telemetry.playerUuid_of,
    authorization_headers, bearer_headers.
  cbn [truthy negb get assoc String.eqb Ascii.eqb Bool.eqb bind call_replace call_split].
  change (String.eqb ("Bearer " ++ t) EmptyString) with false. cbn [negb].
  rewrite (replace_prefix "Bearer " t).
  destruct t as [|c t]; [split; reflexivity|].
  cbn [String.eqb negb]. now rewrite (replace_absent _ Ht).
Qed.

(** Examples: the theorems at concrete calls. *)

Lemma generateToken_shape_witness :
  exists header body signature,
    generateToken example_env (VObj [("sub", VStr "u1")]) =
      Ok (header ++ "." ++ body ++ "." ++ signature) /\
    split "." (header ++ "." ++ body ++ "." ++ signature) = [header; body; signature] /\
    signature = Base64url.encode "signature-bytes".
Proof.
  destruct (proj1 (generateToken_shape example_env (VObj [("sub", VStr "u1")]))
              _ eq_refl)
    as (header & body & signature & Ht & Hsplit & _ & _ & Hsig & _).
  exists header, body, signature. repeat split; assumption.
Defined.

Lemma readers_ignore_header_and_signature_witness :
  parseToken (VStr ("e30" ++ "." ++ "eyJzdWIiOiJ1MSJ9" ++ "." ++ "forged")) =
  parseToken (VStr ("eyJhbGciOiJFZERTQSJ9" ++ "." ++ "eyJzdWIiOiJ1MSJ9" ++ "." ++ "c2ln")).
Proof.
  apply (readers_ignore_header_and_signature
           "eyJhbGciOiJFZERTQSJ9" "e30" "eyJzdWIiOiJ1MSJ9" "c2ln" "forged");
    reflexivity.
Defined.




Lemma issuer_contains_base_domain_witness :
  exists host,
    getIssuerUrl example_env (VStr "sessions.sanasol.ws:8443") = Ok ("https://" ++ host) /\
    contains host "sanasol.ws".
Proof.
  destruct (issuer_contains_base_domain example_env (VStr "sessions.sanasol.ws:8443"))
    as (host & Hiss & Hdomain & _).
  - right. now exists "sessions.sanasol.ws:8443".
  - exists host. split; assumption.
Defined.

Lemma builders_throw_on_non_text_host_witness :
  generateSessionToken example_env (VStr "u1") (VNum 8080) = Throw TypeError.
Proof.
  refine (proj1 (proj2 (proj2 (builders_throw_on_non_text_host example_env
            (VStr "u1") VUndefined VUndefined VUndefined VUndefined VUndefined
            (VNum 8080) eq_refl _ _)))); discriminate.
Defined.



Lemma bearer_prefix_is_optional_witness :
  extractServerAudienceFromHeaders (authorization_headers two_part_token) =
  extractServerAudienceFromHeaders (bearer_headers two_part_token).
Proof.
  apply (bearer_prefix_is_optional two_part_token). reflexivity.
Defined.

End TokenFacts.

(** ** The telemetry handler *)

Module TelemetryFacts.
Import JS Auth Spec Telemetry Behaviour StringFacts Reading TokenFacts.

Lemma get_field (v : value) (k : string) :
  nullish v = false -> get v k = Ok (field v k).
Proof. unfold field. destruct v; try discriminate; reflexivity. Qed.

Lemma truthy_not_nullish (v : value) : truthy v = true -> nullish v = false.
Proof. destruct v; try discriminate; reflexivity. Qed.

Lemma opt_get_field (v : value) (k : string) : opt_get v k = Ok (opt_field v k).
Proof.
  unfold opt_get, opt_field. destruct (nullish v) eqn:Hv; [reflexivity|].
  now apply get_field.
Qed.

Lemma opt_path_field (o : value) (a b : string) :
  nullish o = false -> opt_path o a b = Ok (opt_field (field o a) b).
Proof.
  intros Ho. unfold opt_path. rewrite (get_field o a Ho). cbn [bind].
  apply opt_get_field.
Qed.

Lemma opt_path3_field (o : value) (a b c : string) :
  nullish o = false ->
  opt_path3 o a b c = Ok (opt_field (opt_field (field o a) b) c).
Proof.
  intros Ho. unfold opt_path3. rewrite (get_field o a Ho). cbn [bind].
  rewrite opt_get_field. cbn [bind]. apply opt_get_field.
Qed.

Lemma path_field (o : value) (a b : string) :
  nullish o = false -> truthy (opt_field (field o a) b) = true ->
  path o a b = Ok (opt_field (field o a) b).
Proof.
  intros Ho Ht. unfold path. rewrite (get_field o a Ho). cbn [bind].
  unfold opt_field in *. destruct (nullish (field o a)) eqn:Hn; [discriminate|].
  now apply get_field.
Qed.

Lemma literal_fields_ok (l : list (string * result value)) :
  Forall (fun kr => exists v, snd kr = Ok v) l ->
  exists fields, literal_fields l = Ok fields.
Proof.
  induction 1 as [|[k r] l [v Hv] _ [fields IH]]; [now exists []|].
  simpl in Hv. subst r. simpl. rewrite IH. eexists. reflexivity.
Qed.

Lemma literal_ok (l : list (string * result value)) :
  Forall (fun kr => exists v, snd kr = Ok v) l ->
  exists o, literal l = Ok o.
Proof.
  intros H. destruct (literal_fields_ok l H) as [fields Hf].
  unfold literal. rewrite Hf. eexists. reflexivity.
Qed.

(** The properties of an object literal read from a body that is there. *)
Ltac fields_ok Hbody :=
  repeat (apply List.Forall_cons; [eexists; cbn [snd];
            first [ apply (get_field _ _ Hbody)
                  | apply (opt_path_field _ _ _ Hbody)
                  | apply (opt_path3_field _ _ _ _ Hbody)
                  | reflexivity
                  | eassumption ] |]);
  apply List.Forall_nil.

Lemma playerState_ok (body : value) :
  nullish body = false -> exists state, playerState body = Ok state.
Proof. intros Hbody. apply literal_ok. fields_ok Hbody. Qed.

Lemma resolution_ok (body : value) :
  nullish body = false -> exists r, resolution body = Ok r.
Proof.
  intros Hbody. unfold resolution. rewrite (get_field body _ Hbody). cbn [bind].
  destruct (truthy (field body "display")) eqn:Ht; [|eexists; reflexivity].
  unfold path. rewrite !(get_field body _ Hbody). cbn [bind].
  rewrite !(get_field _ _ (truthy_not_nullish _ Ht)). cbn [bind].
  eexists. reflexivity.
Qed.

Lemma playerHardware_ok (body language : value) :
  nullish body = false -> exists hardware, playerHardware body language = Ok hardware.
Proof.
  intros Hbody. destruct (resolution_ok body Hbody) as [r Hr].
  assert (Hsettings : exists o,
    literal
      [("vsync", opt_path body "settings" "vsync");
       ("fps_limit", opt_path body "settings" "fps_limit");
       ("view_distance", opt_path body "settings" "view_distance");
       ("fov", opt_path body "settings" "field_of_view");
       ("render_scale", opt_path body "settings" "render_scale");
       ("language", Ok language)] = Ok o).
  { apply literal_ok. fields_ok Hbody. }
  destruct Hsettings as [o Ho].
  apply literal_ok. fields_ok Hbody.
Qed.

Lemma sessionEnd_ok (body s p n : value) :
  nullish body = false -> nullish s = false -> nullish p = false -> nullish n = false ->
  exists summary, sessionEnd body s p n = Ok summary.
Proof.
  intros Hbody Hs Hp Hn. apply literal_ok.
  repeat (apply List.Forall_cons; [eexists; cbn [snd];
            first [ apply (get_field _ _ Hs) | apply (get_field _ _ Hp)
                  | apply (get_field _ _ Hn) | apply (get_field _ _ Hbody) ] |]).
  apply List.Forall_nil.
Qed.

Lemma eventRecord_ok (body eventName eventData : value) :
  nullish body = false -> exists record, eventRecord body eventName eventData = Ok record.
Proof. intros Hbody. apply literal_ok. fields_ok Hbody. Qed.

(** *** Whatever the services do *)

Section any_services.
Variable outcome : list call -> call -> result unit.

Lemma silent_ret {A : Type} (a : A) : silent (ret a).
Proof. intros made. exists []. now rewrite List.app_nil_r. Qed.

Lemma silent_lift {A : Type} (r : result A) : silent (lift r).
Proof. intros made. exists []. now rewrite List.app_nil_r. Qed.

Lemma silent_invoke (c : call) : is_send c = false -> silent (invoke outcome c).
Proof. intros Hc made. exists [c]. simpl. now rewrite Hc. Qed.

Lemma silent_bind {A B : Type} (m : T A) (k : A -> T B) :
  silent m -> (forall a, silent (k a)) -> silent (bindT m k).
Proof.
  intros Hm Hk made. unfold bindT.
  destruct (Hm made) as (ops & Hmade & Hops).
  destruct (m made) as [[a|e] made1]; simpl in *.
  - destruct (Hk a made1) as (ops' & Hmade' & Hops').
    exists (ops ++ ops')%list.
    rewrite Hmade', Hmade, <- List.app_assoc. split; [reflexivity|].
    now rewrite existsb_app, Hops, Hops'.
  - now exists ops.
Qed.

Lemma silent_when (c : bool) (m : T unit) : silent m -> silent (when c m).
Proof. destruct c; [trivial | intros _; apply silent_ret]. Qed.

(** Steps through a computation that sends no reply. *)
Ltac silent_steps :=
  repeat first
    [ apply silent_bind; [|intros ?]
    | apply silent_when
    | apply silent_ret
    | apply silent_lift
    | apply silent_invoke; reflexivity
    | match goal with
      | |- silent (if ?c then _ else _) => destruct c
      end ].

Lemma silent_observe_path (name : string) (o : value) (a b : string) :
  silent (observe_path outcome name o a b).
Proof. unfold observe_path. silent_steps. Qed.

Lemma silent_observe_field (name : string) (o : value) (k : string) :
  silent (observe_field outcome name o k).
Proof. unfold observe_field. silent_steps. Qed.

(** The same for a branch of the handler, which observes metrics. *)
Ltac silent_branch :=
  repeat first
    [ apply silent_observe_path
    | apply silent_observe_field
    | apply silent_bind; [|intros ?]
    | apply silent_when
    | apply silent_ret
    | apply silent_lift
    | apply silent_invoke; reflexivity
    | match goal with
      | |- silent (if ?c then _ else _) => destruct c
      end ].

Lemma silent_heartbeat (body playerUuid : value) :
  silent (heartbeat outcome body playerUuid).
Proof. unfold heartbeat. silent_branch. Qed.

Lemma silent_session_start (body playerUuid : value) :
  silent (session_start outcome body playerUuid).
Proof. unfold session_start. silent_branch. Qed.

Lemma silent_session_end (body playerUuid : value) :
  silent (session_end outcome body playerUuid).
Proof. unfold session_end. silent_branch. Qed.

Lemma silent_event (body playerUuid : value) :
  silent (event outcome body playerUuid).
Proof. unfold event. silent_branch. Qed.

Lemma silent_dispatch (body telemetryType playerUuid : value) :
  silent
    (if strict_eq_str telemetryType "heartbeat" && truthy playerUuid then
       heartbeat outcome body playerUuid
     else if strict_eq_str telemetryType "session_start" && truthy playerUuid then
       session_start outcome body playerUuid
     else if strict_eq_str telemetryType "session_end" && truthy playerUuid then
       session_end outcome body playerUuid
     else if strict_eq_str telemetryType "event" && truthy playerUuid then
       event outcome body playerUuid
     else ret tt).
Proof.
  repeat match goal with
         | |- silent (if ?c then _ else _) => destruct c
         end;
    auto using silent_heartbeat, silent_session_start, silent_session_end,
      silent_event, silent_ret.
Qed.

Lemma send_is_last (l pre post : list call) (x c : call) :
  existsb is_send l = false -> is_send c = true ->
  (l ++ [x])%list = (pre ++ c :: post)%list ->
  post = [] /\ c = x /\ pre = l.
Proof.
  revert pre. induction l as [|y l IH]; intros pre Hl Hc Heq.
  - destruct pre as [|z pre]; simpl in Heq.
    + injection Heq as <- <-. now repeat split.
    + injection Heq as _ Heq. now destruct pre.
  - simpl in Hl. apply orb_false_iff in Hl as [Hy Hl].
    destruct pre as [|z pre]; simpl in Heq.
    + injection Heq as -> _. congruence.
    + injection Heq as <- Heq. destruct (IH pre Hl Hc Heq) as (-> & -> & ->).
      now repeat split.
Qed.

Lemma no_send_inside (l pre post : list call) (c : call) :
  existsb is_send l = false -> l = (pre ++ c :: post)%list -> is_send c = false.
Proof.
  intros Hl ->. rewrite existsb_app in Hl. apply orb_false_iff in Hl as [_ Hl].
  simpl in Hl. now apply orb_false_iff in Hl as [Hc _].
Qed.

(** The runs of the handler, whatever the services do: it stops before
    any call, or after the count of the request, or in the branch of the
    request without a reply, or at the reply, which is its last call. *)
Lemma handler_runs (body headers : value) :
  (exists e, handleTelemetry outcome body headers [] = (Throw e, [])) \/
  (exists e, handleTelemetry outcome body headers [] = (Throw e, [received])) \/
  (exists e ops,
     handleTelemetry outcome body headers [] = (Throw e, received :: ops) /\
     existsb is_send ops = false) \/
  (exists ops,
     handleTelemetry outcome body headers [] =
       (outcome (received :: ops) acknowledgement,
        (received :: ops ++ [acknowledgement])%list) /\
     existsb is_send ops = false).
Proof.
  remember (handleTelemetry outcome body headers []) as run eqn:Hrun.
  unfold handleTelemetry, bindT, lift, invoke in Hrun.
  destruct (playerUuid_of headers) as [playerUuid|e]; [|left; now exists e].
  destruct (get body "type") as [telemetryType|e]; [|left; now exists e].
  cbn [List.app] in Hrun. fold received in Hrun.
  destruct (outcome [] received) as [[]|e]; [|right; left; now exists e].
  destruct (silent_dispatch body telemetryType playerUuid [received])
    as (ops & Hmade & Hops).
  match type of Hmade with
  | snd (?d _) = _ => destruct (d [received]) as [[[]|e] made]
  end; simpl in Hmade; subst made.
  - right; right; right. exists ops. now split.
  - right; right; left. now exists e, ops.
Qed.

(** X16. A reply is only ever the last call of the handler, it is the
    acknowledgement, and the handler then ends as the sending of it ends:
    after a call that fails, on [storage] or elsewhere, no reply is sent.
    When the handler returns, the acknowledgement was its last call. *)
Theorem acknowledgement_is_the_last_call (body headers : value) :
  (forall pre c post,
     snd (handleTelemetry outcome body headers []) = (pre ++ c :: post)%list ->
     is_send c = true ->
     c = acknowledgement /\ post = [] /\
     fst (handleTelemetry outcome body headers []) = outcome pre acknowledgement) /\
  (fst (handleTelemetry outcome body headers []) = Ok tt ->
   exists pre,
     snd (handleTelemetry outcome body headers []) = (pre ++ [acknowledgement])%list).
Proof.
  destruct (handler_runs body headers)
    as [[e Hrun]|[[e Hrun]|[(e & ops & Hrun & Hops)|(ops & Hrun & Hops)]]];
    rewrite Hrun; cbn [fst snd]; split; try discriminate.
  - intros pre c post Heq. now destruct pre.
  - intros pre c post Heq Hc.
    assert (is_send c = false) as Hn
      by (apply (no_send_inside [received] pre post c); [reflexivity | exact Heq]).
    congruence.
  - intros pre c post Heq Hc.
    assert (is_send c = false) as Hn
      by (apply (no_send_inside (received :: ops) pre post c); [exact Hops | exact Heq]).
    congruence.
  - intros pre c post Heq Hc.
    destruct (send_is_last (received :: ops) pre post acknowledgement c Hops Hc Heq)
      as (-> & -> & ->).
    now repeat split.
  - intros _. now exists (received :: ops).
Qed.

(** X17. A request that speaks for no player changes nothing in [storage],
    whatever its type: the handler counts the request, acknowledges it,
    and makes no other call. *)
Theorem anonymous_telemetry_stores_nothing (body headers playerUuid : value) :
  playerUuid_of headers = Ok playerUuid ->
  truthy playerUuid = false ->
  nullish body = false ->
  (exists e,
     outcome [] received = Throw e /\
     handleTelemetry outcome body headers [] = (Throw e, [received])) \/
  (outcome [] received = Ok tt /\
   handleTelemetry outcome body headers [] =
     (outcome [received] acknowledgement, [received; acknowledgement])).
Proof.
  intros Hplayer Hfalsy Hbody.
  unfold handleTelemetry, bindT, lift, invoke.
  rewrite Hplayer, (get_field body "type" Hbody), Hfalsy, !andb_false_r.
  cbn [List.app]. fold received.
  destruct (outcome [] received) as [[]|e] eqn:Hcount; [right | left].
  - now split.
  - now exists e.
Qed.

End any_services.

(** *** When every call on a service returns *)

Lemma yields_ret {A : Type} (a : A) : yields (ret a) a [].
Proof. intros made. exists []. now rewrite List.app_nil_r. Qed.

Lemma yields_lift {A : Type} (a : A) : yields (lift (Ok a)) a [].
Proof. intros made. exists []. now rewrite List.app_nil_r. Qed.

Lemma yields_invoke (c : call) :
  yields (invoke all_return c) tt (List.filter notable [c]).
Proof. intros made. now exists [c]. Qed.

Lemma yields_bind {A B : Type} (m : T A) (k : A -> T B) (a : A) (b : B)
  (n1 n2 : list call) :
  yields m a n1 -> yields (k a) b n2 -> yields (bindT m k) b (n1 ++ n2)%list.
Proof.
  intros Hm Hk made. unfold bindT.
  destruct (Hm made) as (ops1 & -> & Hn1).
  destruct (Hk (made ++ ops1)%list) as (ops2 & -> & Hn2).
  exists (ops1 ++ ops2)%list. rewrite List.app_assoc. split; [reflexivity|].
  now rewrite List.filter_app, Hn1, Hn2.
Qed.

Lemma yields_when (c : bool) (m : T unit) (n : list call) :
  yields m tt n -> yields (when c m) tt (if c then n else []).
Proof. destruct c; [trivial | intros _; apply yields_ret]. Qed.

Lemma yields_if {A : Type} (c : bool) (m1 m2 : T A) (a : A) (n1 n2 : list call) :
  yields m1 a n1 -> yields m2 a n2 ->
  yields (if c then m1 else m2) a (if c then n1 else n2).
Proof. now destruct c. Qed.

Lemma yields_eq {A : Type} (m : T A) (a : A) (n n' : list call) :
  yields m a n -> n = n' -> yields m a n'.
Proof. now intros H <-. Qed.

Lemma yields_observe_path (name : string) (o : value) (a b : string) :
  nullish o = false -> yields (observe_path all_return name o a b) tt [].
Proof.
  intros Ho. unfold observe_path. rewrite (opt_path_field o a b Ho).
  eapply yields_eq.
  - eapply yields_bind; [apply yields_lift|]. cbn beta.
    destruct (truthy (opt_field (field o a) b)) eqn:Ht; cbn [when].
    + rewrite (path_field o a b Ho Ht).
      eapply yields_bind; [apply yields_lift | apply yields_invoke].
    + apply yields_ret.
  - reflexivity.
Qed.

Lemma yields_observe_field (name : string) (o : value) (k : string) :
  nullish o = false -> yields (observe_field all_return name o k) tt [].
Proof.
  intros Ho. unfold observe_field. rewrite (get_field o k Ho).
  eapply yields_eq.
  - eapply yields_bind; [apply yields_lift|]. cbn beta.
    destruct (truthy (field o k)); cbn [when].
    + eapply yields_bind; [apply yields_lift | apply yields_invoke].
    + apply yields_ret.
  - reflexivity.
Qed.

Lemma yields_bind_lift {A B : Type} (a : A) (k : A -> T B) (b : B) (n : list call) :
  yields (k a) b n -> yields (bindT (lift (Ok a)) k) b n.
Proof. intros Hk. apply (yields_bind _ _ _ _ [] n (yields_lift a) Hk). Qed.

Lemma yields_bind_invoke {B : Type} (c : call) (k : unit -> T B) (b : B)
  (n : list call) :
  yields (k tt) b n ->
  yields (bindT (invoke all_return c) k) b (List.filter notable [c] ++ n)%list.
Proof. intros Hk. apply (yields_bind _ _ _ _ _ n (yields_invoke c) Hk). Qed.

Lemma yields_bind_quiet {B : Type} (m : T unit) (k : unit -> T B) (b : B)
  (n : list call) :
  yields m tt [] -> yields (k tt) b n -> yields (bindT m k) b n.
Proof. intros Hm Hk. apply (yields_bind _ _ _ _ [] n Hm Hk). Qed.

Lemma or_else_object (v : value) : nullish (or_else v (VObj [])) = false.
Proof.
  unfold or_else. destruct (truthy v) eqn:Hv; [|reflexivity].
  now apply truthy_not_nullish.
Qed.

(** Steps through a branch, collecting its notable calls. *)
Ltac yield_steps :=
  repeat match goal with
    | |- yields (ret _) _ _ => apply yields_ret
    | |- yields (bindT (lift (Ok _)) _) _ _ => apply yields_bind_lift; cbn beta zeta
    | |- yields (bindT (observe_path _ _ _ _ _) _) _ _ =>
        apply yields_bind_quiet; [apply yields_observe_path; assumption|]
    | |- yields (bindT (observe_field _ _ _ _) _) _ _ =>
        apply yields_bind_quiet; [apply yields_observe_field; assumption|]
    | |- yields (observe_field _ _ _ _) _ _ => apply yields_observe_field; assumption
    | |- yields (bindT (invoke _ _) _) _ _ => eapply yields_bind_invoke
    | |- yields (invoke _ _) _ _ => apply yields_invoke
    | |- yields (when _ _) _ _ => eapply yields_when
    end.

Lemma heartbeat_yields (body playerUuid : value) :
  nullish body = false ->
  yields (heartbeat all_return body playerUuid) tt
    (if strict_eq_false (opt_field (field body "network") "connected")
     then [RemovePlayerFromAllServers playerUuid] else []).
Proof.
  intros Hbody. unfold heartbeat.
  destruct (playerState_ok body Hbody) as [state ->].
  rewrite (opt_path_field body "network" "connected" Hbody).
  eapply yields_eq; [yield_steps | reflexivity].
Qed.

Lemma session_start_yields (body playerUuid : value) :
  nullish body = false ->
  yields (session_start all_return body playerUuid) tt [].
Proof.
  intros Hbody. unfold session_start.
  rewrite (opt_path_field body "settings" "language" Hbody).
  destruct (playerHardware_ok body
              (or_else (opt_field (field body "settings") "language") (VStr "unknown"))
              Hbody) as [hardware Hhardware].
  apply yields_bind_lift; cbn beta zeta. rewrite Hhardware.
  eapply yields_eq; [yield_steps | reflexivity].
Qed.

Lemma session_end_yields (body playerUuid : value) :
  nullish body = false ->
  yields (session_end all_return body playerUuid) tt
    [RemovePlayerFromAllServers playerUuid].
Proof.
  intros Hbody. unfold session_end.
  rewrite !(get_field body _ Hbody).
  pose proof (or_else_object (field body "session_summary")) as Hs.
  pose proof (or_else_object (field body "performance_summary")) as Hp.
  pose proof (or_else_object (field body "network_summary")) as Hn.
  destruct (sessionEnd_ok body _ _ _ Hbody Hs Hp Hn) as [summary Hsummary].
  do 3 (apply yields_bind_lift; cbn beta zeta).
  rewrite Hsummary, !(get_field _ _ Hs).
  eapply yields_eq.
  - apply yields_bind_lift; cbn beta zeta.
    eapply yields_bind_invoke.
    apply yields_bind_lift; cbn beta zeta.
    eapply yields_bind; [eapply yields_when; yield_steps|].
    apply yields_bind_lift; cbn beta zeta.
    eapply yields_bind; [eapply yields_when; yield_steps|].
    yield_steps.
  - now destruct (truthy _), (truthy _).
Qed.

Lemma event_yields (body playerUuid : value) :
  nullish body = false ->
  yields (event all_return body playerUuid) tt
    (if strict_eq_str (field body "event_name") "server_disconnect"
     then [RemovePlayerFromAllServers playerUuid] else []).
Proof.
  intros Hbody. unfold event.
  rewrite !(get_field body _ Hbody).
  pose proof (or_else_object (field body "event_data")) as Hd.
  destruct (eventRecord_ok body (field body "event_name")
              (or_else (field body "event_data") (VObj [])) Hbody)
    as [record Hrecord].
  do 2 (apply yields_bind_lift; cbn beta zeta).
  rewrite Hrecord, !(get_field _ _ Hd).
  destruct (strict_eq_str (field body "event_name") "server_connect") eqn:Hconnect.
  { assert (Hno : strict_eq_str (field body "event_name") "server_disconnect" = false).
    { destruct (field body "event_name"); try reflexivity. simpl in *.
      apply String.eqb_eq in Hconnect. now subst. }
    rewrite Hno. eapply yields_eq; [yield_steps | reflexivity]. }
  destruct (strict_eq_str (field body "event_name") "server_disconnect").
  { eapply yields_eq; [yield_steps | reflexivity]. }
  destruct (strict_eq_str (field body "event_name") "world_joined").
  { eapply yields_eq; [yield_steps | reflexivity]. }
  destruct (strict_eq_str (field body "event_name") "state_transition");
    (eapply yields_eq; [yield_steps | reflexivity]).
Qed.

Lemma type_is_one (v : value) (a b : string) :
  a <> b -> strict_eq_str v a = true -> strict_eq_str v b = false.
Proof.
  intros Hab. destruct v; try discriminate. simpl.
  intros Ha. apply String.eqb_eq in Ha. subst. now apply String.eqb_neq.
Qed.

(** The branch the handler takes, by the type of the request. *)
Lemma dispatch_yields (body playerUuid : value) :
  nullish body = false ->
  yields
    (if strict_eq_str (field body "type") "heartbeat" && truthy playerUuid then
       heartbeat all_return body playerUuid
     else if strict_eq_str (field body "type") "session_start" && truthy playerUuid then
       session_start all_return body playerUuid
     else if strict_eq_str (field body "type") "session_end" && truthy playerUuid then
       session_end all_return body playerUuid
     else if strict_eq_str (field body "type") "event" && truthy playerUuid then
       event all_return body playerUuid
     else ret tt)
    tt
    (if truthy playerUuid && leaves_servers body
     then [RemovePlayerFromAllServers playerUuid] else []).
Proof.
  intros Hbody. unfold leaves_servers.
  destruct (truthy playerUuid); cbn [andb];
    [|rewrite !andb_false_r; apply yields_ret].
  rewrite !andb_true_r.
  destruct (strict_eq_str (field body "type") "heartbeat") eqn:H1.
  { rewrite (type_is_one _ "heartbeat" "session_end" ltac:(discriminate) H1),
      (type_is_one _ "heartbeat" "event" ltac:(discriminate) H1).
    cbn [andb orb]. rewrite !orb_false_r. now apply heartbeat_yields. }
  destruct (strict_eq_str (field body "type") "session_start") eqn:H2.
  { rewrite (type_is_one _ "session_start" "session_end" ltac:(discriminate) H2),
      (type_is_one _ "session_start" "event" ltac:(discriminate) H2).
    now apply session_start_yields. }
  destruct (strict_eq_str (field body "type") "session_end") eqn:H3.
  { cbn [andb orb]. now apply session_end_yields. }
  destruct (strict_eq_str (field body "type") "event") eqn:H4.
  { cbn [andb orb]. now apply event_yields. }
  apply yields_ret.
Qed.

(** The run of the handler when every call returns. *)
Lemma handler_returns (body headers playerUuid : value) :
  playerUuid_of headers = Ok playerUuid ->
  nullish body = false ->
  exists mid,
    handleTelemetry all_return body headers [] =
      (Ok tt, (received :: mid ++ [acknowledgement])%list) /\
    List.filter notable mid =
      (if truthy playerUuid && leaves_servers body
       then [RemovePlayerFromAllServers playerUuid] else []).
Proof.
  intros Hplayer Hbody.
  unfold handleTelemetry, bindT, lift, invoke.
  rewrite Hplayer, (get_field body "type" Hbody). cbn [List.app all_return].
  fold received.
  destruct (dispatch_yields body playerUuid Hbody [received]) as (mid & -> & Hmid).
  now exists mid.
Qed.

Lemma filter_notable (p : call -> bool) (l : list call) :
  (forall c, p c = true -> notable c = true) ->
  List.filter p (List.filter notable l) = List.filter p l.
Proof.
  intros Hp. induction l as [|c l IH]; [reflexivity|]. simpl.
  destruct (notable c) eqn:Hn; simpl; [now rewrite IH|].
  destruct (p c) eqn:Hc; [|exact IH]. rewrite (Hp c Hc) in Hn. discriminate.
Qed.



(** *** The calls of a heartbeat, one by one *)

Lemma emits_ret {A : Type} (a : A) : emits (ret a) a [].
Proof. intros made. unfold ret. now rewrite List.app_nil_r. Qed.

Lemma emits_bind_lift {A B : Type} (a : A) (k : A -> T B) (b : B) (ops : list call) :
  emits (k a) b ops -> emits (bindT (lift (Ok a)) k) b ops.
Proof. intros Hk made. unfold bindT, lift. apply Hk. Qed.

Lemma emits_bind {A B : Type} (m : T A) (k : A -> T B) (a : A) (b : B)
  (ops1 ops2 : list call) :
  emits m a ops1 -> emits (k a) b ops2 -> emits (bindT m k) b (ops1 ++ ops2)%list.
Proof.
  intros Hm Hk made. unfold bindT. rewrite (Hm made), (Hk (made ++ ops1)%list).
  now rewrite List.app_assoc.
Qed.

Lemma emits_invoke (c : call) : emits (invoke all_return c) tt [c].
Proof. intros made. reflexivity. Qed.

Lemma emits_observe_path (name : string) (o : value) (a b : string) :
  nullish o = false ->
  emits (observe_path all_return name o a b) tt
    (observations [(name, opt_field (field o a) b)]).
Proof.
  intros Ho. unfold observe_path, observations. rewrite (opt_path_field o a b Ho).
  apply emits_bind_lift. cbn [List.filter snd fst].
  destruct (truthy (opt_field (field o a) b)) eqn:Ht; cbn [when map].
  - rewrite (path_field o a b Ho Ht). apply emits_bind_lift, emits_invoke.
  - apply emits_ret.
Qed.

Lemma emits_observe_field (name : string) (o : value) (k : string) :
  nullish o = false ->
  emits (observe_field all_return name o k) tt (observations [(name, field o k)]).
Proof.
  intros Ho. unfold observe_field, observations. rewrite (get_field o k Ho).
  apply emits_bind_lift. cbn [List.filter snd fst].
  destruct (truthy (field o k)); cbn [when map].
  - apply emits_bind_lift, emits_invoke.
  - apply emits_ret.
Qed.

Lemma observations_app (l1 l2 : list (string * value)) :
  observations (l1 ++ l2) = (observations l1 ++ observations l2)%list.
Proof. unfold observations. now rewrite List.filter_app, List.map_app. Qed.

Lemma filter_observations (l : list (string * value)) :
  List.filter is_observation (observations l) = observations l.
Proof.
  unfold observations. induction (List.filter _ l) as [|x l' IH]; [reflexivity|].
  simpl. now rewrite IH.
Qed.

(** The calls of the heartbeat branch, in order. *)
Lemma heartbeat_emits (body playerUuid state : value) :
  nullish body = false ->
  playerState body = Ok state ->
  emits (heartbeat all_return body playerUuid) tt
    (TrackActivePlayer playerUuid VNull
       :: UpdatePlayerState playerUuid state
       :: observations (heartbeat_metrics body) ++
          (if strict_eq_false (opt_field (field body "network") "connected")
           then [RemovePlayerFromAllServers playerUuid] else []))%list.
Proof.
  intros Hbody Hstate. unfold heartbeat. rewrite Hstate.
  rewrite (opt_path_field body "network" "connected" Hbody).
  apply (emits_bind _ _ tt tt [_] _ (emits_invoke _)).
  apply emits_bind_lift.
  apply (emits_bind _ _ tt tt [_] _ (emits_invoke _)).
  change (heartbeat_metrics body) with
    ([("fps", opt_field (field body "performance") "fps_avg")] ++
     [("frame_time", opt_field (field body "performance") "frame_time_p99_ms")] ++
     [("latency", opt_field (field body "network") "latency_ms")] ++
     [("memory", opt_field (field body "memory") "working_set_mb")] ++
     [("session_duration", field body "session_duration_seconds")])%list.
  rewrite !observations_app, <- !List.app_assoc.
  do 4 (eapply emits_bind; [now apply emits_observe_path|]).
  eapply emits_bind; [now apply emits_observe_field|].
  apply emits_bind_lift.
  destruct (strict_eq_false _); [apply emits_invoke | apply emits_ret].
Qed.


Lemma parseToken_returns (v : value) : exists r, parseToken v = Ok r.
Proof.
  unfold parseToken.
  match goal with
  | |- context [try_catch ?b _] => destruct (try_catch_total b) as [r Hr]; rewrite Hr
  end.
  destruct r; eexists; reflexivity.
Qed.


(** X20. Without a body, and with an authorization header that is truthy and
    not a text, the handler throws a TypeError before it makes any call:
    the request is not counted and not acknowledged. *)
Theorem telemetry_fails_before_any_call
  (outcome : list call -> call -> result unit) (body headers : value) :
  (nullish body = true ->
   handleTelemetry outcome body headers [] = (Throw TypeError, [])) /\
  (forall authorization,
     truthy headers = true ->
     get headers "authorization" = Ok authorization ->
     truthy authorization = true ->
     (forall s, authorization <> VStr s) ->
     (forall fields, authorization <> VObj fields) ->
     handleTelemetry outcome body headers [] = (Throw TypeError, [])).
Proof.
  split.
  - intros Hbody. unfold handleTelemetry, bindT, lift.
    assert (Hplayer : (exists p, playerUuid_of headers = Ok p) \/
                      playerUuid_of headers = Throw TypeError).
    { unfold playerUuid_of. destruct (truthy headers) eqn:Hh; [|left; now eexists].
      rewrite (get_field headers _ (truthy_not_nullish _ Hh)). cbn [bind].
      destruct (truthy (field headers "authorization")); [|left; now eexists].
      destruct (field headers "authorization"); try (now right).
      cbn [call_replace bind].
      destruct (parseToken_returns (VStr (replace s "Bearer " ""))) as [r ->].
      cbn [bind]. destruct (truthy r) eqn:Hr; [|left; now eexists].
      rewrite (get_field r _ (truthy_not_nullish _ Hr)). cbn [bind].
      destruct (truthy (field r "uuid")); left; now eexists. }
    destruct Hplayer as [[p ->]| ->]; [|reflexivity].
    now destruct body.
  - intros authorization Hh Ha Ht Hs _.
    unfold handleTelemetry, bindT, lift, playerUuid_of.
    rewrite Hh, Ha. cbn [bind]. rewrite Ht.
    destruct authorization; try reflexivity. now destruct (Hs s).
Qed.

(** Examples: the theorems at a heartbeat that carries a bearer token. *)

Lemma acknowledgement_is_the_last_call_witness :
  exists pre,
    snd (handleTelemetry all_return example_heartbeat (bearer_headers two_part_token) [])
    = (pre ++ [acknowledgement])%list.
Proof.
  apply (proj2 (acknowledgement_is_the_last_call all_return example_heartbeat
                  (bearer_headers two_part_token))).
  vm_compute. reflexivity.
Defined.

Lemma anonymous_telemetry_stores_nothing_witness :
  handleTelemetry all_return example_heartbeat VUndefined [] =
    (Ok tt, [received; acknowledgement]).
Proof.
  destruct (anonymous_telemetry_stores_nothing all_return example_heartbeat
              VUndefined VNull eq_refl eq_refl eq_refl) as [(e & H & _)|[_ H]].
  - discriminate.
  - exact H.
Defined.





Lemma telemetry_fails_before_any_call_witness :
  handleTelemetry all_return VUndefined VUndefined [] = (Throw TypeError, []).
Proof.
  apply (proj1 (telemetry_fails_before_any_call all_return VUndefined VUndefined)).
  reflexivity.
Defined.

End TelemetryFacts.
